(** * Virtual module filenames of @embroider/core

    A shallow embedding of [packages/core/src/virtual-content.ts]: the four
    filename encodings (external shim, paired component, fastboot switch,
    implicit modules), their decoders, the dispatcher [virtualContent] and
    the implicit-modules aggregator [renderImplicitModules].

    Conventions.
    - A JavaScript string is the list of its UTF-16 code units ([list N]);
      [lit] turns an ASCII literal of the source into such a list.
    - A JavaScript [throw] is the [Throw] case of [outcome].
    - An object used as a map is a plain [{}]: the list of its own
      properties, the latest assignment first, in front of the standard
      [Object.prototype], whose properties a lookup also finds.
    - Regular expressions are kept as syntax trees that follow the regex
      literals of the source and are run by a backtracking matcher with
      JavaScript's priorities (leftmost start, greedy quantifiers).
    - [path] is Node's POSIX flavour; the working directory that
      [path.resolve] reads from the process is an explicit argument [cwd].
    - Code of the repository that lives outside [virtual-content.ts]
      ([explicitRelative], [extensionsPattern], the compiled Handlebars
      templates, the resolver's package cache) is gathered in the record
      [Collaborators] and in the [Resolver] and [Package] records. *)

From Stdlib Require Import String Ascii.
From Stdlib Require Import List NArith ZArith Lia Bool.
From Stdlib Require Import Permutation Sorted.
Import ListNotations.

Set Implicit Arguments.

(* ================================================================== *)
(** * Part I: definitions *)
(* ================================================================== *)

(** ** JavaScript strings and exceptions *)

Definition jsstring := list N.

Definition lit (s : string) : jsstring :=
  List.map N_of_ascii (list_ascii_of_string s).

Inductive exn :=
| JSError (message : jsstring)   (* [new Error(message)] *)
| URIError                       (* thrown by the URI coding built-ins *)
| TypeError.                     (* thrown by calling what is no function *)

Inductive outcome (A : Type) :=
| Return (a : A)
| Throw (e : exn).

Arguments Return {A} a.
Arguments Throw {A} e.

Definition bind {A B} (m : outcome A) (f : A -> outcome B) : outcome B :=
  match m with
  | Return a => f a
  | Throw e => Throw e
  end.

Notation "'do' x <- m ;; k" := (bind m (fun x => k))
  (at level 10, x name, m at level 100, k at level 200).

(** A [for ... of] loop over an array whose body may throw: the body
    takes the state to the next state, and a throw ends the loop. *)
Fixpoint forOf {A B : Type} (body : A -> B -> outcome A) (l : list B)
         (state : A) : outcome A :=
  match l with
  | [] => Return state
  | x :: l' => do state' <- body state x ;; forOf body l' state'
  end.

Fixpoint str_eqb (a b : jsstring) : bool :=
  match a, b with
  | [], [] => true
  | x :: a', y :: b' => N.eqb x y && str_eqb a' b'
  | _, _ => false
  end.

Definition isEmpty (s : jsstring) : bool :=
  match s with [] => true | _ :: _ => false end.

(** [s.startsWith(p)] *)
Fixpoint startsWith (s p : jsstring) {struct p} : bool :=
  match p with
  | [] => true
  | c :: p' =>
      match s with
      | [] => false
      | d :: s' => N.eqb c d && startsWith s' p'
      end
  end.

(** [s.endsWith(p)] *)
Definition endsWith (s p : jsstring) : bool :=
  startsWith (rev s) (rev p).

(** [s.slice(n)] for [n >= 0] *)
Definition sliceFrom (n : nat) (s : jsstring) : jsstring := skipn n s.

(** [s.slice(0, -n)] for [n > 0] *)
Definition sliceDropEnd (n : nat) (s : jsstring) : jsstring :=
  firstn (length s - n) s.

(** [s.split(sep)] for a one-unit separator; the empty string splits into
    one empty piece. *)
Fixpoint split (sep : N) (s : jsstring) : list jsstring :=
  match s with
  | [] => [[]]
  | c :: s' =>
      if N.eqb c sep then [] :: split sep s'
      else match split sep s' with
           | seg :: segs => (c :: seg) :: segs
           | [] => [[c]]
           end
  end.

(** [pieces.join(sep)] *)
Fixpoint join (sep : jsstring) (pieces : list jsstring) : jsstring :=
  match pieces with
  | [] => []
  | [x] => x
  | x :: rest => x ++ sep ++ join sep rest
  end.

(** [names.includes(x)] on an array of strings *)
Definition includes (l : list jsstring) (x : jsstring) : bool :=
  existsb (str_eqb x) l.

(** Line terminators, which [.] does not match: LF, CR, U+2028, U+2029. *)
Definition isLineTerminator (c : N) : bool :=
  N.eqb c 10 || N.eqb c 13 || N.eqb c 8232 || N.eqb c 8233.

(** ** Regular expressions *)

Module Regex.

Inductive cclass :=
| Dot                 (* .      *)
| NotChar (c : N).    (* [^c]   *)

Definition cmatch (cc : cclass) (c : N) : bool :=
  match cc with
  | Dot => negb (isLineTerminator c)
  | NotChar x => negb (N.eqb c x)
  end.

Inductive regex :=
| Lit (s : jsstring)                (* a run of literal characters *)
| Star (cc : cclass)                (* cc*  greedy *)
| Plus (cc : cclass)                (* cc+  greedy *)
| Seq (r1 r2 : regex)
| Alt (r1 r2 : regex)               (* r1|r2 *)
| Opt (r : regex)                   (* (?:r)?  greedy *)
| Group (name : string) (r : regex) (* (?<name>r) *)
| Bol                               (* ^ *)
| Eol.                              (* $ *)

Definition captures := list (string * jsstring).

Fixpoint getGroup (name : string) (caps : captures) : option jsstring :=
  match caps with
  | [] => None
  | (n, v) :: rest => if String.eqb n name then Some v else getGroup name rest
  end.

(** A successful match: where it ends and what the groups captured. *)
Definition result := (nat * captures)%type.
Definition cont := nat -> jsstring -> captures -> option result.

Fixpoint stripPrefix (p s : jsstring) {struct p} : option jsstring :=
  match p with
  | [] => Some s
  | c :: p' =>
      match s with
      | [] => None
      | d :: s' => if N.eqb c d then stripPrefix p' s' else None
      end
  end.

(** Greedy repetition of a character class: take as many characters as
    the class allows, then give them back one at a time until the rest
    of the pattern succeeds. *)
Fixpoint star (cc : cclass) (pos : nat) (s : jsstring) (caps : captures)
         (k : cont) : option result :=
  match s with
  | [] => k pos [] caps
  | c :: s' =>
      if cmatch cc c then
        match star cc (S pos) s' caps k with
        | Some r => Some r
        | None => k pos s caps
        end
      else k pos s caps
  end.

(** [run r pos s caps k]: match [r] at index [pos], where [s] is the
    input from [pos] on, then continue with [k]. *)
Fixpoint run (r : regex) (pos : nat) (s : jsstring) (caps : captures)
         (k : cont) : option result :=
  match r with
  | Lit p =>
      match stripPrefix p s with
      | Some s' => k (pos + length p) s' caps
      | None => None
      end
  | Star cc => star cc pos s caps k
  | Plus cc =>
      match s with
      | c :: s' => if cmatch cc c then star cc (S pos) s' caps k else None
      | [] => None
      end
  | Seq r1 r2 => run r1 pos s caps (fun pos' s' caps' => run r2 pos' s' caps' k)
  | Alt r1 r2 =>
      match run r1 pos s caps k with
      | Some x => Some x
      | None => run r2 pos s caps k
      end
  | Opt r1 =>
      match run r1 pos s caps
                (fun pos' s' caps' =>
                   if Nat.eqb pos' pos then None else k pos' s' caps') with
      | Some x => Some x
      | None => k pos s caps
      end
  | Group name r1 =>
      run r1 pos s caps
          (fun pos' s' caps' =>
             k pos' s' ((name, firstn (pos' - pos) s) :: caps'))
  | Bol => if Nat.eqb pos 0 then k pos s caps else None
  | Eol => match s with [] => k pos [] caps | _ :: _ => None end
  end.

Record rmatch := mkMatch {
  index : nat;            (* where the match starts *)
  final : nat;            (* where it ends *)
  groups : captures
}.

(** Try every start index from the left. *)
Fixpoint search (r : regex) (pos : nat) (s : jsstring) : option rmatch :=
  match run r pos s [] (fun pos' _ caps => Some (pos', caps)) with
  | Some (e, caps) => Some (mkMatch pos e caps)
  | None =>
      match s with
      | [] => None
      | _ :: s' => search r (S pos) s'
      end
  end.

(** [r.exec(s)] for a regex without flags *)
Definition exec (r : regex) (s : jsstring) : option rmatch := search r 0 s.

(** [s.replace(r, by)] for a regex without the [g] flag *)
Definition replace (r : regex) (s by_ : jsstring) : jsstring :=
  match exec r s with
  | Some m => firstn (index m) s ++ by_ ++ skipn (final m) s
  | None => s
  end.

End Regex.

(** ** [encodeURIComponent] and [decodeURIComponent]

    The built-ins as ECMAScript defines them (Encode and Decode with the
    component sets): code points outside the unescaped set are written as
    the percent-escaped octets of their UTF-8 encoding; decoding reverses
    this and throws [URIError] on a truncated or non-hexadecimal escape
    and on octets that are not valid UTF-8. *)

Module URI.
Local Open Scope N_scope.

Definition isAlpha (c : N) : bool :=
  (65 <=? c) && (c <=? 90) || (97 <=? c) && (c <=? 122).
Definition isDigit (c : N) : bool := (48 <=? c) && (c <=? 57).
(** uriMark: [- _ . ! ~ * ' ( )] *)
Definition isMark (c : N) : bool :=
  existsb (N.eqb c) [45; 95; 46; 33; 126; 42; 39; 40; 41].
Definition unescaped (c : N) : bool := isAlpha c || isDigit c || isMark c.

Definition isHighSurrogate (c : N) : bool := (0xD800 <=? c) && (c <=? 0xDBFF).
Definition isLowSurrogate (c : N) : bool := (0xDC00 <=? c) && (c <=? 0xDFFF).

Definition hexDigit (d : N) : N := if d <? 10 then 48 + d else 55 + d.

Definition escapeOctet (b : N) : jsstring :=
  [37; hexDigit (b / 16); hexDigit (b mod 16)].

Definition utf8 (cp : N) : list N :=
  if cp <? 0x80 then [cp]
  else if cp <? 0x800 then [0xC0 + cp / 64; 0x80 + cp mod 64]
  else if cp <? 0x10000 then
    [0xE0 + cp / 4096; 0x80 + (cp / 64) mod 64; 0x80 + cp mod 64]
  else
    [0xF0 + cp / 262144; 0x80 + (cp / 4096) mod 64;
     0x80 + (cp / 64) mod 64; 0x80 + cp mod 64].

Definition escapeCodePoint (cp : N) : jsstring :=
  flat_map escapeOctet (utf8 cp).

Definition pairCodePoint (hi lo : N) : N :=
  (hi - 0xD800) * 0x400 + (lo - 0xDC00) + 0x10000.

Fixpoint encodeURIComponent (s : jsstring) : outcome jsstring :=
  match s with
  | [] => Return []
  | c :: rest =>
      if unescaped c then
        do r <- encodeURIComponent rest ;; Return (c :: r)
      else if isHighSurrogate c then
        match rest with
        | d :: rest' =>
            if isLowSurrogate d then
              do r <- encodeURIComponent rest' ;;
              Return (escapeCodePoint (pairCodePoint c d) ++ r)
            else Throw URIError
        | [] => Throw URIError
        end
      else if isLowSurrogate c then Throw URIError
      else
        do r <- encodeURIComponent rest ;; Return (escapeCodePoint c ++ r)
  end.

Definition hexValue (c : N) : option N :=
  if isDigit c then Some (c - 48)
  else if (65 <=? c) && (c <=? 70) then Some (c - 55)
  else if (97 <=? c) && (c <=? 102) then Some (c - 87)
  else None.

(** One escape [%XY] at the head of [s]: its octet and what follows. *)
Definition parseEscape (s : jsstring) : option (N * jsstring) :=
  match s with
  | p :: h :: l :: rest =>
      if p =? 37 then
        match hexValue h, hexValue l with
        | Some a, Some b => Some (16 * a + b, rest)
        | _, _ => None
        end
      else None
  | _ => None
  end.

(** [n] further escapes: the continuation octets of a multi-byte sequence. *)
Fixpoint parseEscapes (n : nat) (s : jsstring) : option (list N * jsstring) :=
  match n with
  | O => Some ([], s)
  | S n' =>
      match parseEscape s with
      | Some (b, rest) =>
          match parseEscapes n' rest with
          | Some (bs, rest') => Some (b :: bs, rest')
          | None => None
          end
      | None => None
      end
  end.

Definition isContinuation (b : N) : bool := (0x80 <=? b) && (b <=? 0xBF).

(** The code point of a multi-byte UTF-8 sequence, when it is valid: right
    continuation octets, shortest form, no surrogate, at most U+10FFFF. *)
Definition utf8CodePoint (octets : list N) : option N :=
  match octets with
  | [b1; b2] =>
      let cp := (b1 - 0xC0) * 64 + (b2 - 0x80) in
      if isContinuation b2 && (0x80 <=? cp) then Some cp else None
  | [b1; b2; b3] =>
      let cp := (b1 - 0xE0) * 4096 + (b2 - 0x80) * 64 + (b3 - 0x80) in
      if isContinuation b2 && isContinuation b3 && (0x800 <=? cp)
         && negb ((0xD800 <=? cp) && (cp <=? 0xDFFF))
      then Some cp else None
  | [b1; b2; b3; b4] =>
      let cp := (b1 - 0xF0) * 262144 + (b2 - 0x80) * 4096
                + (b3 - 0x80) * 64 + (b4 - 0x80) in
      if isContinuation b2 && isContinuation b3 && isContinuation b4
         && (0x10000 <=? cp) && (cp <=? 0x10FFFF)
      then Some cp else None
  | _ => None
  end.

Definition utf16 (cp : N) : jsstring :=
  if cp <? 0x10000 then [cp]
  else [0xD800 + (cp - 0x10000) / 0x400; 0xDC00 + (cp - 0x10000) mod 0x400].

(** The number of leading one bits of an octet that has at least one:
    2, 3 or 4 start a sequence of that many octets; 1 and more than 4 are
    malformed. *)
Definition sequenceLength (b : N) : option nat :=
  if b <? 0xC0 then None
  else if b <? 0xE0 then Some 2%nat
  else if b <? 0xF0 then Some 3%nat
  else if b <? 0xF8 then Some 4%nat
  else None.

(** The escape sequence at the head of [s] (which starts with [%]): the
    code units it stands for and how many code units of [s] it takes. *)
Definition decodeEscape (s : jsstring) : option (jsstring * nat) :=
  match parseEscape s with
  | None => None
  | Some (b, rest) =>
      if b <? 0x80 then Some ([b], 3%nat)
      else
        match sequenceLength b with
        | None => None
        | Some n =>
            match parseEscapes (n - 1) rest with
            | None => None
            | Some (bs, _) =>
                match utf8CodePoint (b :: bs) with
                | Some cp => Some (utf16 cp, (3 * n)%nat)
                | None => None
                end
            end
        end
  end.

(** The decoding loop; [skip] counts the code units that the escape just
    decoded still covers. *)
Fixpoint decodeFrom (skip : nat) (s : jsstring) : outcome jsstring :=
  match s with
  | [] => Return []
  | c :: rest =>
      match skip with
      | S n => decodeFrom n rest
      | O =>
          if c =? 37 then
            match decodeEscape s with
            | Some (units, used) =>
                do r <- decodeFrom (used - 1) rest ;; Return (units ++ r)
            | None => Throw URIError
            end
          else do r <- decodeFrom 0 rest ;; Return (c :: r)
      end
  end.

Definition decodeURIComponent (s : jsstring) : outcome jsstring :=
  decodeFrom 0 s.

End URI.

(** ** Node's [path] module, POSIX flavour *)

Module Path.

Definition slash : N := 47%N.
Definition sep : jsstring := [slash].
Definition dot : jsstring := [46%N].
Definition dotdot : jsstring := [46%N; 46%N].

Definition isAbsolute (p : jsstring) : bool :=
  match p with
  | c :: _ => N.eqb c slash
  | [] => false
  end.

(** One segment of [normalizeString]; [stack] holds the segments kept so
    far, the last one first. *)
Definition normalizeStep (allowAboveRoot : bool) (stack : list jsstring)
           (seg : jsstring) : list jsstring :=
  if isEmpty seg || str_eqb seg dot then stack
  else if str_eqb seg dotdot then
    match stack with
    | top :: below =>
        if str_eqb top dotdot then
          (if allowAboveRoot then seg :: stack else stack)
        else below
    | [] => if allowAboveRoot then [seg] else []
    end
  else seg :: stack.

(** [normalizeString(path, allowAboveRoot, '/', isPosixPathSeparator)] *)
Definition normalizeString (allowAboveRoot : bool) (p : jsstring) : jsstring :=
  join sep (rev (fold_left (normalizeStep allowAboveRoot) (split slash p) [])).

Definition hasTrailingSlash (p : jsstring) : bool :=
  match rev p with
  | c :: _ => N.eqb c slash
  | [] => false
  end.

(** [path.posix.normalize(p)] *)
Definition normalize (p : jsstring) : jsstring :=
  if isEmpty p then dot
  else
    let abs := isAbsolute p in
    let n := normalizeString (negb abs) p in
    if isEmpty n then
      (if abs then sep else if hasTrailingSlash p then dot ++ sep else dot)
    else
      let n' := if hasTrailingSlash p then n ++ sep else n in
      if abs then sep ++ n' else n'.

(** The loop of [path.resolve]: arguments from the right, then the working
    directory, until an absolute one has been prepended. *)
Fixpoint resolveLoop (rargs : list jsstring) (resolvedPath : jsstring)
  : jsstring * bool :=
  match rargs with
  | [] => (resolvedPath, false)
  | p :: more =>
      if isEmpty p then resolveLoop more resolvedPath
      else
        let resolvedPath' := p ++ sep ++ resolvedPath in
        if isAbsolute p then (resolvedPath', true)
        else resolveLoop more resolvedPath'
  end.

(** [path.posix.resolve(...args)] with [process.cwd() = cwd] *)
Definition resolve (cwd : jsstring) (args : list jsstring) : jsstring :=
  let (resolvedPath, resolvedAbsolute) := resolveLoop (rev args ++ [cwd]) [] in
  let n := normalizeString (negb resolvedAbsolute) resolvedPath in
  if resolvedAbsolute then sep ++ n
  else if isEmpty n then dot else n.

(** The backward scan shared by [dirname]: [l] holds the code units at
    indices [length l], ..., [1], the last one first; the result is the
    index of the slash that ends the directory part. *)
Fixpoint dirnameEnd (l : jsstring) (matchedSlash : bool) : option nat :=
  match l with
  | [] => None
  | c :: l' =>
      if N.eqb c slash then
        (if matchedSlash then dirnameEnd l' true else Some (S (length l')))
      else dirnameEnd l' false
  end.

(** [path.posix.dirname(p)] *)
Definition dirname (p : jsstring) : jsstring :=
  match p with
  | [] => dot
  | _ :: p' =>
      let hasRoot := isAbsolute p in
      match dirnameEnd (rev p') true with
      | None => if hasRoot then sep else dot
      | Some e =>
          if hasRoot && Nat.eqb e 1 then sep ++ sep else firstn e p
      end
  end.

(** [path.posix.basename(p)]: the last segment, trailing slashes aside. *)
Fixpoint dropSlashes (l : jsstring) : jsstring :=
  match l with
  | c :: l' => if N.eqb c slash then dropSlashes l' else l
  | [] => []
  end.

Fixpoint takeSegment (l : jsstring) : jsstring :=
  match l with
  | c :: l' => if N.eqb c slash then [] else c :: takeSegment l'
  | [] => []
  end.

Definition basename (p : jsstring) : jsstring :=
  rev (takeSegment (dropSlashes (rev p))).

(** [path.posix.join(...args)]; the [join] in its body is the array
    method above. *)
Definition join (args : list jsstring) : jsstring :=
  let joined := join sep (filter (fun a => negb (isEmpty a)) args) in
  if isEmpty joined then dot else normalize joined.

End Path.

(** ** [Array.prototype.sort] with a comparator

    ECMAScript (2019 on) requires the sort to be stable; with a consistent
    comparator the result is the one of this insertion sort: an element
    goes before the first later element that the comparator does not put
    before it. *)

Section Sort.
Variable A : Type.
Variable cmp : A -> A -> Z.

Fixpoint insert (x : A) (l : list A) : list A :=
  match l with
  | [] => [x]
  | y :: l' => if (cmp x y <=? 0)%Z then x :: y :: l' else y :: insert x l'
  end.

Fixpoint sort (l : list A) : list A :=
  match l with
  | [] => []
  | x :: l' => insert x (sort l')
  end.
End Sort.

(** ** Packages and the resolver (read, never built, by this file) *)

Set Warnings "-register-all".

(** ['implicit-modules' | 'implicit-test-modules'] *)
Inductive ImplicitType := ImplicitModules | ImplicitTestModules.

Definition typeName (t : ImplicitType) : jsstring :=
  match t with
  | ImplicitModules => lit "implicit-modules"
  | ImplicitTestModules => lit "implicit-test-modules"
  end.

(** The metadata of a v2 addon; an object is the list of its entries in
    [Object.entries] order. *)
Record AddonMeta := {
  implicit_modules : option (list jsstring);
  implicit_test_modules : option (list jsstring);
  renamed_modules : option (list (jsstring * jsstring));
  renamed_packages : option (list (jsstring * jsstring));
  order_index : option Z
}.

Inductive DependencyCategory :=
| Dependencies | DevDependencies | PeerDependencies.

(** [meta] is only read on a package for which [isV2Addon()] holds, whose
    type then is [V2AddonPackage]: [addonMeta] is that metadata, and is
    absent exactly when [isV2Addon()] is false. *)
Inductive Package := mkPackage {
  name : jsstring;
  isV2Ember : bool;
  addonMeta : option AddonMeta;
  isEngine : bool;
  dependencies : list Package;
  categorizeDependency : jsstring -> option DependencyCategory
}.

Definition isV2Addon (p : Package) : bool :=
  match addonMeta p with Some _ => true | None => false end.

Record Resolver := {
  resolvableExtensions : list jsstring;       (* resolver.options *)
  ownerOfFile : jsstring -> option Package    (* resolver.packageCache *)
}.

(** ** Decoded parameters *)

Record PairedComponent := {
  relativeHBSModule : jsstring;
  relativeJSModule : option jsstring;
  debugName : jsstring
}.

Record FastbootSwitch := {
  names : list jsstring;
  hasDefaultExport : bool;
  filename : jsstring
}.

Record ImplicitModulesRequest := {
  type : ImplicitType;
  fromFile : jsstring
}.

Record LazyModule := {
  runtime : jsstring;
  buildtime : jsstring
}.

(** ** Collaborators outside [virtual-content.ts]

    [explicitRelative] and [extensionsPattern] come from the package's
    index, the four templates from [compile] of [./js-handlebars];
    [stripExtensions exts s] stands for
    [s.replace(extensionsPattern(exts), '')]. *)
Record Collaborators := {
  explicitRelative : jsstring -> jsstring -> jsstring;
  stripExtensions : list jsstring -> jsstring -> jsstring;
  externalShim : jsstring -> jsstring;
  pairedComponentShim : PairedComponent -> jsstring;
  fastbootSwitchTemplate : FastbootSwitch -> jsstring;
  implicitModulesTemplate : list LazyModule -> list jsstring -> jsstring
}.

(** ** The filename codec *)

Definition externalPrefix : jsstring := lit "/@embroider/external/".

Definition virtualExternalModule (specifier : jsstring) : jsstring :=
  externalPrefix ++ specifier.

Definition pairComponentMarker : jsstring := lit "/embroider-pair-component".

(** The regex literal of the source, token by token:
    [^ (?<hbsModule> .* ) \/ (?<jsModule> [^\/]* ) \/embroider-pair-component $] *)
Definition pairComponentPattern : Regex.regex :=
  Regex.Seq Regex.Bol
   (Regex.Seq (Regex.Group "hbsModule" (Regex.Star Regex.Dot))
     (Regex.Seq (Regex.Lit (lit "/"))
       (Regex.Seq (Regex.Group "jsModule" (Regex.Star (Regex.NotChar 47)))
         (Regex.Seq (Regex.Lit (lit "/embroider-pair-component"))
                    Regex.Eol)))).

(** The regex literal of the source, token by token: [\. ( js | hbs ) $] *)
Definition scriptExtensionPattern : Regex.regex :=
  Regex.Seq (Regex.Lit (lit "."))
   (Regex.Seq (Regex.Group "1" (Regex.Alt (Regex.Lit (lit "js"))
                                          (Regex.Lit (lit "hbs"))))
              Regex.Eol).

Definition fastbootSwitchSuffix : jsstring := lit "/embroider_fastboot_switch".

(** The regex literal of the source, token by token:
    [(?<original> .+ ) \/embroider_fastboot_switch (?: \?names= (?<names> .+ ) )? $] *)
Definition fastbootSwitchPattern : Regex.regex :=
  Regex.Seq (Regex.Group "original" (Regex.Plus Regex.Dot))
   (Regex.Seq (Regex.Lit (lit "/embroider_fastboot_switch"))
     (Regex.Seq
        (Regex.Opt (Regex.Seq (Regex.Lit (lit "?names="))
                              (Regex.Group "names" (Regex.Plus Regex.Dot))))
        Regex.Eol)).

(** A group that takes part in every match of its pattern. *)
Definition group (n : string) (m : Regex.rmatch) : jsstring :=
  match Regex.getGroup n (Regex.groups m) with
  | Some v => v
  | None => []
  end.

Definition implicitModulesSuffix : jsstring := lit "/#embroider-implicit-modules".
Definition implicitTestModulesSuffix : jsstring :=
  lit "/#embroider-implicit-test-modules".

Definition decodeFastbootSwitch (filename : jsstring) : option FastbootSwitch :=
  match Regex.exec fastbootSwitchPattern filename with
  | Some m =>
      let names :=
        match Regex.getGroup "names" (Regex.groups m) with
        | Some n => split 44 n
        | None => []
        end in
      Some {| names := filter (fun n => negb (str_eqb n (lit "default"))) names;
              hasDefaultExport := includes names (lit "default");
              filename := group "original" m |}
  | None => None
  end.

Definition decodeImplicitModules (filename : jsstring)
  : option ImplicitModulesRequest :=
  if endsWith filename implicitModulesSuffix then
    Some {| type := ImplicitModules;
            fromFile := sliceDropEnd (length implicitModulesSuffix) filename |}
  else if endsWith filename implicitTestModulesSuffix then
    Some {| type := ImplicitTestModules;
            fromFile := sliceDropEnd (length implicitTestModulesSuffix) filename |}
  else None.

(** [names] is a [Set<string>]: its elements in insertion order. *)
Definition fastbootSwitch (cwd specifier fromFile : jsstring)
           (names : list jsstring) : jsstring :=
  let filename :=
    Path.resolve cwd [Path.dirname fromFile; specifier] ++ fastbootSwitchSuffix in
  if Nat.ltb 0 (length names) then
    filename ++ lit "?names=" ++ join (lit ",") names
  else filename.

Definition orderIndex (dep : Package) : Z :=
  match addonMeta dep with
  | Some meta =>
      match order_index meta with
      | Some i => i
      | None => 0%Z
      end
  | None => 0%Z
  end.

Definition orderAddons (depA depB : Package) : Z :=
  let depAIdx := orderIndex depA in
  let depBIdx := orderIndex depB in
  (depAIdx - depBIdx)%Z.

(** ** A plain object used as a map

    [inverted = {}] is filled by assignments [inverted[k] = v] of strings
    and read by [inverted[k]].  Its own properties are kept as a list, the
    latest assignment first.  Its prototype is [Object.prototype]: a read
    of a key that is no own property finds the property of that name there,
    a function, or the prototype itself for [__proto__]; an assignment to
    [__proto__] runs the setter of [Object.prototype], which ignores a
    string. *)

(** What a read can give: a string, a function or an object, or
    [undefined]. *)
Inductive value :=
| Str (s : jsstring)
| Obj
| Undefined.

(** [if (v)] *)
Definition truthy (v : value) : bool :=
  match v with
  | Str s => negb (isEmpty s)
  | Obj => true
  | Undefined => false
  end.

(** The names of the properties of the standard [Object.prototype]. *)
Definition objectPrototypeKeys : list jsstring :=
  [lit "constructor"; lit "__defineGetter__"; lit "__defineSetter__";
   lit "hasOwnProperty"; lit "__lookupGetter__"; lit "__lookupSetter__";
   lit "isPrototypeOf"; lit "propertyIsEnumerable"; lit "toString";
   lit "valueOf"; lit "__proto__"; lit "toLocaleString"].

Fixpoint getOwnProperty (o : list (jsstring * jsstring)) (k : jsstring)
  : option jsstring :=
  match o with
  | [] => None
  | (k', v) :: o' => if str_eqb k' k then Some v else getOwnProperty o' k
  end.

(** [o[k]] *)
Definition getProperty (o : list (jsstring * jsstring)) (k : jsstring)
  : value :=
  match getOwnProperty o k with
  | Some v => Str v
  | None => if includes objectPrototypeKeys k then Obj else Undefined
  end.

(** [o[k] = v] for a string [v] *)
Definition setProperty (o : list (jsstring * jsstring)) (k v : jsstring)
  : list (jsstring * jsstring) :=
  if str_eqb k (lit "__proto__") then o else (k, v) :: o.

(** [v.split(sep).join('/')]: a string has the method [split]; a function
    and [Object.prototype] have no property [split], and calling
    [undefined] throws a [TypeError]. *)
Definition splitJoin (v : value) : outcome jsstring :=
  match v with
  | Str s => Return (join (lit "/") (split 47 s))
  | Obj | Undefined => Throw TypeError
  end.

Section WithCollaborators.
Variable env : Collaborators.

Definition virtualPairComponent (hbsModule : jsstring)
           (jsModule : option jsstring) : outcome jsstring :=
  let relativeJSModule :=
    match jsModule with
    | Some j =>
        if isEmpty j then []
        else explicitRelative env (hbsModule ++ lit "/j/") j
    | None => []
    end in
  do e <- URI.encodeURIComponent relativeJSModule ;;
  Return (hbsModule ++ lit "/" ++ e ++ pairComponentMarker).

Definition decodeVirtualPairComponent (filename : jsstring)
  : outcome (option PairedComponent) :=
  match Regex.exec pairComponentPattern filename with
  | None => Return None
  | Some m =>
      let hbsModule := group "hbsModule" m in
      let jsModule := group "jsModule" m in
      let relativeHBSModule :=
        explicitRelative env (Path.dirname filename) hbsModule in
      do decoded <- URI.decodeURIComponent jsModule ;;
      Return (Some
        {| relativeHBSModule := relativeHBSModule;
           relativeJSModule := if isEmpty decoded then None else Some decoded;
           debugName :=
             Regex.replace scriptExtensionPattern
                           (Path.basename relativeHBSModule) [] |})
  end.

Definition inverseRenamedModules (meta : AddonMeta) (extensions : list jsstring)
  : option (list (jsstring * jsstring)) :=
  match renamed_modules meta with
  | Some renamed =>
      Some (fold_left
              (fun inverted entry =>
                 setProperty inverted
                             (stripExtensions env extensions (snd entry))
                             (stripExtensions env extensions (fst entry)))
              renamed [])
  | None => None
  end.

Definition implicitModulesOf (meta : AddonMeta) (t : ImplicitType)
  : option (list jsstring) :=
  match t with
  | ImplicitModules => implicit_modules meta
  | ImplicitTestModules => implicit_test_modules meta
  end.

(** The package name of lines 199 to 208: the key of the last entry of
    [renamed-packages] whose value is the name of the dependency. *)
Definition packageNameOf (dep : Package) (meta : AddonMeta) : jsstring :=
  match renamed_packages meta with
  | Some renamedMeta =>
      fold_left (fun packageName entry =>
                   if str_eqb (snd entry) (name dep) then fst entry
                   else packageName)
                renamedMeta (name dep)
  | None => name dep
  end.

(** One round of [for (let name of implicitModules)] *)
Definition pushLazyModule (extensions : list jsstring) (dep : Package)
           (meta : AddonMeta)
           (renamedModules : option (list (jsstring * jsstring)))
           (lazyModules : list LazyModule) (moduleName : jsstring)
  : outcome (list LazyModule) :=
  let packageName := packageNameOf dep meta in
  let runtime :=
    stripExtensions env extensions (Path.join [packageName; moduleName]) in
  let runtimeRenameLookup := join (lit "/") (split 92 runtime) in
  let runtime :=
    match renamedModules with
    | Some inverted =>
        if truthy (getProperty inverted runtimeRenameLookup)
        then getProperty inverted runtimeRenameLookup
        else Str runtime
    | None => Str runtime
    end in
  do runtime <- splitJoin runtime ;;
  Return (lazyModules ++
            [{| runtime := runtime;
                buildtime := Path.join [packageName; moduleName] |}]).

(** One round of [for (let dep of deps)] *)
Definition visitDependency (t : ImplicitType) (extensions : list jsstring)
           (pkg : Package)
           (acc : list LazyModule * list jsstring) (dep : Package)
  : outcome (list LazyModule * list jsstring) :=
  let (lazyModules, eagerModules) := acc in
  match addonMeta dep with
  | None => Return acc
  | Some meta =>
      match categorizeDependency pkg (name dep) with
      | Some PeerDependencies => Return acc
      | _ =>
          do lazyModules <-
            match implicitModulesOf meta t with
            | Some implicitModules =>
                let renamedModules := inverseRenamedModules meta extensions in
                forOf (pushLazyModule extensions dep meta renamedModules)
                      implicitModules lazyModules
            | None => Return lazyModules
            end ;;
          let eagerModules :=
            if isEngine dep then eagerModules
            else eagerModules ++
                   [Path.join [name dep; lit "#embroider-" ++ typeName t]] in
          Return (lazyModules, eagerModules)
      end
  end.

(** The two manifests that [renderImplicitModules] hands to its template. *)
Definition implicitModulesManifest (t : ImplicitType) (resolver : Resolver)
           (pkg : Package) : outcome (list LazyModule * list jsstring) :=
  let deps := sort orderAddons (dependencies pkg) in
  forOf (visitDependency t (resolvableExtensions resolver) pkg) deps ([], []).

Definition renderImplicitModules (im : ImplicitModulesRequest)
           (resolver : Resolver) : outcome jsstring :=
  let bug :=
    JSError (lit "bug: saw special implicit modules import in non-ember package at "
             ++ fromFile im) in
  match ownerOfFile resolver (fromFile im) with
  | None => Throw bug
  | Some pkg =>
      if isV2Ember pkg then
        do manifest <- implicitModulesManifest (type im) resolver pkg ;;
        let (lazyModules, eagerModules) := manifest in
        Return (implicitModulesTemplate env lazyModules eagerModules)
      else Throw bug
  end.

Definition virtualContent (filename : jsstring) (resolver : Resolver)
  : outcome jsstring :=
  if startsWith filename externalPrefix then
    Return (externalShim env (sliceFrom (length externalPrefix) filename))
  else
    do match_ <- decodeVirtualPairComponent filename ;;
    match match_ with
    | Some m => Return (pairedComponentShim env m)
    | None =>
        match decodeFastbootSwitch filename with
        | Some fb => Return (fastbootSwitchTemplate env fb)
        | None =>
            match decodeImplicitModules filename with
            | Some im => renderImplicitModules im resolver
            | None =>
                Throw (JSError (lit "not an @embroider/core virtual file: "
                                ++ filename))
            end
        end
    end.

End WithCollaborators.

(** ** A concrete set of collaborators, for closed examples *)

Fixpoint dropCommon (a b : list jsstring) : list jsstring * list jsstring :=
  match a, b with
  | x :: a', y :: b' => if str_eqb x y then dropCommon a' b' else (a, b)
  | _, _ => (a, b)
  end.

(** Modelled from the spec: the Path Relativizer of section 2, which is not
    part of [virtual-content.ts] ("returns an explicit relative path string,
    always prefixed so it is unambiguously relative, e.g. starts with ./ or
    ../").  This one climbs out of what is left of [fromDir] after the
    leading segments it shares with the directory of [toFile], descends
    into what is left of that directory and ends with the base name of
    [toFile]. *)
Definition specExplicitRelative (fromDir toFile : jsstring) : jsstring :=
  let segments p := filter (fun g => negb (isEmpty g)) (split Path.slash p) in
  let target := segments toFile in
  let (up, down) := dropCommon (segments fromDir) (removelast target) in
  let steps :=
    join Path.sep (List.map (fun _ => Path.dotdot) up ++ down
                   ++ [last target []]) in
  match up with
  | [] => lit "./" ++ steps
  | _ :: _ => steps
  end.

(** Modelled from the spec: the text-templating mechanism of section 1, "an
    opaque pure function render(templateId, structuredParams) ->
    sourceText"; the compiled templates are not part of
    [virtual-content.ts].  Each template here prints its identifier and the
    parameters it was given. *)
Definition specCollaborators : Collaborators :=
  {| explicitRelative := specExplicitRelative;
     stripExtensions := fun _ s => Regex.replace scriptExtensionPattern s [];
     externalShim := fun moduleName => lit "externalShim " ++ moduleName;
     pairedComponentShim := fun p =>
       lit "pairedComponentShim " ++ relativeHBSModule p ++ lit " "
       ++ match relativeJSModule p with Some j => j | None => lit "null" end
       ++ lit " " ++ debugName p;
     fastbootSwitchTemplate := fun fb =>
       lit "fastbootSwitchTemplate " ++ join (lit ",") (names fb)
       ++ (if hasDefaultExport fb then lit " default" else []);
     implicitModulesTemplate := fun lazyModules eagerModules =>
       lit "implicitModulesTemplate "
       ++ join (lit ",") (List.map (fun m => runtime m ++ lit "=" ++ buildtime m)
                                   lazyModules)
       ++ lit " " ++ join (lit ",") eagerModules |}.

(** ** Vocabulary of the statements *)

(** *** The two errors that [virtual-content.ts] throws itself *)

Definition implicitModulesBug (fromFile : jsstring) : exn :=
  JSError (lit "bug: saw special implicit modules import in non-ember package at "
           ++ fromFile).

Definition notVirtualFile (filename : jsstring) : exn :=
  JSError (lit "not an @embroider/core virtual file: " ++ filename).

Definition ownedByV2Ember (resolver : Resolver) (file : jsstring) : Prop :=
  exists pkg, ownerOfFile resolver file = Some pkg /\ isV2Ember pkg = true.

(** *** Strings *)

Definition noLineTerminator (s : jsstring) : bool :=
  forallb (fun c => negb (isLineTerminator c)) s.

Definition noSlash (s : jsstring) : bool :=
  forallb (fun c => negb (N.eqb c 47)) s.

Definition endsWithLineTerminator (s : jsstring) : bool :=
  isLineTerminator (last s 0%N).

(** The part of a string after its last line terminator. *)
Fixpoint lastLine (s : jsstring) : jsstring :=
  match s with
  | [] => []
  | _ :: s' => if noLineTerminator s then s else lastLine s'
  end.

(** Lists that are JavaScript strings: every code unit fits 16 bits. *)
Definition isString (s : jsstring) : bool :=
  forallb (fun c => N.ltb c 65536) s.

(** [s.isWellFormed()]: code units that fit 16 bits, every surrogate paired. *)
Fixpoint isWellFormed (s : jsstring) : bool :=
  match s with
  | [] => true
  | c :: rest =>
      if URI.isHighSurrogate c then
        match rest with
        | d :: rest' => URI.isLowSurrogate d && isWellFormed rest'
        | [] => false
        end
      else negb (URI.isLowSurrogate c) && N.ltb c 65536 && isWellFormed rest
  end.

(** Unicode scalar values: code points that are not surrogates. *)
Definition scalar (cp : N) : Prop :=
  (cp < 0x110000)%N /\ ~ (0xD800 <= cp /\ cp <= 0xDFFF)%N.

(** *** Filenames and decoders *)

(** The shape that [pairComponentPattern] accepts. *)
Definition pairShaped (filename hbsModule jsModule : jsstring) : Prop :=
  filename = hbsModule ++ lit "/" ++ jsModule ++ pairComponentMarker
  /\ noLineTerminator hbsModule = true
  /\ noSlash jsModule = true.

(** The continuation that ends a match: where it ended, what it captured. *)
Definition k0 : Regex.cont := fun pos' _ caps => Some (pos', caps).

(** Which decoders recognise a filename. *)
Definition matchesExternal (filename : jsstring) : bool :=
  startsWith filename externalPrefix.

Definition matchesPair (filename : jsstring) : bool :=
  match Regex.exec pairComponentPattern filename with
  | Some _ => true
  | None => false
  end.

Definition matchesFastboot (filename : jsstring) : bool :=
  match decodeFastbootSwitch filename with
  | Some _ => true
  | None => false
  end.

Definition matchesImplicit (filename : jsstring) : bool :=
  match decodeImplicitModules filename with
  | Some _ => true
  | None => false
  end.

Definition matchCount (filename : jsstring) : nat :=
  length (filter (fun b : bool => b)
                 [matchesExternal filename; matchesPair filename;
                  matchesFastboot filename; matchesImplicit filename]).

(** The shape that [fastbootSwitchPattern] accepts from the index where a
    match starts: an original path on one line, the suffix, and possibly a
    query on one line. *)
Definition fastbootShaped (s original : jsstring) (query : option jsstring)
  : Prop :=
  original <> [] /\ noLineTerminator original = true
  /\ match query with
     | None => s = original ++ fastbootSwitchSuffix
     | Some q => s = original ++ fastbootSwitchSuffix ++ lit "?names=" ++ q
                 /\ q <> [] /\ noLineTerminator q = true
     end.

(** The names that a query lists. *)
Definition queryNames (query : option jsstring) : list jsstring :=
  match query with
  | Some q => split 44 q
  | None => []
  end.

Definition implicitSuffix (t : ImplicitType) : jsstring :=
  match t with
  | ImplicitModules => implicitModulesSuffix
  | ImplicitTestModules => implicitTestModulesSuffix
  end.

(** An export name that the fastboot-switch filename can carry: free of
    commas, slashes and line terminators. *)
Definition plainName (n : jsstring) : bool :=
  forallb (fun c => negb (N.eqb c 44) && negb (N.eqb c 47)
                    && negb (isLineTerminator c)) n.

(** [s.includes(p)] on strings *)
Fixpoint includesString (s p : jsstring) : bool :=
  startsWith s p
  || match s with
     | [] => false
     | _ :: s' => includesString s' p
     end.

(** An export name that survives the fastboot-switch filename: free of
    commas and line terminators, and the suffix is no part of it. *)
Definition carriableName (n : jsstring) : bool :=
  forallb (fun c => negb (N.eqb c 44) && negb (isLineTerminator c)) n
  && negb (includesString n fastbootSwitchSuffix).

Definition notDefault (n : jsstring) : bool :=
  negb (str_eqb n (lit "default")).

(** *** Paths *)

(** A path segment that [normalizeString] keeps: not empty, not [.] and
    not [..], without a slash. *)
Definition plainSegment (g : jsstring) : bool :=
  negb (isEmpty g) && negb (str_eqb g Path.dot) && negb (str_eqb g Path.dotdot)
  && noSlash g.

(** A relative path that first climbs out of the directory it starts in. *)
Definition climbs (rel : jsstring) : Prop :=
  exists rest, rel = lit "../" ++ rest.

(** *** The aggregator *)

(** What one dependency adds to the two manifests, when its visit
    returns. *)
Definition contribution (env : Collaborators) (t : ImplicitType)
           (extensions : list jsstring) (pkg dep : Package)
  : outcome (list LazyModule * list jsstring) :=
  visitDependency env t extensions pkg ([], []) dep.

(** The contributions of a list of visits put one after the other; the
    first visit that throws ends the walk with what it threw. *)
Fixpoint concatenated (visits : list (outcome (list LazyModule * list jsstring)))
  : outcome (list LazyModule * list jsstring) :=
  match visits with
  | [] => Return ([], [])
  | visit :: rest =>
      do c <- visit ;;
      do more <- concatenated rest ;;
      Return (fst c ++ fst more, snd c ++ snd more)
  end.

(** The key under which the aggregator looks a module up in the inverted
    [renamed-modules]. *)
Definition runtimeRenameLookup (env : Collaborators)
           (extensions : list jsstring) (dep : Package) (meta : AddonMeta)
           (moduleName : jsstring) : jsstring :=
  join (lit "/")
       (split 92 (stripExtensions env extensions
                    (Path.join [packageNameOf dep meta; moduleName]))).

(** The lookup of a module finds a property of [Object.prototype]. *)
Definition lookupInherited (env : Collaborators) (extensions : list jsstring)
           (dep : Package) (meta : AddonMeta) (moduleName : jsstring) : bool :=
  match inverseRenamedModules env meta extensions with
  | Some inverted =>
      match getProperty inverted
              (runtimeRenameLookup env extensions dep meta moduleName) with
      | Obj => true
      | _ => false
      end
  | None => false
  end.

Definition isPeer (pkg dep : Package) : bool :=
  match categorizeDependency pkg (name dep) with
  | Some PeerDependencies => true
  | _ => false
  end.

(** The same package with another list of dependencies. *)
(** A dependency that the aggregator visits, one of whose implicit modules
    of the requested kind has such a lookup. *)
Definition visitThrows (env : Collaborators) (t : ImplicitType)
           (extensions : list jsstring) (pkg dep : Package) : bool :=
  match addonMeta dep with
  | Some meta =>
      negb (isPeer pkg dep)
      && match implicitModulesOf meta t with
         | Some modules => existsb (lookupInherited env extensions dep meta) modules
         | None => false
         end
  | None => false
  end.

Definition withDependencies (p : Package) (deps : list Package) : Package :=
  mkPackage (name p) (isV2Ember p) (addonMeta p) (isEngine p) deps
            (categorizeDependency p).

(** The eager entry for a dependency: its own implicit-modules virtual file
    of the requested kind. *)
Definition eagerEntry (t : ImplicitType) (dep : Package) : jsstring :=
  Path.join [name dep; lit "#embroider-" ++ typeName t].

Definition hasOrderIndex (k : Z) (dep : Package) : bool :=
  (orderIndex dep =? k)%Z.

(** *** Sample packages *)

(** An engine that declares one implicit module, and an owning package
    whose only dependency it is. *)
Definition sampleEngine : Package :=
  mkPackage (lit "my-engine") true
            (Some {| implicit_modules := Some [lit "foo.js"];
                     implicit_test_modules := None;
                     renamed_modules := None;
                     renamed_packages := None;
                     order_index := None |})
            true [] (fun _ => None).

Definition sampleApp : Package :=
  mkPackage (lit "my-app") true None false [sampleEngine]
            (fun _ => Some Dependencies).

Definition sampleResolver : Resolver :=
  {| resolvableExtensions := [lit ".js"; lit ".hbs"];
     ownerOfFile := fun _ => Some sampleApp |}.

(** A v2 addon with a name and an optional order-index; a package that
    lists an addon of order-index 1 before two of order-index 0; a package
    for which every dependency is a peer dependency; a resolver that knows
    no package. *)
Definition sampleAddon (n : jsstring) (idx : option Z) : Package :=
  mkPackage n true
            (Some {| implicit_modules := Some [lit "index.js"];
                     implicit_test_modules := None;
                     renamed_modules := None;
                     renamed_packages := None;
                     order_index := idx |})
            false [] (fun _ => None).

Definition sampleOrderedApp : Package :=
  mkPackage (lit "ordered-app") true None false
            [sampleAddon (lit "late") (Some 1%Z);
             sampleAddon (lit "first") None;
             sampleAddon (lit "second") (Some 0%Z)]
            (fun _ => Some Dependencies).

Definition samplePeerApp : Package :=
  mkPackage (lit "peer-app") true None false [sampleEngine]
            (fun _ => Some PeerDependencies).

Definition emptyResolver : Resolver :=
  {| resolvableExtensions := []; ownerOfFile := fun _ => None |}.

(** *** The encoders and the manifests, further *)

(** The relative js path that [virtualPairComponent] percent-encodes: empty
    for no js module, and for the empty string. *)
Definition relativeJSPath (env : Collaborators) (hbsModule : jsstring)
           (jsModule : option jsstring) : jsstring :=
  match jsModule with
  | Some j =>
      if isEmpty j then []
      else explicitRelative env (hbsModule ++ lit "/j/") j
  | None => []
  end.

(** A relative path that [path.normalize] leaves as it is: plain segments
    with one slash between them. *)
Definition plainPath (p : jsstring) : bool :=
  forallb plainSegment (split Path.slash p).

(** A string with every backslash turned into a slash. *)
Definition slashed (s : jsstring) : jsstring :=
  List.map (fun c => if N.eqb c 92 then 47%N else c) s.

(** No entry of [renamed-packages] has the name of the dependency as its
    value. *)
Definition notRenamed (meta : AddonMeta) (dep : Package) : Prop :=
  forall entries, renamed_packages meta = Some entries ->
                  forall e, In e entries -> snd e <> name dep.

(** The dependencies for which the aggregator writes an eager import. *)
Definition importsEagerly (pkg dep : Package) : bool :=
  isV2Addon dep && negb (isPeer pkg dep) && negb (isEngine dep).

(** Dependencies listed in ascending order-index. *)
Definition orderedByIndex (deps : list Package) : Prop :=
  StronglySorted (fun a b => (orderIndex a <= orderIndex b)%Z) deps.

(** *** Further samples *)

(** The metadata of [sampleEngine]; an addon that was [old-name] before it
    was renamed; metadata with one renamed module; a package that lists
    its addons in ascending order-index, and one whose two addons have
    different order-indexes. *)
Definition sampleMeta : AddonMeta :=
  {| implicit_modules := Some [lit "foo.js"];
     implicit_test_modules := None;
     renamed_modules := None;
     renamed_packages := None;
     order_index := None |}.

Definition sampleRenamedPackageMeta : AddonMeta :=
  {| implicit_modules := Some [lit "index.js"];
     implicit_test_modules := None;
     renamed_modules := None;
     renamed_packages := Some [(lit "old-name", lit "new-name")];
     order_index := None |}.

Definition sampleRenamedPackage : Package :=
  mkPackage (lit "new-name") true (Some sampleRenamedPackageMeta) false []
            (fun _ => None).

Definition sampleRenamedModulesMeta : AddonMeta :=
  {| implicit_modules := Some [lit "index.js"];
     implicit_test_modules := None;
     renamed_modules := Some [(lit "classic/index.js", lit "my-addon/index.js")];
     renamed_packages := None;
     order_index := None |}.

(** An addon whose implicit module [../toString.js] joins to [toString.js],
    and whose [renamed-modules] is an empty object; a package that depends
    on it.  The lookup of [toString] finds [Object.prototype.toString]. *)
Definition sampleInheritedMeta : AddonMeta :=
  {| implicit_modules := Some [lit "../toString.js"];
     implicit_test_modules := None;
     renamed_modules := Some [];
     renamed_packages := None;
     order_index := None |}.

Definition sampleInheritedAddon : Package :=
  mkPackage (lit "dep") true (Some sampleInheritedMeta) false []
            (fun _ => None).

Definition sampleInheritedApp : Package :=
  mkPackage (lit "inherited-app") true None false [sampleInheritedAddon]
            (fun _ => Some Dependencies).

Definition sampleInheritedResolver : Resolver :=
  {| resolvableExtensions := [lit ".js"; lit ".hbs"];
     ownerOfFile := fun _ => Some sampleInheritedApp |}.

Definition sampleSortedApp : Package :=
  mkPackage (lit "sorted-app") true None false
            [sampleAddon (lit "first") None;
             sampleAddon (lit "second") (Some 0%Z);
             sampleAddon (lit "late") (Some 1%Z)]
            (fun _ => Some Dependencies).

Definition sampleDistinctApp : Package :=
  mkPackage (lit "distinct-app") true None false
            [sampleAddon (lit "late") (Some 1%Z);
             sampleAddon (lit "early") None]
            (fun _ => Some Dependencies).

(* ================================================================== *)
(** * Part II: properties *)
(* ================================================================== *)

Unset Implicit Arguments.

(** ** Strings *)

Lemma str_eqb_eq (a b : jsstring) : str_eqb a b = true <-> a = b.
Proof.
  revert b; induction a as [|x a IH]; intros [|y b]; simpl;
    try (split; [discriminate | congruence]); try tauto.
  rewrite andb_true_iff, N.eqb_eq, IH. split.
  - intros [-> ->]; reflexivity.
  - intros H; injection H; auto.
Qed.

Lemma startsWith_spec (s p : jsstring) :
  startsWith s p = true <-> exists r, s = p ++ r.
Proof.
  revert s; induction p as [|c p IH]; intros s; simpl.
  - split; [exists s; reflexivity | reflexivity].
  - destruct s as [|d s].
    + split; [discriminate | intros [r H]; discriminate].
    + rewrite andb_true_iff, N.eqb_eq, IH. split.
      * intros [-> [r ->]]. exists r; reflexivity.
      * intros [r H]. injection H as -> ->. split; [reflexivity | exists r; reflexivity].
Qed.

Lemma startsWith_app (p r : jsstring) : startsWith (p ++ r) p = true.
Proof. apply startsWith_spec. exists r; reflexivity. Qed.

Lemma endsWith_spec (s p : jsstring) :
  endsWith s p = true <-> exists r, s = r ++ p.
Proof.
  unfold endsWith. rewrite startsWith_spec. split.
  - intros [r H]. exists (rev r).
    rewrite <- (rev_involutive s), H, rev_app_distr, rev_involutive. reflexivity.
  - intros [r ->]. exists (rev r). apply rev_app_distr.
Qed.

Lemma firstn_length_app (A : Type) (w x : list A) :
  firstn (length w) (w ++ x) = w.
Proof. induction w; simpl; congruence. Qed.

Lemma sliceFrom_app (p r : jsstring) : sliceFrom (length p) (p ++ r) = r.
Proof. unfold sliceFrom. induction p; simpl; auto. Qed.

Lemma sliceDropEnd_app (r p : jsstring) : sliceDropEnd (length p) (r ++ p) = r.
Proof.
  unfold sliceDropEnd. rewrite length_app.
  replace (length r + length p - length p) with (length r) by lia.
  rewrite firstn_app, firstn_all, Nat.sub_diag. simpl. apply app_nil_r.
Qed.

(** ** The external shim comes first *)

(** C10. For every module name, also one that ends in the marker of another
    kind of virtual file, [virtualContent] applied to
    [virtualExternalModule moduleName] takes the external-shim branch and
    renders the external shim for exactly that module name. *)
Theorem external_shim_roundtrip :
  forall (env : Collaborators) (resolver : Resolver) (moduleName : jsstring),
    virtualContent env (virtualExternalModule moduleName) resolver
    = Return (externalShim env moduleName).
Proof.
  intros env resolver moduleName.
  unfold virtualContent, virtualExternalModule.
  rewrite startsWith_app, sliceFrom_app. reflexivity.
Qed.

(** ** Sorting the dependencies *)

Section SortFacts.
Variable A : Type.
Variable cmp : A -> A -> Z.
Variable key : A -> Z.
Hypothesis cmp_key : forall a b, cmp a b = (key a - key b)%Z.

Lemma insert_perm (x : A) (l : list A) : Permutation (x :: l) (insert cmp x l).
Proof.
  induction l as [|y l IH]; simpl; [reflexivity|].
  destruct (cmp x y <=? 0)%Z; [reflexivity|].
  rewrite perm_swap. constructor. exact IH.
Qed.

Lemma sort_perm (l : list A) : Permutation l (sort cmp l).
Proof.
  induction l as [|x l IH]; simpl; [constructor|].
  rewrite <- insert_perm. constructor. exact IH.
Qed.

Let le (a b : A) : Prop := (key a <= key b)%Z.

Lemma insert_sorted (x : A) (l : list A) :
  StronglySorted le l -> StronglySorted le (insert cmp x l).
Proof.
  induction 1 as [|y l Hs IH Hall]; simpl.
  - repeat constructor.
  - destruct (Z.leb_spec (cmp x y) 0) as [Hle|Hgt]; rewrite cmp_key in *.
    + constructor; [constructor; assumption|].
      constructor; [unfold le; lia|].
      eapply Forall_impl; [|exact Hall]. unfold le; intros; lia.
    + constructor; [exact IH|].
      eapply Permutation_Forall; [apply insert_perm|].
      constructor; [unfold le; lia | exact Hall].
Qed.

Lemma sort_sorted (l : list A) : StronglySorted le (sort cmp l).
Proof.
  induction l; simpl; [constructor | apply insert_sorted; assumption].
Qed.

Let sameKey (k : Z) (a : A) : bool := (key a =? k)%Z.

(** Inserting never crosses an element with the same key. *)
Lemma filter_insert (k : Z) (x : A) (l : list A) :
  filter (sameKey k) (insert cmp x l) = filter (sameKey k) (x :: l).
Proof.
  induction l as [|y l IH]; [reflexivity|].
  simpl insert. destruct (Z.leb_spec (cmp x y) 0) as [Hle|Hgt]; [reflexivity|].
  rewrite cmp_key in Hgt.
  change (filter (sameKey k) (y :: insert cmp x l))
    with (if sameKey k y then y :: filter (sameKey k) (insert cmp x l)
          else filter (sameKey k) (insert cmp x l)).
  rewrite IH. simpl. unfold sameKey.
  destruct (Z.eqb_spec (key y) k), (Z.eqb_spec (key x) k);
    try reflexivity; lia.
Qed.

Lemma filter_sort (k : Z) (l : list A) :
  filter (sameKey k) (sort cmp l) = filter (sameKey k) l.
Proof.
  induction l as [|x l IH]; [reflexivity|].
  simpl sort. rewrite filter_insert. simpl. rewrite IH. reflexivity.
Qed.

Lemma insert_head (x : A) (l : list A) :
  Forall (le x) l -> insert cmp x l = x :: l.
Proof.
  intros H. destruct l as [|y l]; [reflexivity|]. simpl.
  inversion H as [|? ? Hxy _]; subst. unfold le in Hxy.
  destruct (Z.leb_spec (cmp x y) 0) as [_|Hgt]; [reflexivity|].
  rewrite cmp_key in Hgt. lia.
Qed.

Lemma filter_insert_any (P : A -> bool) (x : A) (l : list A) :
  StronglySorted le l ->
  filter P (insert cmp x l)
  = if P x then insert cmp x (filter P l) else filter P l.
Proof.
  induction 1 as [|y l Hs IH Hall]; simpl.
  - destruct (P x); reflexivity.
  - destruct (Z.leb_spec (cmp x y) 0) as [Hle|Hgt]; rewrite cmp_key in *.
    + simpl. destruct (P x) eqn:Px; [|reflexivity].
      symmetry. apply insert_head.
      assert (Hx : Forall (le x) (y :: l)).
      { constructor; [unfold le; lia|].
        eapply Forall_impl; [|exact Hall]. unfold le; intros; lia. }
      rewrite Forall_forall in *. intros z Hz.
      apply Hx. change (In z (filter P (y :: l))) in Hz.
      apply filter_In in Hz. tauto.
    + simpl. rewrite IH. destruct (P y) eqn:Py, (P x) eqn:Px; simpl;
        try reflexivity.
      destruct (Z.leb_spec (cmp x y) 0) as [Hle|_]; [|reflexivity].
      rewrite cmp_key in Hle. lia.
Qed.

Lemma filter_sort_any (P : A -> bool) (l : list A) :
  filter P (sort cmp l) = sort cmp (filter P l).
Proof.
  induction l as [|x l IH]; [reflexivity|].
  simpl sort. rewrite filter_insert_any by apply sort_sorted.
  simpl. rewrite IH. destruct (P x); reflexivity.
Qed.

End SortFacts.

Lemma filter_split (A : Type) (P : A -> bool) (l u v : list A) (a : A) :
  filter P l = u ++ a :: v ->
  exists l1 l2, l = l1 ++ a :: l2 /\ filter P l1 = u /\ filter P l2 = v.
Proof.
  revert u. induction l as [|x l IH]; intros u H; simpl in H.
  - destruct u; discriminate.
  - destruct (P x) eqn:Px.
    + destruct u as [|y u]; simpl in H; injection H as -> H.
      * exists [], l. simpl. auto.
      * destruct (IH _ H) as [l1 [l2 [-> [H1 H2]]]].
        exists (y :: l1), l2. simpl. rewrite Px, H1. auto.
    + destruct (IH _ H) as [l1 [l2 [-> [H1 H2]]]].
      exists (x :: l1), l2. simpl. rewrite Px. auto.
Qed.

Lemma orderAddons_key (a b : Package) :
  orderAddons a b = (orderIndex a - orderIndex b)%Z.
Proof. reflexivity. Qed.

(** C8, as the code has it. The aggregator walks the dependencies of the
    owning package sorted by [orderAddons], that is by order-index, 0 when
    the index is absent or the dependency is not a v2 addon.  For every
    input list the sorted list is a rearrangement of it in ascending
    order-index, and the sort is stable: the dependencies of any one
    order-index come out in the order they came in.  So of two
    dependencies with equal order-index the one that is first in the input
    is first in the output; swapping the two in the input therefore swaps
    them in the output. *)
Theorem dependencies_sorted_stably :
  forall (env : Collaborators) (t : ImplicitType) (resolver : Resolver)
         (pkg : Package),
    implicitModulesManifest env t resolver pkg
    = forOf (visitDependency env t (resolvableExtensions resolver) pkg)
            (sort orderAddons (dependencies pkg)) ([], [])
    /\ (forall a b, orderAddons a b = (orderIndex a - orderIndex b)%Z)
    /\ (forall d, isV2Addon d = false -> orderIndex d = 0%Z)
    /\ (forall d meta, addonMeta d = Some meta -> order_index meta = None ->
                       orderIndex d = 0%Z)
    /\ (forall d meta i, addonMeta d = Some meta -> order_index meta = Some i ->
                         orderIndex d = i)
    /\ (forall deps : list Package,
           Permutation deps (sort orderAddons deps)
           /\ StronglySorted (fun a b => (orderIndex a <= orderIndex b)%Z)
                             (sort orderAddons deps)
           /\ (forall k, filter (hasOrderIndex k) (sort orderAddons deps)
                         = filter (hasOrderIndex k) deps))
    /\ (forall a b l1 l2 l3,
           orderIndex a = orderIndex b ->
           (exists o1 o2 o3,
               sort orderAddons (l1 ++ a :: l2 ++ b :: l3)
               = o1 ++ a :: o2 ++ b :: o3)
           /\ (exists o1 o2 o3,
                  sort orderAddons (l1 ++ b :: l2 ++ a :: l3)
                  = o1 ++ b :: o2 ++ a :: o3)).
Proof.
  intros env t resolver pkg.
  assert (Hstable : forall deps k,
             filter (hasOrderIndex k) (sort orderAddons deps)
             = filter (hasOrderIndex k) deps).
  { intros deps k.
    apply (filter_sort Package orderAddons orderIndex orderAddons_key). }
  assert (Hpair : forall a b l1 l2 l3,
             orderIndex a = orderIndex b ->
             exists o1 o2 o3,
               sort orderAddons (l1 ++ a :: l2 ++ b :: l3)
               = o1 ++ a :: o2 ++ b :: o3).
  { intros a b l1 l2 l3 Hab.
    pose proof (Hstable (l1 ++ a :: l2 ++ b :: l3) (orderIndex a)) as H.
    rewrite filter_app in H. simpl in H.
    rewrite filter_app in H. simpl in H.
    unfold hasOrderIndex at 3 5 in H.
    rewrite <- Hab, Z.eqb_refl in H.
    apply filter_split in H as [o1 [rest [Hs [_ Hrest]]]].
    apply filter_split in Hrest as [o2 [o3 [-> _]]].
    exists o1, o2, o3. exact Hs. }
  split; [reflexivity|]. split; [reflexivity|].
  split; [|split; [|split; [|split]]].
  - unfold orderIndex, isV2Addon. intros d H.
    destruct (addonMeta d); [discriminate | reflexivity].
  - unfold orderIndex. intros d meta -> ->. reflexivity.
  - unfold orderIndex. intros d meta i -> ->. reflexivity.
  - intros deps. split; [apply sort_perm|]. split; [|apply Hstable].
    apply (sort_sorted Package orderAddons orderIndex orderAddons_key).
  - intros a b l1 l2 l3 Hab. split; [apply Hpair; exact Hab|].
    apply Hpair. symmetry. exact Hab.
Qed.

(** C8, against the claim as stated: [first] and [second] both have
    order-index 0.  Listed in this order they come out in this order;
    swapped in the input, they come out swapped, so the swap does change
    their relative order in the output. *)
Lemma dependencies_swapped_counterexample :
  orderIndex (sampleAddon (lit "first") None)
  = orderIndex (sampleAddon (lit "second") (Some 0%Z))
  /\ sort orderAddons [sampleAddon (lit "late") (Some 1%Z);
                       sampleAddon (lit "first") None;
                       sampleAddon (lit "second") (Some 0%Z)]
     = [sampleAddon (lit "first") None;
        sampleAddon (lit "second") (Some 0%Z);
        sampleAddon (lit "late") (Some 1%Z)]
  /\ sort orderAddons [sampleAddon (lit "late") (Some 1%Z);
                       sampleAddon (lit "second") (Some 0%Z);
                       sampleAddon (lit "first") None]
     = [sampleAddon (lit "second") (Some 0%Z);
        sampleAddon (lit "first") None;
        sampleAddon (lit "late") (Some 1%Z)].
Proof. repeat split. Qed.

(** ** What each dependency contributes *)

Lemma existsb_perm (A : Type) (P : A -> bool) (l l' : list A) :
  Permutation l l' -> existsb P l = existsb P l'.
Proof.
  intros Hp. destruct (existsb P l) eqn:H1, (existsb P l') eqn:H2;
    try reflexivity; exfalso.
  - apply existsb_exists in H1 as [x [Hin Hx]].
    assert (H : existsb P l' = true).
    { apply existsb_exists. exists x. split; [|exact Hx].
      exact (Permutation_in x Hp Hin). }
    congruence.
  - apply existsb_exists in H2 as [x [Hin Hx]].
    assert (H : existsb P l = true).
    { apply existsb_exists. exists x. split; [|exact Hx].
      exact (Permutation_in x (Permutation_sym Hp) Hin). }
    congruence.
Qed.

Section Contributions.
Variable env : Collaborators.
Variable t : ImplicitType.
Variable extensions : list jsstring.
Variable pkg : Package.

(** One round of the inner loop throws exactly when the lookup finds a
    property of [Object.prototype]; otherwise it adds one entry. *)
Lemma pushLazyModule_cases dep meta acc moduleName :
  (lookupInherited env extensions dep meta moduleName = true
   /\ pushLazyModule env extensions dep meta
                     (inverseRenamedModules env meta extensions) acc moduleName
      = Throw TypeError)
  \/ (lookupInherited env extensions dep meta moduleName = false
      /\ exists runtime,
           pushLazyModule env extensions dep meta
                          (inverseRenamedModules env meta extensions)
                          acc moduleName
           = Return (acc ++
                       [{| runtime := runtime;
                           buildtime :=
                             Path.join [packageNameOf dep meta; moduleName] |}])).
Proof.
  unfold lookupInherited, pushLazyModule, runtimeRenameLookup.
  destruct (inverseRenamedModules env meta extensions) as [inverted|].
  - destruct (getProperty inverted _) as [v| |].
    + right. split; [reflexivity|].
      destruct (truthy (Str v)); eexists; reflexivity.
    + left. split; reflexivity.
    + right. split; [reflexivity|]. eexists; reflexivity.
  - right. split; [reflexivity|]. eexists; reflexivity.
Qed.

Lemma pushLazyModule_acc dep meta renamed acc moduleName :
  pushLazyModule env extensions dep meta renamed acc moduleName
  = (do l <- pushLazyModule env extensions dep meta renamed [] moduleName ;;
     Return (acc ++ l)).
Proof.
  unfold pushLazyModule. destruct (splitJoin _); reflexivity.
Qed.

Lemma forOf_pushLazyModule_acc dep meta renamed modules : forall acc,
  forOf (pushLazyModule env extensions dep meta renamed) modules acc
  = (do l <- forOf (pushLazyModule env extensions dep meta renamed) modules [] ;;
     Return (acc ++ l)).
Proof.
  induction modules as [|m modules IH]; intros acc; cbn [forOf].
  - unfold bind. rewrite app_nil_r. reflexivity.
  - rewrite (pushLazyModule_acc dep meta renamed acc m).
    destruct (pushLazyModule env extensions dep meta renamed [] m) as [l1|e];
      cbn [bind]; [|reflexivity].
    rewrite (IH (acc ++ l1)), (IH l1).
    destruct (forOf _ modules []) as [l|e]; cbn [bind]; [|reflexivity].
    rewrite app_assoc. reflexivity.
Qed.

(** The inner loop throws exactly when one of the lookups does; otherwise
    it adds one entry for each module, in their order. *)
Lemma forOf_pushLazyModule_cases dep meta modules : forall acc,
  (existsb (lookupInherited env extensions dep meta) modules = true
   /\ forOf (pushLazyModule env extensions dep meta
               (inverseRenamedModules env meta extensions)) modules acc
      = Throw TypeError)
  \/ (existsb (lookupInherited env extensions dep meta) modules = false
      /\ exists entries,
           forOf (pushLazyModule env extensions dep meta
                    (inverseRenamedModules env meta extensions)) modules acc
           = Return (acc ++ entries)
           /\ List.map buildtime entries
              = List.map (fun m => Path.join [packageNameOf dep meta; m])
                         modules).
Proof.
  induction modules as [|m modules IH]; intros acc; cbn [forOf existsb].
  - right. split; [reflexivity|]. exists []. rewrite app_nil_r. auto.
  - destruct (pushLazyModule_cases dep meta acc m) as [[Hl ->]|[Hl [r ->]]];
      rewrite Hl; unfold bind; cbn [orb].
    + left. auto.
    + destruct (IH (acc ++ [{| runtime := r;
                              buildtime :=
                                Path.join [packageNameOf dep meta; m] |}]))
        as [[He ->]|[He [entries [-> Hb]]]].
      * left. auto.
      * right. split; [exact He|]. eexists. rewrite <- app_assoc.
        split; [reflexivity|]. cbn [app List.map buildtime]. rewrite Hb.
        reflexivity.
Qed.

Lemma visitDependency_acc acc dep :
  visitDependency env t extensions pkg acc dep
  = (do c <- contribution env t extensions pkg dep ;;
     Return (fst acc ++ fst c, snd acc ++ snd c)).
Proof.
  unfold contribution, visitDependency. destruct acc as [lazyModules eagerModules].
  destruct (addonMeta dep) as [meta|]; cbn [bind fst snd];
    [|rewrite !app_nil_r; reflexivity].
  destruct (categorizeDependency pkg (name dep)) as [[| |]|]; cbn [bind fst snd];
    try (rewrite !app_nil_r; reflexivity);
    (destruct (implicitModulesOf meta t) as [modules|];
     [rewrite forOf_pushLazyModule_acc;
      destruct (forOf _ modules []) as [l|e]; unfold bind; [|reflexivity]
     |unfold bind; rewrite app_nil_r];
     destruct (isEngine dep); cbn [fst snd app]; rewrite ?app_nil_r;
     reflexivity).
Qed.

Lemma forOf_visitDependency deps : forall acc,
  forOf (visitDependency env t extensions pkg) deps acc
  = (do c <- concatenated
               (List.map (contribution env t extensions pkg) deps) ;;
     Return (fst acc ++ fst c, snd acc ++ snd c)).
Proof.
  induction deps as [|d deps IH]; intros acc; cbn [forOf List.map concatenated].
  - unfold bind. cbn [fst snd]. rewrite !app_nil_r. destruct acc; reflexivity.
  - rewrite visitDependency_acc.
    destruct (contribution env t extensions pkg d) as [c|e]; unfold bind at 1 2 3;
      [|reflexivity].
    rewrite IH.
    destruct (concatenated _) as [more|e]; unfold bind; [|reflexivity].
    cbn [fst snd]. rewrite !app_assoc. reflexivity.
Qed.

Lemma contribution_peer dep :
  isPeer pkg dep = true ->
  contribution env t extensions pkg dep = Return ([], []).
Proof.
  unfold isPeer, contribution, visitDependency.
  destruct (addonMeta dep); [|reflexivity].
  destruct (categorizeDependency pkg (name dep)) as [[| |]|];
    try discriminate. reflexivity.
Qed.

Lemma concatenated_without_peers deps :
  concatenated (List.map (contribution env t extensions pkg) deps)
  = concatenated
      (List.map (contribution env t extensions pkg)
                (filter (fun d => negb (isPeer pkg d)) deps)).
Proof.
  induction deps as [|d deps IH]; [reflexivity|]. cbn [List.map filter].
  destruct (isPeer pkg d) eqn:Hp; cbn [negb List.map concatenated].
  - rewrite (contribution_peer d Hp), <- IH. unfold bind at 1.
    destruct (concatenated _) as [[l e]|x]; reflexivity.
  - rewrite IH. reflexivity.
Qed.

(** A visit throws exactly when the dependency is visited and one of its
    lookups finds a property of [Object.prototype]; otherwise its eager
    part is the entry of an addon that is no engine. *)
Lemma contribution_cases dep :
  (visitThrows env t extensions pkg dep = true
   /\ contribution env t extensions pkg dep = Throw TypeError)
  \/ (visitThrows env t extensions pkg dep = false
      /\ exists lazyModules,
           contribution env t extensions pkg dep
           = Return (lazyModules,
                     if importsEagerly pkg dep then [eagerEntry t dep] else [])).
Proof.
  unfold visitThrows, contribution, visitDependency, importsEagerly, isV2Addon,
    isPeer, eagerEntry.
  destruct (addonMeta dep) as [meta|]; [|right; split; [reflexivity|]; eexists; reflexivity].
  destruct (categorizeDependency pkg (name dep)) as [[| |]|]; cbn [negb andb];
    try (right; split; [reflexivity|]; eexists; reflexivity);
    (destruct (implicitModulesOf meta t) as [modules|];
     [destruct (forOf_pushLazyModule_cases dep meta modules [])
        as [[He ->]|[He [entries [-> _]]]]; rewrite He; unfold bind;
      [left; auto | right; split; [reflexivity|]]
     |right; split; [reflexivity|]; unfold bind];
     destruct (isEngine dep); eexists; reflexivity).
Qed.

Lemma concatenated_cases deps :
  (existsb (visitThrows env t extensions pkg) deps = true
   /\ concatenated (List.map (contribution env t extensions pkg) deps)
      = Throw TypeError)
  \/ (existsb (visitThrows env t extensions pkg) deps = false
      /\ exists lazyModules,
           concatenated (List.map (contribution env t extensions pkg) deps)
           = Return (lazyModules,
                     List.map (eagerEntry t)
                              (filter (importsEagerly pkg) deps))).
Proof.
  induction deps as [|d deps IH]; cbn [existsb List.map concatenated filter].
  - right. split; [reflexivity|]. eexists; reflexivity.
  - destruct (contribution_cases d) as [[Hd ->]|[Hd [l ->]]]; rewrite Hd;
      unfold bind at 1; cbn [orb].
    + left. auto.
    + destruct IH as [[He ->]|[He [more ->]]]; unfold bind.
      * left. auto.
      * right. split; [exact He|]. eexists. cbn [fst snd].
        destruct (importsEagerly pkg d); reflexivity.
Qed.

End Contributions.

Lemma manifest_contributions (env : Collaborators) (t : ImplicitType)
      (resolver : Resolver) (pkg : Package) :
  implicitModulesManifest env t resolver pkg
  = concatenated
      (List.map (contribution env t (resolvableExtensions resolver) pkg)
                (sort orderAddons (dependencies pkg))).
Proof.
  unfold implicitModulesManifest. rewrite forOf_visitDependency.
  destruct (concatenated _) as [[l e]|x]; reflexivity.
Qed.

(** The aggregator throws exactly when the visit of one of the
    dependencies does, and then a [TypeError]. *)
Lemma manifest_cases (env : Collaborators) (t : ImplicitType)
      (resolver : Resolver) (pkg : Package) :
  (existsb (visitThrows env t (resolvableExtensions resolver) pkg)
           (dependencies pkg) = true
   /\ implicitModulesManifest env t resolver pkg = Throw TypeError)
  \/ (existsb (visitThrows env t (resolvableExtensions resolver) pkg)
              (dependencies pkg) = false
      /\ exists lazyModules,
           implicitModulesManifest env t resolver pkg
           = Return (lazyModules,
                     List.map (eagerEntry t)
                              (filter (importsEagerly pkg)
                                      (sort orderAddons (dependencies pkg))))).
Proof.
  rewrite manifest_contributions.
  rewrite (existsb_perm _ _ _ _ (sort_perm Package orderAddons (dependencies pkg))).
  apply concatenated_cases.
Qed.

(** C7. A dependency that the owning package categorizes as a peer
    dependency adds nothing to the lazy manifest and nothing to the eager
    manifest: the two manifests are, over the sorted dependencies, what
    each one contributes, one after the other; the visit of a peer
    dependency returns with nothing added, and the outcome of the
    aggregator is that for the same package without its peer
    dependencies. *)
Theorem peer_dependencies_excluded :
  forall (env : Collaborators) (t : ImplicitType) (resolver : Resolver)
         (pkg : Package),
    let extensions := resolvableExtensions resolver in
    implicitModulesManifest env t resolver pkg
    = concatenated
        (List.map (contribution env t extensions pkg)
                  (sort orderAddons (dependencies pkg)))
    /\ (forall dep,
           categorizeDependency pkg (name dep) = Some PeerDependencies ->
           contribution env t extensions pkg dep = Return ([], []))
    /\ implicitModulesManifest env t resolver pkg
       = implicitModulesManifest env t resolver
           (withDependencies pkg
              (filter (fun d => negb (isPeer pkg d)) (dependencies pkg))).
Proof.
  intros env t resolver pkg extensions. split; [|split].
  - apply manifest_contributions.
  - intros dep H. apply contribution_peer. unfold isPeer. rewrite H. reflexivity.
  - rewrite !manifest_contributions. cbn [dependencies withDependencies].
    rewrite <- (filter_sort_any Package orderAddons orderIndex orderAddons_key).
    apply (concatenated_without_peers env t (resolvableExtensions resolver) pkg).
Qed.

(** C6, as the code has it. The aggregator reads only a dependency's own
    metadata, so no lazy entry comes from beyond a dependency, engine or
    not.  Of a visit that returns, the eager part is empty for an engine
    and is exactly one entry, the dependency's own implicit-modules virtual
    file of the requested kind, for every other v2-addon dependency that is
    not a peer dependency.  A visit that does not return throws a
    [TypeError], which it does exactly when the lookup of one of the
    dependency's implicit modules in the inverted [renamed-modules] finds a
    property of [Object.prototype]; no manifest is built then. *)
Theorem engine_boundary :
  forall (env : Collaborators) (t : ImplicitType) (resolver : Resolver)
         (pkg dep : Package),
    let extensions := resolvableExtensions resolver in
    implicitModulesManifest env t resolver pkg
    = concatenated
        (List.map (contribution env t extensions pkg)
                  (sort orderAddons (dependencies pkg)))
    /\ (forall deps',
           contribution env t extensions pkg (withDependencies dep deps')
           = contribution env t extensions pkg dep)
    /\ (forall lazyModules eagerModules,
           contribution env t extensions pkg dep
           = Return (lazyModules, eagerModules) ->
           isEngine dep = true -> eagerModules = [])
    /\ (forall lazyModules eagerModules,
           contribution env t extensions pkg dep
           = Return (lazyModules, eagerModules) ->
           isEngine dep = false -> isV2Addon dep = true ->
           isPeer pkg dep = false ->
           eagerModules = [eagerEntry t dep])
    /\ ((exists c, contribution env t extensions pkg dep = Return c)
        <-> visitThrows env t extensions pkg dep = false)
    /\ (forall e, contribution env t extensions pkg dep = Throw e ->
                  e = TypeError).
Proof.
  intros env t resolver pkg dep extensions.
  split; [apply manifest_contributions|]. split; [reflexivity|].
  destruct (contribution_cases env t extensions pkg dep)
    as [[Hv Hc]|[Hv [l Hc]]]; rewrite Hc, Hv.
  - repeat split; try discriminate.
    + intros [c H]. discriminate.
    + intros e H. injection H as <-. reflexivity.
  - unfold importsEagerly. repeat split; try discriminate.
    + intros lazyModules eagerModules H He. injection H as _ <-.
      rewrite He, andb_false_r. reflexivity.
    + intros lazyModules eagerModules H He Hv2 Hp. injection H as _ <-.
      rewrite He, Hv2, Hp. reflexivity.
    + exists (l, if isV2Addon dep && negb (isPeer pkg dep) && negb (isEngine dep)
                 then [eagerEntry t dep] else []). reflexivity.
Qed.

(** C6, against the claim as stated: the only dependency of [sampleApp] is
    an engine with one implicit module; the lazy manifest has that module
    and the eager manifest is empty, so it holds no entry for the engine's
    own implicit-modules file. *)
Lemma engine_boundary_counterexample :
  isEngine sampleEngine = true
  /\ dependencies sampleApp = [sampleEngine]
  /\ implicitModulesManifest specCollaborators ImplicitModules sampleResolver sampleApp
     = Return
         ([{| runtime := lit "my-engine/foo"; buildtime := lit "my-engine/foo.js" |}],
          []).
Proof. repeat split. Qed.

(** ** The precondition of the implicit-modules generator *)

Lemma renderImplicitModules_cases (env : Collaborators)
      (im : ImplicitModulesRequest) (resolver : Resolver) :
  (exists pkg text,
      ownerOfFile resolver (fromFile im) = Some pkg /\ isV2Ember pkg = true
      /\ existsb (visitThrows env (type im) (resolvableExtensions resolver) pkg)
                 (dependencies pkg) = false
      /\ renderImplicitModules env im resolver = Return text)
  \/ (exists pkg,
         ownerOfFile resolver (fromFile im) = Some pkg /\ isV2Ember pkg = true
         /\ existsb (visitThrows env (type im) (resolvableExtensions resolver) pkg)
                    (dependencies pkg) = true
         /\ renderImplicitModules env im resolver = Throw TypeError)
  \/ (~ ownedByV2Ember resolver (fromFile im)
      /\ renderImplicitModules env im resolver
         = Throw (implicitModulesBug (fromFile im))).
Proof.
  unfold renderImplicitModules, ownedByV2Ember, implicitModulesBug.
  destruct (ownerOfFile resolver (fromFile im)) as [pkg|] eqn:Hown.
  - destruct (isV2Ember pkg) eqn:Hv2.
    + destruct (manifest_cases env (type im) resolver pkg)
        as [[Hv ->]|[Hv [l ->]]]; unfold bind.
      * right. left. exists pkg. auto.
      * left. exists pkg. eexists. auto.
    + right. right. split; [|reflexivity].
      intros [pkg' [H1 H2]]. congruence.
  - right. right. split; [|reflexivity]. intros [pkg' [H1 H2]]. discriminate.
Qed.

(** C9. The implicit-modules generator throws its own error, whose message
    differs from the one of the dispatcher's "not a virtual file" error,
    exactly when the file has no owning package or the owning package is not
    a v2 Ember package.  When the owner is a v2 Ember package that error is
    not raised: the generator returns the rendered text, unless the
    aggregator throws a [TypeError], which it does exactly when, for one of
    the dependencies it visits, the lookup of an implicit module in the
    inverted [renamed-modules] finds a property of [Object.prototype]. *)
Theorem implicit_modules_precondition :
  forall (env : Collaborators) (im : ImplicitModulesRequest) (resolver : Resolver),
    (renderImplicitModules env im resolver = Throw (implicitModulesBug (fromFile im))
     <-> (ownerOfFile resolver (fromFile im) = None
          \/ exists pkg, ownerOfFile resolver (fromFile im) = Some pkg
                         /\ isV2Ember pkg = false))
    /\ (ownedByV2Ember resolver (fromFile im)
        <-> (exists text, renderImplicitModules env im resolver = Return text)
            \/ renderImplicitModules env im resolver = Throw TypeError)
    /\ (renderImplicitModules env im resolver = Throw TypeError
        <-> exists pkg,
              ownerOfFile resolver (fromFile im) = Some pkg
              /\ isV2Ember pkg = true
              /\ existsb (visitThrows env (type im)
                                      (resolvableExtensions resolver) pkg)
                         (dependencies pkg) = true)
    /\ (forall filename, implicitModulesBug (fromFile im) <> notVirtualFile filename).
Proof.
  intros env im resolver.
  assert (Hbug : implicitModulesBug (fromFile im) <> TypeError)
    by (unfold implicitModulesBug; discriminate).
  split; [|split; [|split]].
  - destruct (renderImplicitModules_cases env im resolver)
      as [[pkg [text [Ho [Hv [_ Ht]]]]] | [[pkg [Ho [Hv [_ Ht]]]] | [Hn Ht]]];
      rewrite Ht.
    + split; [discriminate|]. intros [H|[pkg' [H3 H4]]]; congruence.
    + split; [intros H; injection H as H; congruence|].
      intros [H|[pkg' [H3 H4]]]; congruence.
    + split; [|reflexivity].
      intros _. destruct (ownerOfFile resolver (fromFile im)) as [pkg|] eqn:Hown;
        [right|left; reflexivity].
      exists pkg. split; [reflexivity|].
      destruct (isV2Ember pkg) eqn:Hv2; [|reflexivity].
      exfalso. apply Hn. exists pkg; auto.
  - destruct (renderImplicitModules_cases env im resolver)
      as [[pkg [text [Ho [Hv [_ Ht]]]]] | [[pkg [Ho [Hv [_ Ht]]]] | [Hn Ht]]];
      rewrite Ht.
    + split; [intros _; left; exists text; reflexivity|].
      intros _. exists pkg. auto.
    + split; [intros _; right; reflexivity|]. intros _. exists pkg. auto.
    + split; [contradiction|]. intros [[text H]|H]; [discriminate|].
      injection H as H. congruence.
  - destruct (renderImplicitModules_cases env im resolver)
      as [[pkg [text [Ho [Hv [He Ht]]]]] | [[pkg [Ho [Hv [He Ht]]]] | [Hn Ht]]];
      rewrite Ht.
    + split; [discriminate|]. intros [pkg' [H1 [_ H3]]].
      rewrite Ho in H1. injection H1 as <-. congruence.
    + split; [|reflexivity]. intros _. exists pkg. auto.
    + split; [intros H; injection H as H; congruence|].
      intros [pkg' [H1 [H2 _]]]. exfalso. apply Hn. exists pkg'. auto.
  - intros filename. unfold implicitModulesBug, notVirtualFile. simpl.
    intros H. injection H as H. discriminate.
Qed.

(** ** The backtracking matcher *)

Module RegexFacts.
Import Regex.

Lemma stripPrefix_spec (p s s' : jsstring) :
  stripPrefix p s = Some s' <-> s = p ++ s'.
Proof.
  revert s; induction p as [|c p IH]; intros s; simpl.
  - split; [intros H; injection H; auto | intros ->; reflexivity].
  - destruct s as [|d s]; [split; discriminate|].
    destruct (N.eqb_spec c d) as [->|Hne].
    + rewrite IH. split; [intros ->; reflexivity | intros H; injection H; auto].
    + split; [discriminate | intros H; injection H; congruence].
Qed.

Lemma stripPrefix_app (p s : jsstring) : stripPrefix p (p ++ s) = Some s.
Proof. apply stripPrefix_spec; reflexivity. Qed.

(** Whatever [star] returns was returned by the continuation after a run
    of characters of the class. *)
Lemma star_some cc s : forall pos caps k r,
  star cc pos s caps k = Some r ->
  exists w s', s = w ++ s' /\ forallb (cmatch cc) w = true
               /\ k (pos + length w) s' caps = Some r.
Proof.
  induction s as [|c s IH]; intros pos caps k r H; simpl in H.
  - exists [], []. simpl. rewrite Nat.add_0_r. auto.
  - destruct (cmatch cc c) eqn:Hc.
    + destruct (star cc (S pos) s caps k) as [r'|] eqn:Hs.
      * injection H as ->. apply IH in Hs as [w [s' [-> [Hw Hk]]]].
        exists (c :: w), s'. simpl. rewrite Hc, Hw, Nat.add_succ_r.
        simpl in Hk. auto.
      * exists [], (c :: s). simpl. rewrite Nat.add_0_r. auto.
    + exists [], (c :: s). simpl. rewrite Nat.add_0_r. auto.
Qed.

(** [star] returns what the continuation returns after the longest run
    of characters of the class that lets it succeed. *)
Lemma star_first cc s : forall pos caps k r w s',
  s = w ++ s' ->
  forallb (cmatch cc) w = true ->
  k (pos + length w) s' caps = Some r ->
  (forall w2 s2, s = w2 ++ s2 -> forallb (cmatch cc) w2 = true ->
                 length w < length w2 -> k (pos + length w2) s2 caps = None) ->
  star cc pos s caps k = Some r.
Proof.
  induction s as [|c s IH]; intros pos caps k r w s' Hs Hw Hk Hmax.
  - destruct w; [|discriminate]. simpl in Hs. subst s'.
    simpl in *. rewrite Nat.add_0_r in Hk. exact Hk.
  - destruct w as [|d w].
    + simpl in Hs. subst s'. simpl in Hk. rewrite Nat.add_0_r in Hk. simpl.
      destruct (cmatch cc c) eqn:Hc; [|exact Hk].
      destruct (star cc (S pos) s caps k) as [r'|] eqn:Hstar; [|exact Hk].
      apply star_some in Hstar as [w' [s'' [-> [Hw' Hk']]]].
      assert (Hnone : k (pos + length (c :: w')) s'' caps = None).
      { apply Hmax; simpl; [reflexivity | rewrite Hc; exact Hw' | lia]. }
      simpl in Hnone, Hk'. rewrite Nat.add_succ_r in Hnone. congruence.
    + simpl in Hs. injection Hs as <- ->. simpl in Hw.
      apply andb_true_iff in Hw as [Hc Hw]. simpl. rewrite Hc.
      rewrite (IH (S pos) caps k r w s'); auto.
      * simpl in Hk. rewrite Nat.add_succ_r in Hk. exact Hk.
      * intros w2 s2 H2 Hw2 Hlen.
        specialize (Hmax (c :: w2) s2). simpl in Hmax.
        rewrite Nat.add_succ_r in Hmax. apply Hmax.
        -- rewrite H2; reflexivity.
        -- rewrite Hc; exact Hw2.
        -- simpl in Hlen. lia.
Qed.

(** If the continuation succeeds after some run of characters of the
    class, [star] succeeds. *)
Lemma star_complete cc s : forall pos caps k w s' r,
  s = w ++ s' ->
  forallb (cmatch cc) w = true ->
  k (pos + length w) s' caps = Some r ->
  star cc pos s caps k <> None.
Proof.
  induction s as [|c s IH]; intros pos caps k w s' r Hs Hw Hk.
  - destruct w; [|discriminate]. simpl in Hs; subst s'. simpl in *.
    rewrite Nat.add_0_r in Hk. congruence.
  - destruct w as [|d w].
    + simpl in Hs; subst s'. simpl in Hk. rewrite Nat.add_0_r in Hk. simpl.
      destruct (cmatch cc c); [|congruence].
      destruct (star cc (S pos) s caps k); congruence.
    + simpl in Hs. injection Hs as <- ->. simpl in Hw.
      apply andb_true_iff in Hw as [Hc Hw]. simpl. rewrite Hc.
      simpl in Hk. rewrite Nat.add_succ_r in Hk.
      pose proof (IH (S pos) caps k w s' r eq_refl Hw Hk) as Hne.
      destruct (star cc (S pos) (w ++ s') caps k); congruence.
Qed.

(** A pattern that starts with [^] matches at index 0 or nowhere. *)
Lemma search_bol r pos s :
  search (Seq Bol r) (S pos) s = None.
Proof.
  revert pos. induction s as [|c s IH]; intros pos; simpl; [reflexivity|].
  apply IH.
Qed.

(** A match found by the search is a match of the pattern at its index. *)
Lemma search_some (r : regex) (s : jsstring) : forall pos m,
  search r pos s = Some m ->
  exists before s',
    s = before ++ s' /\ index m = pos + length before
    /\ run r (index m) s' [] k0 = Some (final m, groups m).
Proof.
  induction s as [|c s IH]; intros pos m H; cbn [search] in H; fold k0 in H.
  - destruct (run r pos [] [] k0) as [[e caps]|] eqn:Hrun; [|discriminate].
    injection H as <-. exists [], []. cbn [index final groups length].
    rewrite Nat.add_0_r. auto.
  - destruct (run r pos (c :: s) [] k0) as [[e caps]|] eqn:Hrun.
    + injection H as <-. exists [], (c :: s). cbn [index final groups length].
      rewrite Nat.add_0_r. auto.
    + apply IH in H as [before [s' [-> [Hi Hr]]]].
      exists (c :: before), s'. cbn [length]. split; [reflexivity|].
      split; [lia | exact Hr].
Qed.

End RegexFacts.

(** ** The paired-component pattern *)

Module PairPattern.
Import Regex RegexFacts.

Lemma run_unfold (f : jsstring) (k : cont) :
  run pairComponentPattern 0 f [] k
  = star Dot 0 f []
      (fun p1 s1 c1 =>
         match stripPrefix (lit "/") s1 with
         | Some s2 =>
             star (NotChar 47) (p1 + 1) s2
                  (("hbsModule"%string, firstn (p1 - 0) f) :: c1)
                  (fun p3 s3 c3 =>
                     match stripPrefix pairComponentMarker s3 with
                     | Some [] =>
                         k (p3 + 25) []
                           (("jsModule"%string, firstn (p3 - (p1 + 1)) s2) :: c3)
                     | _ => None
                     end)
         | None => None
         end).
Proof. reflexivity. Qed.

Lemma exec_unfold (f : jsstring) :
  exec pairComponentPattern f
  = match run pairComponentPattern 0 f [] (fun pos' _ caps => Some (pos', caps)) with
    | Some (e, caps) => Some (mkMatch 0 e caps)
    | None => None
    end.
Proof.
  unfold exec. destruct f as [|c f]; [reflexivity|].
  change (search pairComponentPattern 0 (c :: f))
    with (match run pairComponentPattern 0 (c :: f) []
                    (fun pos' _ caps => Some (pos', caps)) with
          | Some (e, caps) => Some (mkMatch 0 e caps)
          | None => search pairComponentPattern 1 f
          end).
  destruct (run _ _ _ _ _) as [[e caps]|]; [reflexivity|].
  apply (search_bol _ 0 f).
Qed.

Lemma noSlash_unique (a b x y : jsstring) :
  noSlash a = true -> noSlash b = true ->
  x ++ 47%N :: a = y ++ 47%N :: b -> x = y /\ a = b.
Proof.
  intros Ha Hb H.
  assert (Hrev : rev a ++ 47%N :: rev x = rev b ++ 47%N :: rev y).
  { apply (f_equal (@rev N)) in H. rewrite !rev_app_distr in H. simpl in H.
    rewrite <- !app_assoc in H. exact H. }
  assert (Hra : noSlash (rev a) = true).
  { unfold noSlash in *. rewrite forallb_forall in *. intros c Hc.
    apply Ha. apply in_rev. exact Hc. }
  assert (Hrb : noSlash (rev b) = true).
  { unfold noSlash in *. rewrite forallb_forall in *. intros c Hc.
    apply Hb. apply in_rev. exact Hc. }
  clear H Ha Hb.
  assert (Hgen : forall u v p q : jsstring,
             noSlash u = true -> noSlash v = true ->
             u ++ 47%N :: p = v ++ 47%N :: q -> u = v /\ p = q).
  { induction u as [|c u IH]; intros [|d v] p q Hu Hv H; simpl in *.
    - injection H as ->. auto.
    - injection H as <- _. discriminate.
    - injection H as -> _. discriminate.
    - apply andb_true_iff in Hu as [_ Hu]. apply andb_true_iff in Hv as [_ Hv].
      injection H as -> H. destruct (IH v p q Hu Hv H) as [-> ->]. auto. }
  destruct (Hgen _ _ _ _ Hra Hrb Hrev) as [H1 H2].
  split.
  - rewrite <- (rev_involutive x), <- (rev_involutive y), H2. reflexivity.
  - rewrite <- (rev_involutive a), <- (rev_involutive b), H1. reflexivity.
Qed.

Lemma shape_unique (f h j h' j' : jsstring) :
  pairShaped f h j -> pairShaped f h' j' -> h = h' /\ j = j'.
Proof.
  intros [-> [_ Hj]] [H [_ Hj']].
  change (lit "/") with [47%N] in H. simpl in H.
  rewrite !app_comm_cons, !app_assoc in H.
  apply app_inv_tail in H.
  apply (noSlash_unique _ _ _ _ Hj Hj' H).
Qed.

(** What a match of the pattern says about the filename. *)
Lemma exec_some (f : jsstring) (m : rmatch) :
  exec pairComponentPattern f = Some m ->
  pairShaped f (group "hbsModule" m) (group "jsModule" m).
Proof.
  rewrite exec_unfold, run_unfold. intros H.
  destruct (star Dot 0 f [] _) as [[e caps]|] eqn:Hstar; [|discriminate].
  injection H as <-.
  apply star_some in Hstar as [w [s1 [-> [Hw Hk]]]]. cbv beta in Hk.
  destruct (stripPrefix (lit "/") s1) as [s2|] eqn:Hp; [|discriminate].
  apply stripPrefix_spec in Hp as ->.
  apply star_some in Hk as [j [s3 [-> [Hj Hk]]]]. cbv beta in Hk.
  destruct (stripPrefix pairComponentMarker s3) as [[|c s4]|] eqn:Hm;
    try discriminate.
  apply stripPrefix_spec in Hm as ->. injection Hk as <- <-.
  unfold group. simpl getGroup.
  replace (length w - 0) with (length w) by lia.
  replace (length w + 1 + length j - (length w + 1))
    with (length j) by lia.
  rewrite !firstn_length_app. rewrite app_nil_r.
  split; [reflexivity|]. split; [exact Hw | exact Hj].
Qed.

Lemma inner_complete (pos p1 : nat) (caps : captures) (j s2 : jsstring) :
  noSlash j = true ->
  exists r,
    star (NotChar 47) pos (j ++ pairComponentMarker) caps
         (fun p3 s3 c3 =>
            match stripPrefix pairComponentMarker s3 with
            | Some [] =>
                Some (p3 + 25,
                      ("jsModule"%string, firstn (p3 - p1) s2) :: c3)
            | _ => None
            end) = Some r.
Proof.
  intros Hj.
  match goal with
  | |- exists r, ?X = Some r => assert (Hne : X <> None)
  end.
  { eapply star_complete with (w := j); [reflexivity | exact Hj |].
    reflexivity. }
  destruct (star _ _ _ _ _) as [r|]; [exists r; reflexivity | congruence].
Qed.

(** Every filename of that shape is matched, with these groups. *)
Lemma exec_shaped (f h j : jsstring) :
  pairShaped f h j ->
  exists m, exec pairComponentPattern f = Some m
            /\ group "hbsModule" m = h /\ group "jsModule" m = j.
Proof.
  intros Hshape.
  destruct (exec pairComponentPattern f) as [m|] eqn:Hexec.
  - exists m. split; [reflexivity|].
    apply exec_some in Hexec.
    destruct (shape_unique _ _ _ _ _ Hexec Hshape) as [-> ->]. auto.
  - exfalso. rewrite exec_unfold, run_unfold in Hexec.
    destruct Hshape as [-> [Hh Hj]].
    match type of Hexec with
    | match ?X with _ => _ end = None => assert (Hne : X <> None)
    end.
    { destruct (inner_complete (0 + length h + 1) (0 + length h + 1)
                  [("hbsModule"%string,
                    firstn (0 + length h - 0)
                           (h ++ lit "/" ++ j ++ pairComponentMarker))]
                  j (j ++ pairComponentMarker) Hj) as [r Hr].
      eapply star_complete with (w := h) (r := r); [reflexivity | exact Hh |].
      cbv beta. rewrite stripPrefix_app. exact Hr. }
    destruct (star Dot 0 _ [] _) as [[e caps]|]; [discriminate | congruence].
Qed.

Lemma exec_none (f h j : jsstring) :
  exec pairComponentPattern f = None -> ~ pairShaped f h j.
Proof.
  intros Hnone Hshape. apply exec_shaped in Hshape as [m [H _]]. congruence.
Qed.

End PairPattern.

(** ** Which decoders can recognise the same filename *)

Lemma startsWith_both (s p q : jsstring) :
  startsWith s p = true -> startsWith s q = true -> length p <= length q ->
  startsWith q p = true.
Proof.
  rewrite !startsWith_spec. intros [a ->] [b H] Hlen.
  exists (skipn (length p) q).
  rewrite <- (firstn_skipn (length p) q) at 1. f_equal.
  assert (H1 : firstn (length p) (p ++ a) = p) by apply firstn_length_app.
  assert (H2 : firstn (length p) (q ++ b) = firstn (length p) q).
  { rewrite firstn_app. replace (length p - length q) with 0 by lia.
    simpl. apply app_nil_r. }
  congruence.
Qed.

Lemma endsWith_both (s p q : jsstring) :
  endsWith s p = true -> endsWith s q = true -> length p <= length q ->
  endsWith q p = true.
Proof.
  unfold endsWith. intros Hp Hq Hlen.
  apply (startsWith_both _ _ _ Hp Hq). rewrite !length_rev. exact Hlen.
Qed.

Lemma matchesPair_endsWith (f : jsstring) :
  matchesPair f = true -> endsWith f pairComponentMarker = true.
Proof.
  unfold matchesPair.
  destruct (Regex.exec pairComponentPattern f) as [m|] eqn:H; [|discriminate].
  intros _. apply PairPattern.exec_some in H as [H _].
  apply endsWith_spec.
  exists (group "hbsModule" m ++ lit "/" ++ group "jsModule" m).
  rewrite H at 1. rewrite <- !app_assoc. reflexivity.
Qed.

Lemma matchesImplicit_endsWith (f : jsstring) :
  matchesImplicit f = true ->
  endsWith f implicitModulesSuffix = true
  \/ endsWith f implicitTestModulesSuffix = true.
Proof.
  unfold matchesImplicit, decodeImplicitModules.
  destruct (endsWith f implicitModulesSuffix); [auto|].
  destruct (endsWith f implicitTestModulesSuffix); [auto|discriminate].
Qed.

Lemma pair_excludes_implicit (f : jsstring) :
  matchesPair f && matchesImplicit f = false.
Proof.
  destruct (matchesPair f) eqn:Hp; [|reflexivity].
  destruct (matchesImplicit f) eqn:Hi; [|reflexivity].
  apply matchesPair_endsWith in Hp.
  apply matchesImplicit_endsWith in Hi as [Hi|Hi];
    pose proof (endsWith_both _ _ _ Hp Hi) as H;
    (assert (Hlen : length pairComponentMarker <= 33) by (simpl; lia));
    simpl length in H; vm_compute in H; exfalso;
    (assert (Hf : false = true) by (apply H; lia)); discriminate.
Qed.

(** ** URI coding *)

Module URIFacts.
Import URI.
Local Open Scope N_scope.

Ltac arith := zify; Z.to_euclidean_division_equations; lia.

Ltac cases_on_tests :=
  repeat match goal with
         | |- context [?a <=? ?b] => destruct (N.leb_spec a b)
         | |- context [?a <? ?b] => destruct (N.ltb_spec a b)
         | |- context [?a =? ?b] => destruct (N.eqb_spec a b)
         end.

Lemma decodeFrom_throws (s : jsstring) : forall skip e,
  decodeFrom skip s = Throw e -> e = URIError.
Proof.
  induction s as [|c s IH]; intros skip e H; simpl in H; [discriminate|].
  destruct skip as [|n]; [|eapply IH; exact H].
  destruct (c =? 37).
  - destruct (decodeEscape (c :: s)) as [[units used]|]; [|congruence].
    destruct (decodeFrom (used - 1) s) eqn:Hd; simpl in H; [discriminate|].
    injection H as <-. eapply IH; exact Hd.
  - destruct (decodeFrom 0 s) eqn:Hd; simpl in H; [discriminate|].
    injection H as <-. eapply IH; exact Hd.
Qed.

Lemma decode_throws (s : jsstring) (e : exn) :
  decodeURIComponent s = Throw e -> e = URIError.
Proof. apply decodeFrom_throws. Qed.

(** Without a percent sign there is nothing to decode. *)
Lemma decode_no_percent (s : jsstring) :
  ~ In 37 s -> decodeURIComponent s = Return s.
Proof.
  unfold decodeURIComponent. induction s as [|c s IH]; intros H; simpl;
    [reflexivity|].
  destruct (N.eqb_spec c 37) as [->|_]; [exfalso; apply H; left; reflexivity|].
  rewrite IH; [reflexivity|]. intros Hin. apply H. right. exact Hin.
Qed.

Lemma decodeFrom_skip (pre rest : jsstring) :
  decodeFrom (length pre) (pre ++ rest) = decodeFrom 0 rest.
Proof. induction pre as [|c pre IH]; simpl; [destruct rest|]; auto. Qed.

Lemma hexDigit_not_slash (d : N) : hexDigit d <> 47.
Proof. unfold hexDigit. cases_on_tests; lia. Qed.

Lemma hexValue_hexDigit (d : N) : d < 16 -> hexValue (hexDigit d) = Some d.
Proof.
  intros Hd. unfold hexDigit.
  destruct (N.ltb_spec d 10); unfold hexValue, isDigit.
  - replace (48 <=? 48 + d) with true by (symmetry; apply N.leb_le; lia).
    replace (48 + d <=? 57) with true by (symmetry; apply N.leb_le; lia).
    cbv beta iota delta [andb]. f_equal. lia.
  - replace (55 + d <=? 57) with false by (symmetry; apply N.leb_gt; lia).
    rewrite andb_false_r.
    replace (65 <=? 55 + d) with true by (symmetry; apply N.leb_le; lia).
    replace (55 + d <=? 70) with true by (symmetry; apply N.leb_le; lia).
    cbv beta iota delta [andb]. f_equal. lia.
Qed.

Lemma parseEscape_escapeOctet (b : N) (rest : jsstring) :
  b < 256 -> parseEscape (escapeOctet b ++ rest) = Some (b, rest).
Proof.
  intros Hb. unfold parseEscape, escapeOctet. simpl app. cbv iota beta.
  rewrite N.eqb_refl, !hexValue_hexDigit by arith. do 2 f_equal. arith.
Qed.

Lemma noSlash_escapeOctet (b : N) : noSlash (escapeOctet b) = true.
Proof.
  unfold noSlash, escapeOctet. cbn [forallb].
  change (37 =? 47) with false. cbn [negb andb].
  destruct (N.eqb_spec (hexDigit (b / 16)) 47) as [H|_];
    [exfalso; exact (@hexDigit_not_slash _ H)|].
  destruct (N.eqb_spec (hexDigit (b mod 16)) 47) as [H|_];
    [exfalso; exact (@hexDigit_not_slash _ H)|].
  reflexivity.
Qed.

Lemma noSlash_app (a b : jsstring) :
  noSlash (a ++ b) = noSlash a && noSlash b.
Proof. apply forallb_app. Qed.

Lemma noSlash_escapeCodePoint (cp : N) : noSlash (escapeCodePoint cp) = true.
Proof.
  unfold escapeCodePoint.
  induction (utf8 cp) as [|b l IH]; [reflexivity|].
  change (flat_map escapeOctet (b :: l))
    with (escapeOctet b ++ flat_map escapeOctet l).
  rewrite noSlash_app, noSlash_escapeOctet, IH. reflexivity.
Qed.

Lemma unescaped_not_slash (c : N) : unescaped c = true -> c <> 47.
Proof. intros H ->. vm_compute in H. discriminate. Qed.

(** An encoded component has no slash. *)
Lemma encode_noSlash (s : jsstring) : forall e,
  encodeURIComponent s = Return e -> noSlash e = true.
Proof.
  assert (Hgen : forall n s e, (length s <= n)%nat ->
                   encodeURIComponent s = Return e -> noSlash e = true).
  { induction n as [|n IH]; intros [|c s0] e Hlen H; simpl in *;
      try (injection H as <-; reflexivity); try lia.
    destruct (unescaped c) eqn:Hu.
    - destruct (encodeURIComponent s0) as [r|] eqn:Hr; simpl in H;
        [|discriminate].
      injection H as <-. simpl.
      destruct (N.eqb_spec c 47) as [Hc|_];
        [exfalso; exact (unescaped_not_slash _ Hu Hc)|].
      simpl. apply (IH s0); [lia | exact Hr].
    - destruct (isHighSurrogate c).
      + destruct s0 as [|d s1]; [discriminate|].
        destruct (isLowSurrogate d); [|discriminate].
        destruct (encodeURIComponent s1) as [r|] eqn:Hr; simpl in H;
          [|discriminate].
        injection H as <-. rewrite noSlash_app, noSlash_escapeCodePoint.
        simpl. apply (IH s1); [simpl in Hlen; lia | exact Hr].
      + destruct (isLowSurrogate c); [discriminate|].
        destruct (encodeURIComponent s0) as [r|] eqn:Hr; simpl in H;
          [|discriminate].
        injection H as <-. rewrite noSlash_app, noSlash_escapeCodePoint.
        simpl. apply (IH s0); [lia | exact Hr]. }
  intros e. apply (Hgen (length s)). lia.
Qed.

End URIFacts.

(** *** Decoding what was encoded *)

Module URIRoundTrip.
Import URI URIFacts.
Local Open Scope N_scope.

Ltac decide_test :=
  match goal with
  | |- context [?a <? ?b] =>
      first [ replace (a <? b) with true by (symmetry; apply N.ltb_lt; arith)
            | replace (a <? b) with false by (symmetry; apply N.ltb_ge; arith) ]
  | |- context [?a <=? ?b] =>
      first [ replace (a <=? b) with true by (symmetry; apply N.leb_le; arith)
            | replace (a <=? b) with false by (symmetry; apply N.leb_gt; arith) ]
  end.

Lemma escapeCodePoint_head (cp : N) :
  exists t, escapeCodePoint cp = 37 :: t.
Proof.
  unfold escapeCodePoint, utf8.
  destruct (cp <? 0x80); [|destruct (cp <? 0x800); [|destruct (cp <? 0x10000)]];
    simpl; eexists; reflexivity.
Qed.

Lemma decodeEscape_escapeCodePoint (cp : N) (rest : jsstring) :
  scalar cp ->
  decodeEscape (escapeCodePoint cp ++ rest)
  = Some (utf16 cp, length (escapeCodePoint cp)).
Proof.
  intros [Hmax Hsur]. unfold escapeCodePoint, utf8.
  destruct (N.ltb_spec cp 0x80) as [H1|H1];
    [|destruct (N.ltb_spec cp 0x800) as [H2|H2];
      [|destruct (N.ltb_spec cp 0x10000) as [H3|H3]]].
  - cbn [flat_map]. rewrite app_nil_r. unfold decodeEscape.
    rewrite parseEscape_escapeOctet by lia.
    replace (cp <? 0x80) with true by (symmetry; apply N.ltb_lt; lia).
    unfold utf16.
    replace (cp <? 0x10000) with true by (symmetry; apply N.ltb_lt; lia).
    reflexivity.
  - cbn [flat_map]. rewrite app_nil_r, <- app_assoc. unfold decodeEscape.
    rewrite parseEscape_escapeOctet by arith.
    unfold sequenceLength. repeat decide_test.
    cbn [Nat.sub parseEscapes].
    rewrite parseEscape_escapeOctet by arith.
    unfold utf8CodePoint, isContinuation.
    replace ((0xC0 + cp / 64 - 0xC0) * 64 + (0x80 + cp mod 64 - 0x80))
      with cp by arith.
    repeat decide_test. reflexivity.
  - cbn [flat_map]. rewrite app_nil_r, <- !app_assoc. unfold decodeEscape.
    rewrite parseEscape_escapeOctet by arith.
    unfold sequenceLength. repeat decide_test.
    cbn [Nat.sub parseEscapes].
    rewrite !parseEscape_escapeOctet by arith.
    unfold utf8CodePoint, isContinuation.
    replace ((0xE0 + cp / 4096 - 0xE0) * 4096
             + (0x80 + (cp / 64) mod 64 - 0x80) * 64
             + (0x80 + cp mod 64 - 0x80))
      with cp by arith.
    repeat decide_test.
    destruct (N.leb_spec 0xD800 cp), (N.leb_spec cp 0xDFFF);
      try (exfalso; lia); reflexivity.
  - cbn [flat_map]. rewrite app_nil_r, <- !app_assoc. unfold decodeEscape.
    rewrite parseEscape_escapeOctet by arith.
    unfold sequenceLength. repeat decide_test.
    cbn [Nat.sub parseEscapes].
    rewrite !parseEscape_escapeOctet by arith.
    unfold utf8CodePoint, isContinuation.
    replace ((0xF0 + cp / 262144 - 0xF0) * 262144
             + (0x80 + (cp / 4096) mod 64 - 0x80) * 4096
             + (0x80 + (cp / 64) mod 64 - 0x80) * 64
             + (0x80 + cp mod 64 - 0x80))
      with cp by arith.
    repeat decide_test. reflexivity.
Qed.

Lemma decodeFrom_escaped (cp : N) (rest : jsstring) :
  scalar cp ->
  decodeFrom 0 (escapeCodePoint cp ++ rest)
  = (do r <- decodeFrom 0 rest ;; Return (utf16 cp ++ r)).
Proof.
  intros Hcp.
  pose proof (decodeEscape_escapeCodePoint _ rest Hcp) as Hd.
  destruct (escapeCodePoint_head cp) as [t Ht]. rewrite Ht in *.
  change ((37 :: t) ++ rest) with (37 :: (t ++ rest)) in *.
  cbn [decodeFrom]. rewrite N.eqb_refl, Hd.
  replace (length (37%N :: t) - 1)%nat with (length t) by (simpl; lia).
  rewrite decodeFrom_skip. reflexivity.
Qed.

Lemma unescaped_not_percent (c : N) :
  unescaped c = true -> (c =? 37) = false.
Proof.
  intros H. destruct (N.eqb_spec c 37) as [->|]; [|reflexivity].
  vm_compute in H. discriminate.
Qed.

Lemma surrogate_tests (c : N) :
  isHighSurrogate c = false -> isLowSurrogate c = false ->
  ~ (0xD800 <= c /\ c <= 0xDFFF).
Proof.
  unfold isHighSurrogate, isLowSurrogate.
  destruct (N.leb_spec 0xD800 c), (N.leb_spec c 0xDBFF),
    (N.leb_spec 0xDC00 c), (N.leb_spec c 0xDFFF); simpl;
    try discriminate; intros _ _; lia.
Qed.

Lemma pair_scalar (c d : N) :
  isHighSurrogate c = true -> isLowSurrogate d = true ->
  scalar (pairCodePoint c d) /\ utf16 (pairCodePoint c d) = [c; d].
Proof.
  unfold isHighSurrogate, isLowSurrogate, scalar, pairCodePoint, utf16.
  destruct (N.leb_spec 0xD800 c), (N.leb_spec c 0xDBFF),
    (N.leb_spec 0xDC00 d), (N.leb_spec d 0xDFFF); simpl andb;
    try discriminate; intros _ _.
  split; [arith|].
  replace ((c - 0xD800) * 0x400 + (d - 0xDC00) + 0x10000 <? 0x10000)
    with false by (symmetry; apply N.ltb_ge; arith).
  f_equal; [arith|]. f_equal. arith.
Qed.

(** [decodeURIComponent] undoes [encodeURIComponent]. *)
Lemma decode_encode (s : jsstring) : forall e,
  isString s = true ->
  encodeURIComponent s = Return e ->
  decodeURIComponent e = Return s.
Proof.
  unfold decodeURIComponent.
  assert (Hgen : forall n s e, (length s <= n)%nat ->
                   isString s = true ->
                   encodeURIComponent s = Return e ->
                   decodeFrom 0 e = Return s).
  { induction n as [|n IH]; intros [|c s0] e Hlen Hstr H; simpl in Hlen;
      try (simpl in H; injection H as <-; reflexivity); try lia.
    cbn [encodeURIComponent] in H.
    cbn [isString forallb] in Hstr. apply andb_true_iff in Hstr as [Hc Hs0].
    apply N.ltb_lt in Hc.
    destruct (unescaped c) eqn:Hu.
    - destruct (encodeURIComponent s0) as [r|] eqn:Hr; simpl in H;
        [|discriminate].
      injection H as <-. cbn [decodeFrom].
      rewrite (unescaped_not_percent _ Hu).
      rewrite (IH s0 r); [reflexivity | lia | exact Hs0 | exact Hr].
    - destruct (isHighSurrogate c) eqn:Hhi.
      + destruct s0 as [|d s1]; [discriminate|].
        destruct (isLowSurrogate d) eqn:Hlo; [|discriminate].
        destruct (encodeURIComponent s1) as [r|] eqn:Hr; simpl in H;
          [|discriminate].
        injection H as <-.
        destruct (pair_scalar _ _ Hhi Hlo) as [Hsc Hu16].
        rewrite (decodeFrom_escaped _ _ Hsc), Hu16.
        cbn [forallb] in Hs0. apply andb_true_iff in Hs0 as [_ Hs1].
        rewrite (IH s1 r); [reflexivity | simpl in Hlen; lia | exact Hs1 | exact Hr].
      + destruct (isLowSurrogate c) eqn:Hlo; [discriminate|].
        destruct (encodeURIComponent s0) as [r|] eqn:Hr; simpl in H;
          [|discriminate].
        injection H as <-.
        assert (Hsc : scalar c).
        { split; [lia | exact (surrogate_tests _ Hhi Hlo)]. }
        rewrite (decodeFrom_escaped _ _ Hsc).
        rewrite (IH s0 r); [|lia | exact Hs0 | exact Hr].
        unfold utf16.
        replace (c <? 0x10000) with true by (symmetry; apply N.ltb_lt; lia).
        reflexivity. }
  intros e. apply (Hgen (length s)). lia.
Qed.

Lemma encode_nonempty (s e : jsstring) :
  encodeURIComponent s = Return e -> e = [] -> s = [].
Proof.
  destruct s as [|c s]; [reflexivity|]. cbn [encodeURIComponent].
  intros H He. subst e. exfalso.
  destruct (unescaped c).
  - destruct (encodeURIComponent s); simpl in H; discriminate.
  - destruct (isHighSurrogate c).
    + destruct s as [|d s]; [discriminate|].
      destruct (isLowSurrogate d); [|discriminate].
      destruct (encodeURIComponent s); simpl in H; [|discriminate].
      destruct (escapeCodePoint_head (pairCodePoint c d)) as [t Ht].
      rewrite Ht in H. discriminate.
    + destruct (isLowSurrogate c); [discriminate|].
      destruct (encodeURIComponent s); simpl in H; [|discriminate].
      destruct (escapeCodePoint_head c) as [t Ht].
      rewrite Ht in H. discriminate.
Qed.

End URIRoundTrip.

(** ** What the decoders return *)

Section Decoders.
Variable env : Collaborators.

Lemma decodeVirtualPairComponent_none (f : jsstring) :
  Regex.exec pairComponentPattern f = None ->
  decodeVirtualPairComponent env f = Return None.
Proof. unfold decodeVirtualPairComponent. intros ->. reflexivity. Qed.

Lemma decodeVirtualPairComponent_shaped (f h j : jsstring) :
  pairShaped f h j ->
  decodeVirtualPairComponent env f
  = (do decoded <- URI.decodeURIComponent j ;;
     Return (Some
       {| relativeHBSModule := explicitRelative env (Path.dirname f) h;
          relativeJSModule := if isEmpty decoded then None else Some decoded;
          debugName :=
            Regex.replace scriptExtensionPattern
              (Path.basename (explicitRelative env (Path.dirname f) h)) [] |})).
Proof.
  intros Hshape. unfold decodeVirtualPairComponent.
  destruct (PairPattern.exec_shaped f h j Hshape) as [m [-> [-> ->]]].
  reflexivity.
Qed.

Lemma decodeVirtualPairComponent_cases (f : jsstring) :
  (decodeVirtualPairComponent env f = Return None
   /\ matchesPair f = false /\ forall h j, ~ pairShaped f h j)
  \/ (exists h j p, pairShaped f h j /\ matchesPair f = true
                    /\ (exists d, URI.decodeURIComponent j = Return d)
                    /\ decodeVirtualPairComponent env f = Return (Some p))
  \/ (exists h j, pairShaped f h j /\ matchesPair f = true
                  /\ URI.decodeURIComponent j = Throw URIError
                  /\ decodeVirtualPairComponent env f = Throw URIError).
Proof.
  unfold matchesPair.
  destruct (Regex.exec pairComponentPattern f) as [m|] eqn:Hexec.
  - right. pose proof (PairPattern.exec_some f m Hexec) as Hshape.
    rewrite (decodeVirtualPairComponent_shaped _ _ _ Hshape).
    destruct (URI.decodeURIComponent (group "jsModule" m)) as [d|e] eqn:Hd.
    + left. do 3 eexists. split; [exact Hshape|]. split; [reflexivity|].
      split; [exists d; exact Hd | reflexivity].
    + right. pose proof (URIFacts.decode_throws _ _ Hd) as ->.
      do 2 eexists. split; [exact Hshape|]. split; [reflexivity|].
      split; [exact Hd | reflexivity].
  - left. split; [apply decodeVirtualPairComponent_none; exact Hexec|].
    split; [reflexivity|]. intros h j. apply PairPattern.exec_none. exact Hexec.
Qed.

End Decoders.

(** ** The dispatcher *)

(** C3, as the code has it. The paired-component pattern and the
    implicit-modules suffixes never recognise the same filename, and the
    two implicit-modules suffixes exclude each other; each other pair of
    decoders has filenames that both recognise, and one filename can be
    recognised by three decoders at once (never by four).  [virtualContent]
    uses the first that recognises the filename in the order external
    prefix, paired component, fastboot switch, implicit modules, whatever
    the later ones would say. *)
Theorem decoder_overlap :
  (forall filename, matchesPair filename && matchesImplicit filename = false)
  /\ (forall filename,
         endsWith filename implicitModulesSuffix
         && endsWith filename implicitTestModulesSuffix = false)
  /\ (forall filename, matchCount filename <= 3)
  /\ (exists filename, matchesExternal filename && matchesPair filename = true)
  /\ (exists filename, matchesExternal filename && matchesFastboot filename = true)
  /\ (exists filename, matchesExternal filename && matchesImplicit filename = true)
  /\ (exists filename, matchesPair filename && matchesFastboot filename = true)
  /\ (exists filename, matchesFastboot filename && matchesImplicit filename = true)
  /\ (exists filename, matchCount filename = 3)
  /\ (forall (env : Collaborators) (resolver : Resolver) (filename : jsstring),
         (matchesExternal filename = true ->
          virtualContent env filename resolver
          = Return (externalShim env
                      (sliceFrom (length externalPrefix) filename)))
         /\ (matchesExternal filename = false -> matchesPair filename = true ->
             (exists p,
                 decodeVirtualPairComponent env filename = Return (Some p)
                 /\ virtualContent env filename resolver
                    = Return (pairedComponentShim env p))
             \/ (decodeVirtualPairComponent env filename = Throw URIError
                 /\ virtualContent env filename resolver = Throw URIError))
         /\ (matchesExternal filename = false -> matchesPair filename = false ->
             matchesFastboot filename = true ->
             exists fb,
               decodeFastbootSwitch filename = Some fb
               /\ virtualContent env filename resolver
                  = Return (fastbootSwitchTemplate env fb))
         /\ (matchesExternal filename = false -> matchesPair filename = false ->
             matchesFastboot filename = false ->
             matchesImplicit filename = true ->
             exists im,
               decodeImplicitModules filename = Some im
               /\ virtualContent env filename resolver
                  = renderImplicitModules env im resolver)).
Proof.
  split; [exact pair_excludes_implicit|]. split; [|split].
  - intros f.
    destruct (endsWith f implicitModulesSuffix) eqn:H1; [|reflexivity].
    destruct (endsWith f implicitTestModulesSuffix) eqn:H2; [|reflexivity].
    pose proof (endsWith_both _ _ _ H1 H2) as H. vm_compute in H.
    exfalso. assert (Hf : false = true) by (apply H; lia). discriminate.
  - intros f. pose proof (pair_excludes_implicit f) as H. unfold matchCount.
    destruct (matchesExternal f), (matchesPair f), (matchesFastboot f),
      (matchesImplicit f); simpl in *; try lia; discriminate.
  - split; [|split; [|split; [|split; [|split; [|split]]]]].
    + exists (lit "/@embroider/external/a/b/embroider-pair-component").
      vm_compute. reflexivity.
    + exists (lit "/@embroider/external/a/embroider_fastboot_switch").
      vm_compute. reflexivity.
    + exists (lit "/@embroider/external/a/#embroider-implicit-modules").
      vm_compute. reflexivity.
    + exists (lit "/a/embroider_fastboot_switch?names=x/y/embroider-pair-component").
      vm_compute. reflexivity.
    + exists (lit "/a/embroider_fastboot_switch?names=x/#embroider-implicit-modules").
      vm_compute. reflexivity.
    + exists (lit "/@embroider/external/a/embroider_fastboot_switch?names=x/#embroider-implicit-modules").
      vm_compute. reflexivity.
    + intros env resolver f.
      unfold virtualContent, matchesFastboot, matchesImplicit.
      fold (matchesExternal f).
      destruct (matchesExternal f) eqn:Hext.
      { repeat split; intros; try discriminate; reflexivity. }
      destruct (decodeVirtualPairComponent_cases env f)
        as [[Hr [Hmp _]] | [[h [j [p [Hs [Hmp [_ Hr]]]]]] | [h [j [Hs [Hmp [Hd Hr]]]]]]];
        rewrite Hr, Hmp; unfold bind.
      * split; [discriminate|]. split; [discriminate|].
        destruct (decodeFastbootSwitch f) as [fb|].
        { split; [|discriminate]. intros _ _ _. exists fb. auto. }
        split; [discriminate|].
        destruct (decodeImplicitModules f) as [im|]; [|discriminate].
        intros _ _ _ _. exists im. auto.
      * split; [discriminate|].
        split; [intros _ _; left; exists p; auto|].
        split; discriminate.
      * split; [discriminate|].
        split; [intros _ _; right; auto|].
        split; discriminate.
Qed.

(** C3, against the claim as stated: three of the four decoders recognise
    this one filename. *)
Lemma decoder_exclusivity_counterexample :
  let filename :=
    lit "/@embroider/external/a/embroider_fastboot_switch?names=x/y/embroider-pair-component" in
  matchesExternal filename = true
  /\ matchesPair filename = true
  /\ matchesFastboot filename = true
  /\ matchCount filename = 3.
Proof. vm_compute. repeat split. Qed.

(** C4, as the code has it. [virtualContent] tries the external prefix, the
    paired-component decoder, the fastboot-switch decoder and the
    implicit-modules decoder in this order and renders with the generator
    of the first that recognises the filename; when none does it throws
    the "not a virtual file" error that carries the filename.  It throws in
    three more cases only: the error of the implicit-modules generator for
    an owning package that is not a v2 Ember package; the [URIError] of the
    paired-component decoder for a filename of the paired-component shape
    whose embedded segment is not a well-formed percent-encoding; and the
    [TypeError] of the implicit-modules aggregator, for an owning v2 Ember
    package with a dependency one of whose implicit modules is looked up in
    the inverted [renamed-modules] under the name of a property of
    [Object.prototype]. *)
Theorem dispatcher_contract :
  forall (env : Collaborators) (resolver : Resolver) (filename : jsstring),
    (matchesExternal filename = true ->
     virtualContent env filename resolver
     = Return (externalShim env (sliceFrom (length externalPrefix) filename)))
    /\ (matchesExternal filename = false ->
        forall m, decodeVirtualPairComponent env filename = Return (Some m) ->
                  virtualContent env filename resolver
                  = Return (pairedComponentShim env m))
    /\ (matchesExternal filename = false -> matchesPair filename = false ->
        forall fb, decodeFastbootSwitch filename = Some fb ->
                   virtualContent env filename resolver
                   = Return (fastbootSwitchTemplate env fb))
    /\ (matchesExternal filename = false -> matchesPair filename = false ->
        matchesFastboot filename = false ->
        forall im, decodeImplicitModules filename = Some im ->
                   virtualContent env filename resolver
                   = renderImplicitModules env im resolver)
    /\ (matchCount filename = 0 ->
        virtualContent env filename resolver = Throw (notVirtualFile filename))
    /\ (forall e,
           virtualContent env filename resolver = Throw e ->
           (e = notVirtualFile filename /\ matchCount filename = 0)
           \/ (exists im, decodeImplicitModules filename = Some im
                          /\ e = implicitModulesBug (fromFile im)
                          /\ ~ ownedByV2Ember resolver (fromFile im))
           \/ (e = URIError
               /\ matchesExternal filename = false
               /\ exists h j, pairShaped filename h j
                              /\ URI.decodeURIComponent j = Throw URIError)
           \/ (e = TypeError
               /\ matchesExternal filename = false
               /\ matchesPair filename = false
               /\ matchesFastboot filename = false
               /\ exists im pkg,
                    decodeImplicitModules filename = Some im
                    /\ ownerOfFile resolver (fromFile im) = Some pkg
                    /\ isV2Ember pkg = true
                    /\ existsb (visitThrows env (type im)
                                            (resolvableExtensions resolver) pkg)
                               (dependencies pkg) = true)).
Proof.
  intros env resolver f.
  unfold virtualContent, matchCount, matchesFastboot, matchesImplicit.
  fold (matchesExternal f).
  destruct (matchesExternal f) eqn:Hext.
  { repeat split; intros; try discriminate; try reflexivity. }
  destruct (decodeVirtualPairComponent_cases env f)
    as [[Hr [Hmp _]] | [[h [j [p [Hs [Hmp [_ Hr]]]]]] | [h [j [Hs [Hmp [Hd Hr]]]]]]];
    rewrite Hr, Hmp; unfold bind.
  - destruct (decodeFastbootSwitch f) as [fb|] eqn:Hfb.
    { repeat split; intros; try discriminate; try reflexivity; congruence. }
    destruct (decodeImplicitModules f) as [im|] eqn:Him.
    { repeat split; intros; try discriminate; try reflexivity; try congruence.
      destruct (renderImplicitModules_cases env im resolver)
        as [[pkg [text [_ [_ [_ Ht]]]]] | [[pkg [Ho [Hv [He Ht]]]] | [Hn Ht]]];
        match goal with H : renderImplicitModules _ _ _ = Throw _ |- _ =>
          rewrite Ht in H; try discriminate; injection H as <- end.
      - right. right. right. split; [reflexivity|]. split; [reflexivity|].
        split; [reflexivity|]. split; [reflexivity|]. exists im, pkg. auto.
      - right. left. exists im. auto. }
    repeat split; intros; try discriminate; try reflexivity.
    left. split; [|reflexivity].
    match goal with H : Throw _ = Throw _ |- _ => injection H as <- end.
    reflexivity.
  - repeat split; intros; try discriminate; try reflexivity; congruence.
  - repeat split; intros; try discriminate; try reflexivity.
    right. right. left. split; [congruence|]. split; [reflexivity|].
    exists h, j. auto.
Qed.

(** C4, against the claim as stated: the first filename starts the
    paired-component branch, and what [virtualContent] throws is the
    [URIError] of [decodeURIComponent]; the second is an implicit-modules
    filename whose owner is a v2 Ember package, and what [virtualContent]
    throws is the [TypeError] of the aggregator, whose lookup of [toString]
    in the inverted [renamed-modules] finds [Object.prototype.toString].
    Neither is the "not a virtual file" error or the error of the
    implicit-modules generator. *)
Lemma dispatcher_errors_counterexample :
  virtualContent specCollaborators (lit "/a/%/embroider-pair-component")
                 sampleResolver
  = Throw URIError
  /\ implicit_modules sampleInheritedMeta = Some [lit "../toString.js"]
  /\ renamed_modules sampleInheritedMeta = Some []
  /\ isV2Ember sampleInheritedApp = true
  /\ virtualContent specCollaborators
                    (lit "/app/index.js/#embroider-implicit-modules")
                    sampleInheritedResolver
     = Throw TypeError.
Proof. vm_compute. repeat split. Qed.

(** ** The fastboot-switch pattern *)

Module FastbootPattern.
Import Regex RegexFacts.

(** A class that accepts the whole rest of the input takes it all when
    the continuation wants the end of the input. *)
Lemma star_all cc s pos caps k r :
  forallb (cmatch cc) s = true ->
  k (pos + length s) [] caps = Some r ->
  star cc pos s caps k = Some r.
Proof.
  intros Hs Hk.
  apply (star_first cc s pos caps k r s []);
    [symmetry; apply app_nil_r | exact Hs | exact Hk |].
  intros w2 s2 H _ Hlen. apply (f_equal (@length N)) in H.
  rewrite length_app in H. lia.
Qed.

Lemma noSlash_In (s : jsstring) : noSlash s = true -> ~ In 47%N s.
Proof.
  unfold noSlash. rewrite forallb_forall. intros H Hin.
  specialize (H _ Hin). rewrite N.eqb_refl in H. discriminate.
Qed.

(** Past the only slash of [47 :: t], no suffix starts with a slash. *)
Lemma split_past_slash (a t w2 s2 : jsstring) :
  noSlash t = true ->
  a ++ 47%N :: t = w2 ++ s2 -> length a < length w2 ->
  match s2 with
  | [] => True
  | d :: _ => d <> 47%N
  end.
Proof.
  intros Ht H Hlen.
  assert (Hs2 : exists u, t = u ++ s2).
  { revert w2 H Hlen. induction a as [|x a IH]; intros [|y w2] H Hlen;
      simpl in *; try lia.
    - injection H as _ H. exists w2. exact H.
    - injection H as _ H. apply (IH w2 H). lia. }
  destruct Hs2 as [u ->]. destruct s2 as [|d s2]; [exact I|].
  intros ->. apply (noSlash_In _ Ht). apply in_or_app. right. left. reflexivity.
Qed.

Lemma stripPrefix_no_slash (p s : jsstring) :
  match s with [] => True | d :: _ => d <> 47%N end ->
  stripPrefix (47%N :: p) s = None.
Proof.
  destruct s as [|d s]; cbn [stripPrefix]; [reflexivity|]. intros Hd.
  destruct (N.eqb_spec 47 d); [congruence | reflexivity].
Qed.

Lemma includesString_spec (s p : jsstring) :
  includesString s p = true <-> exists a b, s = a ++ p ++ b.
Proof.
  split.
  - induction s as [|c s IH]; cbn [includesString]; intros H;
      apply orb_true_iff in H as [H|H]; try discriminate.
    + apply startsWith_spec in H as [r ->]. exists [], r. reflexivity.
    + apply startsWith_spec in H as [r ->]. exists [], r. reflexivity.
    + destruct (IH H) as [a [b ->]]. exists (c :: a), b. reflexivity.
  - intros [a [b ->]]. induction a as [|c a IH].
    + cbn [app]. destruct (p ++ b) eqn:E; cbn [includesString];
        rewrite <- E, startsWith_app; reflexivity.
    + cbn [app includesString]. rewrite IH. apply orb_true_r.
Qed.

(** Behind a prefix without a slash the suffix occurs only where it
    occurs in the rest. *)
Lemma includesString_past (pre s : jsstring) :
  noSlash pre = true ->
  includesString s fastbootSwitchSuffix = false ->
  includesString (pre ++ s) fastbootSwitchSuffix = false.
Proof.
  intros Hpre Hs. induction pre as [|c pre IH]; [exact Hs|].
  cbn [noSlash forallb] in Hpre. apply andb_true_iff in Hpre as [Hc Hpre].
  cbn [app includesString]. rewrite (IH Hpre), orb_false_r.
  change fastbootSwitchSuffix with (47%N :: lit "embroider_fastboot_switch").
  cbn [startsWith]. apply negb_true_iff in Hc. rewrite N.eqb_sym, Hc.
  reflexivity.
Qed.

Lemma noSlash_includesString (s : jsstring) :
  noSlash s = true -> includesString s fastbootSwitchSuffix = false.
Proof.
  intros H. rewrite <- (app_nil_r s). apply includesString_past; [exact H|].
  reflexivity.
Qed.

(** The suffix does not occur across the commas of a list of names in
    which it does not occur. *)
Lemma includesString_join (names : list jsstring) :
  forallb (fun n => negb (includesString n fastbootSwitchSuffix)) names = true ->
  includesString (join (lit ",") names) fastbootSwitchSuffix = false.
Proof.
  intros Hnames.
  destruct (includesString (join (lit ",") names) fastbootSwitchSuffix) eqn:H;
    [|reflexivity].
  exfalso. apply includesString_spec in H as [a [b H]].
  revert a b H. induction names as [|x names IH]; intros a b H.
  - destruct a; discriminate.
  - cbn [forallb] in Hnames. apply andb_true_iff in Hnames as [Hx Hrest].
    apply negb_true_iff in Hx.
    assert (Hin : forall u v, x = u ++ fastbootSwitchSuffix ++ v -> False).
    { intros u v E.
      assert (Ht : includesString x fastbootSwitchSuffix = true)
        by (apply includesString_spec; exists u, v; exact E).
      congruence. }
    destruct names as [|y names]; [exact (Hin _ _ H)|].
    change (join (lit ",") (x :: y :: names))
      with (x ++ 44%N :: join (lit ",") (y :: names)) in H.
    apply app_eq_app in H as [l [[Ha Hb]|[Ha Hb]]].
    + apply app_eq_app in Hb as [m [[Hc Hd]|[Hc Hd]]].
      * destruct m as [|c m].
        { rewrite app_nil_r in Hc. subst l. apply (Hin a []).
          rewrite app_nil_r. exact Ha. }
        injection Hd as <- _.
        assert (Hcomma : In 44%N fastbootSwitchSuffix)
          by (rewrite Hc; apply in_or_app; right; left; reflexivity).
        vm_compute in Hcomma. intuition discriminate.
      * subst l. apply (Hin a m). exact Ha.
    + destruct l as [|c l].
      * cbn [app] in Hb. discriminate.
      * injection Hb as _ Hb. exact (IH Hrest _ _ Hb).
Qed.

(** Past its slash, the suffix does not start again where it does not
    occur. *)
Lemma split_past_occurrence (a t w2 s2 : jsstring) :
  includesString t fastbootSwitchSuffix = false ->
  a ++ 47%N :: t = w2 ++ s2 -> length a < length w2 ->
  stripPrefix fastbootSwitchSuffix s2 = None.
Proof.
  intros Ht H Hlen.
  assert (Hs2 : exists u, t = u ++ s2).
  { revert w2 H Hlen. induction a as [|x a IH]; intros [|y w2] H Hlen;
      simpl in *; try lia.
    - injection H as _ H. exists w2. exact H.
    - injection H as _ H. apply (IH w2 H). lia. }
  destruct Hs2 as [u ->].
  destruct (stripPrefix fastbootSwitchSuffix s2) as [s3|] eqn:Hp; [|reflexivity].
  apply stripPrefix_spec in Hp as ->.
  assert (Hi : includesString (u ++ fastbootSwitchSuffix ++ s3)
                              fastbootSwitchSuffix = true)
    by (apply includesString_spec; exists u, s3; reflexivity).
  congruence.
Qed.

Lemma noLT_cons (c : N) (s : jsstring) :
  noLineTerminator (c :: s) = true ->
  cmatch Dot c = true /\ forallb (cmatch Dot) s = true.
Proof. intros H. apply andb_true_iff in H. exact H. Qed.

(** What a match of the pattern says about the input from its index on. *)
Lemma run_some (pos : nat) (s : jsstring) (e : nat) (caps : captures) :
  run fastbootSwitchPattern pos s [] k0 = Some (e, caps) ->
  exists original query,
    fastbootShaped s original query
    /\ getGroup "original" caps = Some original
    /\ getGroup "names" caps = query.
Proof.
  unfold fastbootSwitchPattern. cbn [run].
  destruct s as [|c s]; [discriminate|].
  destruct (cmatch Dot c) eqn:Hc; [|discriminate].
  intros H. apply star_some in H as [w [s2 [-> [Hw Hk]]]]. cbv beta in Hk.
  destruct (stripPrefix (lit "/embroider_fastboot_switch") s2) as [s3|] eqn:Hp;
    [|discriminate].
  apply stripPrefix_spec in Hp as ->.
  assert (Ho : forall x, firstn (S pos + length w - pos) (c :: w ++ x) = c :: w).
  { intros x. replace (S pos + length w - pos) with (length (c :: w))
      by (cbn [length]; lia).
    apply (firstn_length_app _ (c :: w)). }
  assert (Hnl : noLineTerminator (c :: w) = true).
  { unfold noLineTerminator. cbn [forallb].
    change (negb (isLineTerminator c)) with (cmatch Dot c). rewrite Hc. exact Hw. }
  exists (c :: w).
  destruct (stripPrefix (lit "?names=") s3) as [s4|] eqn:Hq.
  - apply stripPrefix_spec in Hq as ->.
    destruct s4 as [|c0 s4]; [discriminate|].
    destruct (cmatch Dot c0) eqn:Hc0; [|discriminate].
    match type of Hk with
    | match ?X with _ => _ end = _ =>
        destruct X as [r'|] eqn:Hstar; [|discriminate]
    end.
    injection Hk as ->.
    apply star_some in Hstar as [w' [s5 [-> [Hw' Hk']]]]. cbv beta in Hk'.
    match type of Hk' with
    | (if ?b then _ else _) = _ => destruct b; [discriminate|]
    end.
    destruct s5; [|discriminate]. unfold k0 in Hk'. injection Hk' as <- <-.
    exists (Some (c0 :: w')). split; [|split].
    + split; [discriminate|]. split; [exact Hnl|]. rewrite app_nil_r.
      split; [reflexivity|]. split; [discriminate|].
      unfold noLineTerminator. cbn [forallb].
      change (negb (isLineTerminator c0)) with (cmatch Dot c0). rewrite Hc0.
      exact Hw'.
    + cbn [getGroup String.eqb Ascii.eqb Bool.eqb]. rewrite Ho. reflexivity.
    + cbn [getGroup String.eqb Ascii.eqb Bool.eqb]. f_equal.
      rewrite app_nil_r.
      match goal with
      | |- firstn ?n _ = _ =>
          replace n with (length (c0 :: w'))
      end.
      * apply firstn_all.
      * replace (pos + length w + 26 + 7) with (S (pos + length w + 32)) by lia.
        cbn [length]. lia.
  - destruct s3; [|discriminate]. unfold k0 in Hk. injection Hk as <- <-.
    exists None. split; [|split].
    + split; [discriminate|]. split; [exact Hnl|]. rewrite app_nil_r. reflexivity.
    + cbn [getGroup String.eqb Ascii.eqb Bool.eqb]. rewrite Ho. reflexivity.
    + reflexivity.
Qed.

(** A match never spans a line terminator. *)
Lemma run_noLT (pos : nat) (s : jsstring) (r : result) :
  run fastbootSwitchPattern pos s [] k0 = Some r ->
  noLineTerminator s = true.
Proof.
  unfold fastbootSwitchPattern. cbn [run].
  destruct s as [|c s]; [discriminate|].
  destruct (cmatch Dot c) eqn:Hc; [|discriminate].
  intros H. apply star_some in H as [w [s2 [-> [Hw Hk]]]]. cbv beta in Hk.
  destruct (stripPrefix (lit "/embroider_fastboot_switch") s2) as [s3|] eqn:Hp;
    [|discriminate].
  apply stripPrefix_spec in Hp as ->.
  assert (Hs3 : noLineTerminator s3 = true).
  { destruct (stripPrefix (lit "?names=") s3) as [s4|] eqn:Hq.
    - apply stripPrefix_spec in Hq as ->.
      destruct s4 as [|c0 s4]; [discriminate|].
      destruct (cmatch Dot c0) eqn:Hc0; [|discriminate].
      match type of Hk with
      | match ?X with _ => _ end = _ =>
          destruct X as [r'|] eqn:Hstar; [|discriminate]
      end.
      apply star_some in Hstar as [w' [s5 [-> [Hw' Hk']]]]. cbv beta in Hk'.
      match type of Hk' with
      | (if ?b then _ else _) = _ => destruct b; [discriminate|]
      end.
      destruct s5; [|discriminate].
      rewrite app_nil_r. unfold noLineTerminator.
      rewrite forallb_app. cbn [forallb].
      change (forallb (fun c => negb (isLineTerminator c)) (lit "?names="))
        with true.
      change (negb (isLineTerminator c0)) with (cmatch Dot c0). rewrite Hc0.
      exact Hw'.
    - destruct s3; [reflexivity | discriminate]. }
  unfold noLineTerminator in *. cbn [forallb].
  change (negb (isLineTerminator c)) with (cmatch Dot c). rewrite Hc.
  rewrite !forallb_app.
  change (forallb (fun c => negb (isLineTerminator c))
                  (lit "/embroider_fastboot_switch")) with true.
  rewrite Hs3. cbn [andb]. rewrite andb_true_r. exact Hw.
Qed.

Lemma lastLine_length (s : jsstring) : length (lastLine s) <= length s.
Proof.
  induction s as [|c s IH]; cbn [lastLine]; [lia|].
  destruct (noLineTerminator (c :: s)); simpl; lia.
Qed.

Lemma lastLine_noLT (s : jsstring) : noLineTerminator (lastLine s) = true.
Proof.
  induction s as [|c s IH]; cbn [lastLine]; [reflexivity|].
  destruct (noLineTerminator (c :: s)) eqn:H; [exact H | exact IH].
Qed.

Lemma lastLine_id (s : jsstring) :
  noLineTerminator s = true -> lastLine s = s.
Proof. destruct s as [|c s]; cbn [lastLine]; [reflexivity|]. intros ->. reflexivity. Qed.

Lemma lastLine_app (s t : jsstring) :
  noLineTerminator t = true -> lastLine (s ++ t) = lastLine s ++ t.
Proof.
  intros Ht. induction s as [|c s IH]; [apply lastLine_id; exact Ht|].
  change ((c :: s) ++ t) with (c :: (s ++ t)). cbn [lastLine].
  change (c :: s ++ t) with ((c :: s) ++ t).
  unfold noLineTerminator at 1. rewrite forallb_app.
  fold (noLineTerminator (c :: s)). fold (noLineTerminator t). rewrite Ht, andb_true_r.
  destruct (noLineTerminator (c :: s)); [reflexivity | exact IH].
Qed.

Lemma lastLine_nonempty (s : jsstring) :
  s <> [] -> endsWithLineTerminator s = false -> lastLine s <> [].
Proof.
  induction s as [|c s IH]; [congruence|]. intros _ Hend. cbn [lastLine].
  destruct (noLineTerminator (c :: s)) eqn:Hnl; [discriminate|].
  destruct s as [|d s].
  - unfold endsWithLineTerminator in Hend. cbn [last] in Hend.
    unfold noLineTerminator in Hnl. cbn [forallb] in Hnl.
    rewrite Hend in Hnl. discriminate.
  - apply IH; [discriminate | exact Hend].
Qed.

(** The search skips every start that has a line terminator ahead. *)
Lemma search_lastLine (s : jsstring) : forall pos,
  search fastbootSwitchPattern pos s
  = search fastbootSwitchPattern (pos + (length s - length (lastLine s)))
           (lastLine s).
Proof.
  induction s as [|c s IH]; intros pos; cbn [lastLine].
  - rewrite Nat.add_0_r. reflexivity.
  - destruct (noLineTerminator (c :: s)) eqn:Hnl.
    + rewrite Nat.sub_diag, Nat.add_0_r. reflexivity.
    + cbn [search]. fold k0.
      destruct (run fastbootSwitchPattern pos (c :: s) [] k0) as [r|] eqn:Hrun.
      * apply run_noLT in Hrun. congruence.
      * rewrite IH. f_equal. pose proof (lastLine_length s). simpl length. lia.
Qed.

(** The filename without a query. *)
Lemma run_plain (pos : nat) (original : jsstring) :
  original <> [] -> noLineTerminator original = true ->
  exists e,
    run fastbootSwitchPattern pos (original ++ fastbootSwitchSuffix) [] k0
    = Some (e, [("original"%string, original)]).
Proof.
  intros Hne Hnl. destruct original as [|c0 R]; [congruence|].
  apply noLT_cons in Hnl as [Hc0 HR].
  eexists.
  change ((c0 :: R) ++ fastbootSwitchSuffix)
    with (c0 :: (R ++ fastbootSwitchSuffix)).
  unfold fastbootSwitchPattern. cbn [run]. rewrite Hc0.
  apply (star_first Dot _ (S pos) [] _ _ R fastbootSwitchSuffix);
    [reflexivity | exact HR | |].
  - cbv beta. fold fastbootSwitchSuffix.
    change (stripPrefix fastbootSwitchSuffix fastbootSwitchSuffix)
      with (Some (@nil N)).
    change (stripPrefix (lit "?names=") []) with (@None jsstring).
    cbv beta iota. unfold k0.
    replace (S pos + length R - pos) with (S (length R)) by lia.
    change (c0 :: R ++ fastbootSwitchSuffix)
      with ((c0 :: R) ++ fastbootSwitchSuffix).
    rewrite (firstn_length_app _ (c0 :: R)). reflexivity.
  - intros w2 s2 H _ Hlen. cbv beta.
    change (lit "/embroider_fastboot_switch")
      with (47%N :: lit "embroider_fastboot_switch").
    rewrite stripPrefix_no_slash; [reflexivity|].
    apply (split_past_slash R (lit "embroider_fastboot_switch") w2 s2);
      [reflexivity | exact H | exact Hlen].
Qed.

(** The filename with a query. *)
Lemma run_names (pos : nat) (original query : jsstring) :
  original <> [] -> noLineTerminator original = true ->
  query <> [] -> noLineTerminator query = true ->
  includesString query fastbootSwitchSuffix = false ->
  exists e,
    run fastbootSwitchPattern pos
        (original ++ fastbootSwitchSuffix ++ lit "?names=" ++ query) [] k0
    = Some (e, [("names"%string, query); ("original"%string, original)]).
Proof.
  intros Hne Hnl Hq Hqnl Hqs.
  destruct original as [|c0 R]; [congruence|].
  destruct query as [|cj J]; [congruence|].
  apply noLT_cons in Hnl as [Hc0 HR].
  apply noLT_cons in Hqnl as [Hcj HJ].
  eexists.
  change ((c0 :: R) ++ ?x) with (c0 :: (R ++ x)).
  unfold fastbootSwitchPattern. cbn [run]. rewrite Hc0.
  apply (star_first Dot _ (S pos) [] _ _ R
           (fastbootSwitchSuffix ++ lit "?names=" ++ cj :: J));
    [reflexivity | exact HR | |].
  - cbv beta. fold fastbootSwitchSuffix.
    rewrite !stripPrefix_app. rewrite Hcj.
    erewrite star_all; [reflexivity | exact HJ |].
    cbv beta.
    try change (length fastbootSwitchSuffix) with 26.
    try change (length (lit "/embroider_fastboot_switch")) with 26.
    change (length (lit "?names=")) with 7.
    match goal with
    | |- (if ?a =? ?b then _ else _) = _ =>
        replace (a =? b) with false by (symmetry; apply Nat.eqb_neq; lia)
    end.
    unfold k0. do 3 f_equal.
    + f_equal.
      match goal with
      | |- firstn ?n _ = _ =>
          replace n with (length (cj :: J)) by (cbn [length]; lia)
      end.
      apply firstn_all.
    + do 2 f_equal.
      replace (S pos + length R - pos) with (length (c0 :: R))
        by (cbn [length]; lia).
      change (c0 :: R ++ ?x) with ((c0 :: R) ++ x).
      apply firstn_length_app.
  - intros w2 s2 H _ Hlen. cbv beta. fold fastbootSwitchSuffix.
    rewrite (split_past_occurrence R
               ((lit "embroider_fastboot_switch" ++ lit "?names=") ++ cj :: J)
               w2 s2); [reflexivity | | | exact Hlen].
    + apply includesString_past; [reflexivity | exact Hqs].
    + rewrite <- app_assoc. exact H.
Qed.

(** [exec] on an encoded filename: the match starts after the last line
    terminator of the original path. *)
Lemma exec_encoded (original rest : jsstring) (caps : captures) :
  lastLine original <> [] ->
  noLineTerminator rest = true ->
  (forall pos, exists e,
      run fastbootSwitchPattern pos (lastLine original ++ rest) [] k0
      = Some (e, caps)) ->
  exists m, exec fastbootSwitchPattern (original ++ rest) = Some m
            /\ groups m = caps.
Proof.
  intros Hne Hrest Hrun. unfold exec.
  rewrite search_lastLine, (lastLine_app _ _ Hrest).
  destruct (Hrun (0 + (length (original ++ rest)
                       - length (lastLine original ++ rest)))) as [e He].
  destruct (lastLine original) as [|c B]; [congruence|].
  change ((c :: B) ++ rest) with (c :: (B ++ rest)) in *.
  cbn [search]. fold k0. rewrite He. eexists. split; reflexivity.
Qed.

End FastbootPattern.

(** ** What the other decoders return *)

(** What [decodeFastbootSwitch] returns is read off the filename. *)
Lemma decodeFastbootSwitch_some (f : jsstring) (fb : FastbootSwitch) :
  decodeFastbootSwitch f = Some fb ->
  exists before s query,
    f = before ++ s
    /\ fastbootShaped s (filename fb) query
    /\ names fb = filter notDefault (queryNames query)
    /\ hasDefaultExport fb = includes (queryNames query) (lit "default").
Proof.
  unfold decodeFastbootSwitch, Regex.exec.
  destruct (Regex.search fastbootSwitchPattern 0 f) as [m|] eqn:Hs;
    [|discriminate].
  intros H. injection H as <-.
  apply RegexFacts.search_some in Hs as [before [s [-> [_ Hrun]]]].
  apply FastbootPattern.run_some in Hrun as [original [query [Hshape [Ho Hn]]]].
  exists before, s, query. unfold group. rewrite Ho, Hn.
  cbn [filename names hasDefaultExport]. split; [reflexivity|].
  split; [exact Hshape|]. split; reflexivity.
Qed.

Lemma decodeImplicitModules_spec (f : jsstring) (im : ImplicitModulesRequest) :
  decodeImplicitModules f = Some im
  <-> f = fromFile im ++ implicitSuffix (type im).
Proof.
  unfold decodeImplicitModules. split.
  - destruct (endsWith f implicitModulesSuffix) eqn:H1.
    + apply endsWith_spec in H1 as [r ->]. rewrite sliceDropEnd_app.
      intros H. injection H as <-. reflexivity.
    + destruct (endsWith f implicitTestModulesSuffix) eqn:H2; [|discriminate].
      apply endsWith_spec in H2 as [r ->]. rewrite sliceDropEnd_app.
      intros H. injection H as <-. reflexivity.
  - destruct im as [t r]. cbn [fromFile type]. intros ->. destruct t.
    + replace (endsWith (r ++ implicitSuffix ImplicitModules) implicitModulesSuffix)
        with true by (symmetry; apply endsWith_spec; exists r; reflexivity).
      cbn [implicitSuffix]. rewrite sliceDropEnd_app. reflexivity.
    + assert (H2 : endsWith (r ++ implicitSuffix ImplicitTestModules)
                            implicitTestModulesSuffix = true)
        by (apply endsWith_spec; exists r; reflexivity).
      destruct (endsWith (r ++ implicitSuffix ImplicitTestModules)
                         implicitModulesSuffix) eqn:H1.
      * pose proof (endsWith_both _ _ _ H1 H2) as H. vm_compute in H.
        assert (Hf : false = true) by (apply H; lia). discriminate.
      * rewrite H2. cbn [implicitSuffix]. rewrite sliceDropEnd_app. reflexivity.
Qed.

(** C5, as the code has it. The paired-component decoder returns "no
    match" exactly for the filenames that are not of the pattern's shape,
    returns its parameters exactly when the filename has that shape and its
    embedded segment percent-decodes, and throws [URIError], and nothing
    else, exactly when the filename has the shape and the segment is
    malformed; without a percent sign in the filename it never throws.
    The three other decoders have no throwing step: the fastboot-switch
    decoder returns "no match" or parameters read off the filename, the
    implicit-modules decoder returns parameters exactly for a filename that
    ends in one of its two suffixes, and the external prefix test holds
    exactly for the filenames of [virtualExternalModule]. *)
Theorem decoders_total_but_for_malformed_escapes :
  forall (env : Collaborators) (f : jsstring),
    (decodeVirtualPairComponent env f = Return None
     <-> forall h j, ~ pairShaped f h j)
    /\ ((exists p, decodeVirtualPairComponent env f = Return (Some p))
        <-> exists h j d, pairShaped f h j
                          /\ URI.decodeURIComponent j = Return d)
    /\ (forall e, decodeVirtualPairComponent env f = Throw e
                  <-> e = URIError
                      /\ exists h j, pairShaped f h j
                                     /\ URI.decodeURIComponent j = Throw URIError)
    /\ (~ In 37%N f ->
        exists r, decodeVirtualPairComponent env f = Return r)
    /\ (forall fb, decodeFastbootSwitch f = Some fb ->
                   exists before s query,
                     f = before ++ s
                     /\ fastbootShaped s (filename fb) query
                     /\ names fb = filter notDefault (queryNames query)
                     /\ hasDefaultExport fb
                        = includes (queryNames query) (lit "default"))
    /\ (forall im, decodeImplicitModules f = Some im
                   <-> f = fromFile im ++ implicitSuffix (type im))
    /\ (matchesExternal f = true
        <-> exists moduleName, f = virtualExternalModule moduleName).
Proof.
  intros env f.
  assert (Hrest :
    (forall fb, decodeFastbootSwitch f = Some fb ->
                exists before s query,
                  f = before ++ s
                  /\ fastbootShaped s (filename fb) query
                  /\ names fb = filter notDefault (queryNames query)
                  /\ hasDefaultExport fb
                     = includes (queryNames query) (lit "default"))
    /\ (forall im, decodeImplicitModules f = Some im
                   <-> f = fromFile im ++ implicitSuffix (type im))
    /\ (matchesExternal f = true
        <-> exists moduleName, f = virtualExternalModule moduleName)).
  { split; [exact (decodeFastbootSwitch_some f)|].
    split; [exact (decodeImplicitModules_spec f)|].
    apply startsWith_spec. }
  assert (Huniq : forall h j h' j' x y,
             pairShaped f h j -> pairShaped f h' j' ->
             URI.decodeURIComponent j = x -> URI.decodeURIComponent j' = y ->
             x = y).
  { intros h j h' j' x y H1 H2 <- <-.
    destruct (PairPattern.shape_unique _ _ _ _ _ H1 H2) as [_ ->]. reflexivity. }
  destruct (decodeVirtualPairComponent_cases env f)
    as [[Hr [_ Hno]] | [[h [j [p [Hs [_ [[d Hd] Hr]]]]]] | [h [j [Hs [_ [Hd Hr]]]]]]].
  - split; [tauto|]. split; [|split; [|split]].
    + split; [intros [p Hp]; congruence|].
      intros [h [j [d [Hs _]]]]. exfalso. exact (Hno h j Hs).
    + intros e. split; [congruence|].
      intros [_ [h [j [Hs _]]]]. exfalso. exact (Hno h j Hs).
    + intros _. eexists; exact Hr.
    + exact Hrest.
  - split; [|split; [|split; [|split]]].
    + split; [congruence|]. intros Hno. exfalso. exact (Hno h j Hs).
    + split; [intros _; exists h, j, d; auto|]. intros _. exists p. exact Hr.
    + intros e. split; [congruence|].
      intros [_ [h' [j' [Hs' Hd']]]].
      pose proof (Huniq _ _ _ _ _ _ Hs Hs' Hd Hd'). discriminate.
    + intros _. eexists; exact Hr.
    + exact Hrest.
  - split; [|split; [|split; [|split]]].
    + split; [congruence|]. intros Hno. exfalso. exact (Hno h j Hs).
    + split; [intros [p Hp]; congruence|].
      intros [h' [j' [d [Hs' Hd']]]].
      pose proof (Huniq _ _ _ _ _ _ Hs Hs' Hd Hd'). discriminate.
    + intros e. split.
      * intros He. split; [congruence|]. exists h, j. auto.
      * intros [-> _]. exact Hr.
    + intros Hnp. exfalso.
      assert (Hj : ~ In 37%N j).
      { intros Hin. apply Hnp. destruct Hs as [-> _].
        apply in_or_app. right. apply in_or_app. right.
        apply in_or_app. left. exact Hin. }
      rewrite (URIFacts.decode_no_percent _ Hj) in Hd. discriminate.
    + exact Hrest.
Qed.

(** C5, against the claim as stated: the segment [%] is a truncated escape,
    and the paired-component decoder throws on this filename. *)
Lemma decode_totality_counterexample :
  decodeVirtualPairComponent specCollaborators
                             (lit "/a/%/embroider-pair-component")
  = Throw URIError.
Proof. vm_compute. reflexivity. Qed.


(** ** The fastboot-switch round trip *)

Lemma resolve_nonempty (cwd : jsstring) (args : list jsstring) :
  Path.resolve cwd args <> [].
Proof.
  unfold Path.resolve.
  destruct (Path.resolveLoop (rev args ++ [cwd]) []) as [p abs].
  destruct abs; [discriminate|].
  destruct (Path.normalizeString (negb false) p); discriminate.
Qed.

Lemma split_app_sep (sep : N) (x t : jsstring) :
  forallb (fun c => negb (N.eqb c sep)) x = true ->
  split sep (x ++ sep :: t) = x :: split sep t.
Proof.
  induction x as [|c x IH]; intros H; cbn [app split].
  - rewrite N.eqb_refl. reflexivity.
  - cbn [forallb] in H. apply andb_true_iff in H as [Hc Hx].
    apply negb_true_iff in Hc. rewrite Hc, (IH Hx). reflexivity.
Qed.

Lemma split_no_sep (sep : N) (x : jsstring) :
  forallb (fun c => negb (N.eqb c sep)) x = true -> split sep x = [x].
Proof.
  induction x as [|c x IH]; intros H; cbn [split]; [reflexivity|].
  cbn [forallb] in H. apply andb_true_iff in H as [Hc Hx].
  apply negb_true_iff in Hc. rewrite Hc, (IH Hx). reflexivity.
Qed.

Lemma split_join (sep : N) (pieces : list jsstring) :
  pieces <> [] ->
  forallb (fun x => forallb (fun c => negb (N.eqb c sep)) x) pieces = true ->
  split sep (join [sep] pieces) = pieces.
Proof.
  induction pieces as [|x pieces IH]; intros Hne H; [congruence|].
  cbn [forallb] in H. apply andb_true_iff in H as [Hx Hrest].
  destruct pieces as [|y pieces].
  - cbn [join]. apply split_no_sep. exact Hx.
  - change (join [sep] (x :: y :: pieces))
      with (x ++ sep :: join [sep] (y :: pieces)).
    rewrite (split_app_sep _ _ _ Hx), IH; [reflexivity | discriminate | exact Hrest].
Qed.

Lemma forallb_join (P : N -> bool) (sep : jsstring) (pieces : list jsstring) :
  forallb P sep = true ->
  forallb (forallb P) pieces = true ->
  forallb P (join sep pieces) = true.
Proof.
  intros Hsep. induction pieces as [|x pieces IH]; intros H; [reflexivity|].
  cbn [forallb] in H. apply andb_true_iff in H as [Hx Hrest].
  destruct pieces as [|y pieces]; [exact Hx|].
  change (join sep (x :: y :: pieces)) with (x ++ sep ++ join sep (y :: pieces)).
  rewrite !forallb_app, Hx, Hsep, (IH Hrest). reflexivity.
Qed.

Lemma plainName_all (P : N -> bool) (names : list jsstring) :
  (forall c, negb (N.eqb c 44) && negb (N.eqb c 47)
             && negb (isLineTerminator c) = true -> P c = true) ->
  forallb plainName names = true ->
  forallb (forallb P) names = true.
Proof.
  intros HP. rewrite !forallb_forall. intros H n Hn.
  specialize (H n Hn). unfold plainName in H.
  rewrite forallb_forall in *. intros c Hc. apply HP, H, Hc.
Qed.

Lemma join_nonempty (sep : jsstring) (pieces : list jsstring) :
  sep <> [] -> pieces <> [] -> pieces <> [[]] -> join sep pieces <> [].
Proof.
  intros Hsep Hne H1. destruct pieces as [|x [|y rest]]; [congruence| |].
  - cbn [join]. intros ->. apply H1. reflexivity.
  - change (join sep (x :: y :: rest)) with (x ++ sep ++ join sep (y :: rest)).
    destruct x; [|discriminate]. destruct sep; [congruence | discriminate].
Qed.

(** What the names that the filename can carry are made of. *)
Lemma carriableName_all (P : N -> bool) (names : list jsstring) :
  (forall c, negb (N.eqb c 44) && negb (isLineTerminator c) = true ->
             P c = true) ->
  forallb carriableName names = true ->
  forallb (forallb P) names = true.
Proof.
  intros HP. rewrite !forallb_forall. intros H n Hn.
  specialize (H n Hn). unfold carriableName in H.
  apply andb_true_iff in H as [H _].
  rewrite forallb_forall in *. intros c Hc. apply HP, H, Hc.
Qed.

Lemma carriableName_suffix (names : list jsstring) :
  forallb carriableName names = true ->
  forallb (fun n => negb (includesString n fastbootSwitchSuffix)) names = true.
Proof.
  rewrite !forallb_forall. intros H n Hn. specialize (H n Hn).
  unfold carriableName in H. apply andb_true_iff in H as [_ H]. exact H.
Qed.

Lemma plainName_carriable (names : list jsstring) :
  forallb plainName names = true -> forallb carriableName names = true.
Proof.
  rewrite !forallb_forall. intros H n Hn. specialize (H n Hn).
  unfold plainName in H. unfold carriableName. apply andb_true_iff. split.
  - rewrite forallb_forall in *. intros c Hc. specialize (H c Hc).
    apply andb_true_iff in H as [H Hl]. apply andb_true_iff in H as [H _].
    rewrite H, Hl. reflexivity.
  - apply negb_true_iff. apply FastbootPattern.noSlash_includesString.
    unfold noSlash. rewrite forallb_forall in *. intros c Hc.
    specialize (H c Hc). apply andb_true_iff in H as [H _].
    apply andb_true_iff in H as [_ H]. exact H.
Qed.

(** Decoding a resolved path followed by the suffix alone. *)
Lemma decodeFastbootSwitch_plain (original : jsstring) :
  original <> [] -> endsWithLineTerminator original = false ->
  decodeFastbootSwitch (original ++ fastbootSwitchSuffix)
  = Some {| names := []; hasDefaultExport := false;
            filename := lastLine original |}.
Proof.
  intros Hne0 Hend.
  assert (Hne : lastLine original <> [])
    by (apply FastbootPattern.lastLine_nonempty; assumption).
  pose proof (FastbootPattern.lastLine_noLT original) as Hnl.
  destruct (FastbootPattern.exec_encoded original fastbootSwitchSuffix
              [("original"%string, lastLine original)] Hne eq_refl)
    as [m [Hm Hg]].
  { intros pos. exact (FastbootPattern.run_plain pos _ Hne Hnl). }
  unfold decodeFastbootSwitch, group. rewrite Hm, Hg. reflexivity.
Qed.

(** Decoding the filename of [fastbootSwitch]. *)
Lemma decodeFastbootSwitch_encoded (cwd specifier fromFile : jsstring)
      (exported : list jsstring) :
  endsWithLineTerminator
    (Path.resolve cwd [Path.dirname fromFile; specifier]) = false ->
  forallb carriableName exported = true ->
  exported <> [[]] ->
  decodeFastbootSwitch (fastbootSwitch cwd specifier fromFile exported)
  = Some {| names := filter notDefault exported;
            hasDefaultExport := includes exported (lit "default");
            filename :=
              lastLine (Path.resolve cwd [Path.dirname fromFile; specifier]) |}.
Proof.
  set (original := Path.resolve cwd [Path.dirname fromFile; specifier]).
  intros Hend Hplain Hnot.
  assert (Hne : lastLine original <> []).
  { apply FastbootPattern.lastLine_nonempty;
      [apply resolve_nonempty | exact Hend]. }
  pose proof (FastbootPattern.lastLine_noLT original) as Hnl.
  destruct exported as [|n0 rest] eqn:Hexp.
  { exact (decodeFastbootSwitch_plain original
             (resolve_nonempty _ _) Hend). }
  rewrite <- Hexp in *.
  assert (Hnonempty : exported <> []) by (rewrite Hexp; discriminate).
  unfold fastbootSwitch. fold original.
  replace (Nat.ltb 0 (length exported)) with true
    by (rewrite Hexp; reflexivity).
  set (query := join (lit ",") exported).
  assert (Hq : query <> []).
  { apply join_nonempty; [discriminate | exact Hnonempty | exact Hnot]. }
  assert (Hqnl : noLineTerminator query = true).
  { apply forallb_join; [reflexivity|].
    apply carriableName_all; [|exact Hplain].
    intros c Hc. apply andb_true_iff in Hc as [_ Hc]. exact Hc. }
  assert (Hqs : includesString query fastbootSwitchSuffix = false).
  { apply FastbootPattern.includesString_join.
    apply carriableName_suffix. exact Hplain. }
  assert (Hsplit : split 44 query = exported).
  { apply (split_join 44 exported Hnonempty).
    apply carriableName_all; [|exact Hplain].
    intros c Hc. apply andb_true_iff in Hc as [Hc _]. exact Hc. }
  destruct (FastbootPattern.exec_encoded original
              (fastbootSwitchSuffix ++ lit "?names=" ++ query)
              [("names"%string, query); ("original"%string, lastLine original)]
              Hne) as [m [Hm Hg]].
  { unfold noLineTerminator in *. rewrite !forallb_app, Hqnl. reflexivity. }
  { intros pos.
    exact (FastbootPattern.run_names pos _ _ Hne Hnl Hq Hqnl Hqs). }
  unfold decodeFastbootSwitch, group. rewrite <- app_assoc, Hm, Hg.
  cbn [Regex.getGroup String.eqb Ascii.eqb Bool.eqb].
  rewrite Hsplit. reflexivity.
Qed.

(** C2, as the code has it. When the resolved original path does not end
    with a line terminator, no name has a comma or a line terminator in it
    or contains the suffix [/embroider_fastboot_switch], and the set is not
    just the empty name, decoding the filename of [fastbootSwitch] gives
    the names in their order without the literal [default] and
    [hasDefaultExport] exactly when [default] was among them; [filename] is
    the resolved path after its last line terminator, so all of it when it
    has none.  With no names at all there is no query, the list is empty
    and the flag false. *)
Theorem fastboot_roundtrip :
  forall (cwd specifier fromFile : jsstring) (exported : list jsstring),
    let original := Path.resolve cwd [Path.dirname fromFile; specifier] in
    endsWithLineTerminator original = false ->
    forallb carriableName exported = true ->
    exported <> [[]] ->
    decodeFastbootSwitch (fastbootSwitch cwd specifier fromFile exported)
    = Some {| names := filter notDefault exported;
              hasDefaultExport := includes exported (lit "default");
              filename := lastLine original |}
    /\ (noLineTerminator original = true -> lastLine original = original)
    /\ (exported = [] ->
        fastbootSwitch cwd specifier fromFile exported
        = original ++ fastbootSwitchSuffix
        /\ decodeFastbootSwitch (original ++ fastbootSwitchSuffix)
           = Some {| names := []; hasDefaultExport := false;
                     filename := lastLine original |}).
Proof.
  intros cwd specifier fromFile exported original Hend Hplain Hnot.
  split; [|split].
  - exact (decodeFastbootSwitch_encoded cwd specifier fromFile exported
             Hend Hplain Hnot).
  - apply FastbootPattern.lastLine_id.
  - intros ->. split; [reflexivity|].
    exact (decodeFastbootSwitch_plain original (resolve_nonempty _ _) Hend).
Qed.

Lemma fastboot_roundtrip_witness :
  decodeFastbootSwitch
    (fastbootSwitch (lit "/cwd") (lit "./thing") (lit "/pkg/index.js")
                    [lit "a/b"; lit "default"; lit "c/d/e"])
  = Some {| names := [lit "a/b"; lit "c/d/e"]; hasDefaultExport := true;
            filename := lit "/pkg/thing" |}.
Proof.
  refine (proj1 (fastboot_roundtrip (lit "/cwd") (lit "./thing")
                                    (lit "/pkg/index.js")
                                    [lit "a/b"; lit "default"; lit "c/d/e"]
                                    eq_refl eq_refl _)).
  discriminate.
Defined.

(** C2, against the claim as stated: the one name [a,b] of the input set
    comes back as the two names [a] and [b].  Further inputs outside the
    conditions of the theorem: the empty name alone and a name with a line
    feed give a filename that is not recognised; a name that contains the
    suffix is lost; so is everything when the resolved path ends with a
    line feed. *)
Lemma fastboot_roundtrip_counterexample :
  let decoded specifier exported :=
    decodeFastbootSwitch
      (fastbootSwitch (lit "/cwd") specifier (lit "/pkg/index.js") exported) in
  decoded (lit "./thing") [lit "a,b"]
  = Some {| names := [lit "a"; lit "b"]; hasDefaultExport := false;
            filename := lit "/pkg/thing" |}
  /\ decoded (lit "./thing") [[]] = None
  /\ decoded (lit "./thing") [lit "a" ++ [10%N] ++ lit "b"] = None
  /\ decoded (lit "./thing") [lit "x/embroider_fastboot_switch"]
     = Some {| names := []; hasDefaultExport := false;
               filename := lit "/pkg/thing/embroider_fastboot_switch?names=x" |}
  /\ decoded (lit "./thing" ++ [10%N]) [lit "bar"] = None.
Proof. vm_compute. repeat split. Qed.

(** ** Paths *)

Module PathFacts.
Import Path.

Lemma split_nonempty (c : N) (s : jsstring) : split c s <> [].
Proof.
  destruct s as [|d s]; cbn [split]; [discriminate|].
  destruct (N.eqb d c); [discriminate|].
  destruct (split c s); discriminate.
Qed.

Lemma split_app (c : N) (a b : jsstring) :
  split c (a ++ c :: b) = split c a ++ split c b.
Proof.
  induction a as [|d a IH]; cbn [app split].
  - rewrite N.eqb_refl. reflexivity.
  - rewrite IH. destruct (N.eqb d c); [reflexivity|].
    pose proof (split_nonempty c a) as Hne.
    destruct (split c a) as [|seg segs]; [congruence | reflexivity].
Qed.

Lemma split_plain (g : jsstring) :
  noSlash g = true -> split slash g = [g].
Proof. apply split_no_sep. Qed.

(** Up from a plain segment is where one was before it; the same holds
    for the synthetic segment [j] followed by an empty segment. *)
Lemma normalize_through (allow : bool) (g : jsstring)
      (before after : list jsstring) :
  plainSegment g = true ->
  fold_left (normalizeStep allow) (before ++ [g; dotdot] ++ after) []
  = fold_left (normalizeStep allow) (before ++ after) [].
Proof.
  intros Hg. rewrite !fold_left_app. f_equal.
  unfold plainSegment in Hg.
  apply andb_true_iff in Hg as [Hg _].
  apply andb_true_iff in Hg as [Hg Hdd].
  apply andb_true_iff in Hg as [Hne Hd].
  apply negb_true_iff in Hne, Hd, Hdd.
  cbn [fold_left]. unfold normalizeStep at 2. rewrite Hne, Hd, Hdd.
  cbn [orb]. unfold normalizeStep.
  change (isEmpty dotdot) with false. change (str_eqb dotdot dot) with false.
  change (str_eqb dotdot dotdot) with true. cbn [orb]. rewrite Hdd.
  reflexivity.
Qed.

Lemma normalize_through_j (allow : bool) (before after : list jsstring) :
  fold_left (normalizeStep allow)
            (before ++ [lit "j"; []; dotdot] ++ after) []
  = fold_left (normalizeStep allow) (before ++ after) [].
Proof. rewrite !fold_left_app. reflexivity. Qed.

(** The two strings that [resolve] normalizes: the directory of the
    virtual file, or the synthetic directory, followed by the relative
    path. *)
Lemma normalizeString_swap (allow : bool) (prefix g rest : jsstring) :
  plainSegment g = true ->
  normalizeString allow (prefix ++ lit "/" ++ g ++ lit "/" ++ lit "../" ++ rest)
  = normalizeString allow
      (prefix ++ lit "/j/" ++ lit "/" ++ lit "../" ++ rest).
Proof.
  intros Hg. unfold normalizeString. do 2 f_equal.
  assert (Hns : noSlash g = true).
  { unfold plainSegment in Hg. apply andb_true_iff in Hg as [_ Hg]. exact Hg. }
  change (prefix ++ lit "/" ++ g ++ lit "/" ++ lit "../" ++ rest)
    with (prefix ++ slash :: (g ++ slash :: (dotdot ++ slash :: rest))).
  change (prefix ++ lit "/j/" ++ lit "/" ++ lit "../" ++ rest)
    with (prefix ++ slash :: (lit "j" ++ slash :: ([] ++ slash ::
                                (dotdot ++ slash :: rest)))).
  rewrite !split_app, (split_plain g Hns).
  change (split slash (lit "j")) with [lit "j"].
  change (split slash []) with [@nil N].
  change (split slash dotdot) with [dotdot].
  change ([g] ++ [dotdot] ++ split slash rest)
    with ([g; dotdot] ++ split slash rest).
  change ([lit "j"] ++ [[]] ++ [dotdot] ++ split slash rest)
    with ([lit "j"; []; dotdot] ++ split slash rest).
  rewrite (normalize_through allow g _ _ Hg), normalize_through_j.
  reflexivity.
Qed.

(** Resolving a climbing relative path from [hbs/g], for a plain segment
    [g], and from [hbs/j/] gives the same path. *)
Lemma resolve_swap (cwd hbs g rel : jsstring) :
  plainSegment g = true ->
  isAbsolute rel = true \/ climbs rel ->
  resolve cwd [hbs ++ lit "/" ++ g; rel]
  = resolve cwd [hbs ++ lit "/j/"; rel].
Proof.
  intros Hg [Habs | [rest ->]].
  - unfold resolve. cbn [rev app resolveLoop].
    destruct rel as [|c rel]; [discriminate|]. cbn [isEmpty].
    rewrite Habs. reflexivity.
  - unfold resolve. cbn [rev app resolveLoop].
    change (isEmpty (lit "../" ++ rest)) with false.
    change (isAbsolute (lit "../" ++ rest)) with false. cbv iota.
    assert (He1 : isEmpty (hbs ++ lit "/" ++ g) = false)
      by (destruct hbs; reflexivity).
    assert (He2 : isEmpty (hbs ++ lit "/j/") = false)
      by (destruct hbs; reflexivity).
    assert (Ha : isAbsolute (hbs ++ lit "/" ++ g) = isAbsolute (hbs ++ lit "/j/"))
      by (destruct hbs; reflexivity).
    rewrite He1, He2, Ha.
    assert (Hn : forall allow prefix,
               normalizeString allow
                 (prefix ++ (hbs ++ lit "/" ++ g) ++ sep
                  ++ (lit "../" ++ rest) ++ sep ++ [])
               = normalizeString allow
                   (prefix ++ (hbs ++ lit "/j/") ++ sep
                    ++ (lit "../" ++ rest) ++ sep ++ [])).
    { intros allow prefix.
      pose proof (normalizeString_swap allow (prefix ++ hbs) g
                    (rest ++ sep ++ []) Hg) as H.
      repeat rewrite <- app_assoc in H. repeat rewrite <- app_assoc.
      exact H. }
    destruct (isAbsolute (hbs ++ lit "/j/")).
    + rewrite (Hn _ []). reflexivity.
    + destruct (isEmpty cwd).
      * cbn [resolveLoop]. rewrite (Hn _ []). reflexivity.
      * cbn [resolveLoop].
        pose proof (Hn (negb (isAbsolute cwd)) (cwd ++ sep)) as H.
        repeat rewrite <- app_assoc in H. repeat rewrite <- app_assoc.
        destruct (isAbsolute cwd); cbn [negb] in *; rewrite H; reflexivity.
Qed.

(** The directory of a paired-component filename. *)
Lemma dirname_marker (x : jsstring) :
  2 <= length x ->
  dirname (x ++ pairComponentMarker) = x.
Proof.
  intros Hlen. destruct x as [|c0 x]; [simpl in Hlen; lia|].
  unfold dirname. change ((c0 :: x) ++ pairComponentMarker)
    with (c0 :: (x ++ pairComponentMarker)).
  cbv iota. rewrite rev_app_distr.
  assert (He : dirnameEnd (rev pairComponentMarker ++ rev x) true
               = Some (S (length (rev x)))) by reflexivity.
  rewrite He, length_rev.
  replace (Nat.eqb (S (length x)) 1) with false
    by (symmetry; apply Nat.eqb_neq; simpl in Hlen; lia).
  rewrite andb_false_r.
  change (c0 :: x ++ pairComponentMarker)
    with ((c0 :: x) ++ pairComponentMarker).
  apply (firstn_length_app _ (c0 :: x)).
Qed.

End PathFacts.

(** ** The paired-component round trip *)

Lemma encode_wellFormed (s : jsstring) :
  isWellFormed s = true ->
  isString s = true /\ exists e, URI.encodeURIComponent s = Return e.
Proof.
  assert (Hgen : forall n s, length s <= n -> isWellFormed s = true ->
                   isString s = true /\ exists e, URI.encodeURIComponent s = Return e).
  { induction n as [|n IH]; intros [|c s0] Hlen H; simpl in Hlen;
      try lia; try (split; [reflexivity | exists []; reflexivity]).
    cbn [isWellFormed] in H. cbn [URI.encodeURIComponent isString forallb].
    destruct (URI.isHighSurrogate c) eqn:Hhi.
    - destruct s0 as [|d s1]; [discriminate|].
      apply andb_true_iff in H as [Hlo H].
      destruct (IH s1) as [Hs [e He]]; [simpl in Hlen; lia | exact H |].
      assert (Hu : URI.unescaped c = false).
      { unfold URI.isHighSurrogate in Hhi. apply andb_true_iff in Hhi as [H1 H2].
        apply N.leb_le in H1, H2.
        unfold URI.unescaped, URI.isAlpha, URI.isDigit, URI.isMark.
        cbn [existsb].
        repeat match goal with
               | |- context [(?a <=? ?b)%N] => destruct (N.leb_spec a b); try lia
               | |- context [(?a =? ?b)%N] => destruct (N.eqb_spec a b); try lia
               end; reflexivity. }
      rewrite Hu, Hlo, He. cbn [forallb]. split; [|eexists; reflexivity].
      fold (isString s1). rewrite Hs.
      unfold URI.isHighSurrogate in Hhi. unfold URI.isLowSurrogate in Hlo.
      apply andb_true_iff in Hhi as [_ H2]. apply andb_true_iff in Hlo as [_ H4].
      apply N.leb_le in H2, H4.
      replace (c <? 65536)%N with true by (symmetry; apply N.ltb_lt; lia).
      replace (d <? 65536)%N with true by (symmetry; apply N.ltb_lt; lia).
      reflexivity.
    - apply andb_true_iff in H as [H Hs0]. apply andb_true_iff in H as [Hlo Hc].
      apply negb_true_iff in Hlo.
      destruct (IH s0) as [Hs [e He]]; [lia | exact Hs0 |].
      fold (isString s0). rewrite Hc, Hs, Hlo, He.
      split; [reflexivity|]. destruct (URI.unescaped c); eexists; reflexivity. }
  apply (Hgen (length s)). lia.
Qed.

Lemma encode_plain (rel e : jsstring) :
  URI.encodeURIComponent rel = Return e ->
  Path.isAbsolute rel = true \/ climbs rel ->
  plainSegment e = true.
Proof.
  intros He Hrel. pose proof (URIFacts.encode_noSlash _ _ He) as Hns.
  unfold plainSegment. rewrite Hns, andb_true_r.
  destruct Hrel as [Habs | [rest ->]].
  - destruct rel as [|c rel]; [discriminate|]. cbn [Path.isAbsolute] in Habs.
    apply N.eqb_eq in Habs. subst c. cbn [URI.encodeURIComponent] in He.
    change (URI.unescaped Path.slash) with false in He.
    change (URI.isHighSurrogate Path.slash) with false in He.
    change (URI.isLowSurrogate Path.slash) with false in He. cbv iota in He.
    destruct (URI.encodeURIComponent rel) as [r|]; [|discriminate].
    injection He as <-. reflexivity.
  - change (lit "../" ++ rest) with (46%N :: 46%N :: 47%N :: rest) in He.
    cbn [URI.encodeURIComponent] in He.
    change (URI.unescaped 46) with true in He.
    change (URI.unescaped 47) with false in He.
    change (URI.isHighSurrogate 47) with false in He.
    change (URI.isLowSurrogate 47) with false in He. cbv iota in He.
    destruct (URI.encodeURIComponent rest) as [r|]; [|discriminate].
    injection He as <-. reflexivity.
Qed.

(** C1, as the code has it. For an hbs module path without a line
    terminator: with no js module the decoded [relativeJSModule] is null;
    with a non-empty js module whose explicit relative path [rel] from
    [hbsModule + '/j/'] is a non-empty well-formed string, the encoded
    filename decodes to [relativeJSModule = rel] (so null only for no js
    module); and when [rel] is absolute or starts with [../], resolving it
    against the directory of the virtual filename gives what resolving it
    against [hbsModule + '/j/'] gives, hence [jsModule] whenever [rel]
    leads there from the directory it was computed for. *)
Theorem paired_component_roundtrip :
  forall (env : Collaborators) (cwd hbsModule : jsstring)
         (jsModule : option jsstring),
    noLineTerminator hbsModule = true ->
    match jsModule with
    | None =>
        exists f p,
          virtualPairComponent env hbsModule None = Return f
          /\ decodeVirtualPairComponent env f = Return (Some p)
          /\ relativeJSModule p = None
    | Some j =>
        let rel := explicitRelative env (hbsModule ++ lit "/j/") j in
        j <> [] -> rel <> [] -> isWellFormed rel = true ->
        exists f p,
          virtualPairComponent env hbsModule (Some j) = Return f
          /\ decodeVirtualPairComponent env f = Return (Some p)
          /\ relativeJSModule p = Some rel
          /\ relativeHBSModule p
             = explicitRelative env (Path.dirname f) hbsModule
          /\ (Path.isAbsolute rel = true \/ climbs rel ->
              Path.resolve cwd [Path.dirname f; rel]
              = Path.resolve cwd [hbsModule ++ lit "/j/"; rel]
              /\ (Path.resolve cwd [hbsModule ++ lit "/j/"; rel]
                  = Path.resolve cwd [j] ->
                  Path.resolve cwd [Path.dirname f; rel]
                  = Path.resolve cwd [j]))
    end.
Proof.
  intros env cwd hbs [j|] Hnl.
  - intros rel Hj Hrel Hwf.
    destruct (encode_wellFormed rel Hwf) as [Hstr [e He]].
    assert (Hns : noSlash e = true) by exact (URIFacts.encode_noSlash _ _ He).
    assert (Hshape : pairShaped (hbs ++ lit "/" ++ e ++ pairComponentMarker) hbs e).
    { split; [reflexivity | split; assumption]. }
    assert (Hf : virtualPairComponent env hbs (Some j)
                 = Return (hbs ++ lit "/" ++ e ++ pairComponentMarker)).
    { unfold virtualPairComponent. destruct j; [congruence|].
      cbn [isEmpty]. fold rel. rewrite He. reflexivity. }
    pose proof (decodeVirtualPairComponent_shaped env _ _ _ Hshape) as Hdec.
    rewrite (URIRoundTrip.decode_encode rel e Hstr He) in Hdec.
    unfold bind in Hdec.
    assert (Hne : isEmpty rel = false) by (destruct rel; [congruence | reflexivity]).
    rewrite Hne in Hdec.
    eexists. eexists. split; [exact Hf|]. split; [exact Hdec|].
    split; [reflexivity|]. split; [reflexivity|].
    intros Hleaves.
    assert (Hdir : Path.dirname (hbs ++ lit "/" ++ e ++ pairComponentMarker)
                   = hbs ++ lit "/" ++ e).
    { replace (hbs ++ lit "/" ++ e ++ pairComponentMarker)
        with ((hbs ++ lit "/" ++ e) ++ pairComponentMarker)
        by (rewrite <- !app_assoc; reflexivity).
      apply PathFacts.dirname_marker.
      assert (e <> []).
      { intros ->. apply Hrel. exact (URIRoundTrip.encode_nonempty _ _ He eq_refl). }
      rewrite !length_app. destruct e; [congruence|]. simpl. lia. }
    rewrite Hdir.
    pose proof (PathFacts.resolve_swap cwd hbs e rel
                  (encode_plain _ _ He Hleaves) Hleaves) as Hswap.
    split; [exact Hswap |]. intros Hcontract.
    exact (eq_trans Hswap Hcontract).
  - assert (Hshape : pairShaped (hbs ++ lit "/" ++ [] ++ pairComponentMarker) hbs []).
    { split; [reflexivity | split; [assumption | reflexivity]]. }
    pose proof (decodeVirtualPairComponent_shaped env _ _ _ Hshape) as Hdec.
    eexists. eexists. split; [reflexivity|]. split; [exact Hdec|]. reflexivity.
Qed.

Lemma paired_component_roundtrip_witness :
  exists f p,
    virtualPairComponent specCollaborators (lit "/app/components/foo.hbs")
                         (Some (lit "/app/components/foo.js")) = Return f
    /\ decodeVirtualPairComponent specCollaborators f = Return (Some p)
    /\ relativeJSModule p = Some (lit "../../foo.js")
    /\ Path.resolve (lit "/") [Path.dirname f; lit "../../foo.js"]
       = lit "/app/components/foo.js".
Proof.
  destruct (paired_component_roundtrip
              specCollaborators (lit "/") (lit "/app/components/foo.hbs")
              (Some (lit "/app/components/foo.js")) eq_refl)
    as [f [p [Hf [Hp [Hjs [_ Hres]]]]]].
  - discriminate.
  - vm_compute. discriminate.
  - reflexivity.
  - exists f, p. split; [exact Hf|]. split; [exact Hp|]. split; [exact Hjs|].
    destruct Hres as [_ Hback].
    + right. exists (lit "../foo.js"). reflexivity.
    + apply Hback. reflexivity.
Defined.

(** C1, against the claim as stated. An hbs module path with a line feed
    in it gives a filename that the decoder does not recognise at all; and
    the empty string as js module, which is not null, comes back as null.
    Further inputs outside the conditions of the theorem: a js module with
    an unpaired surrogate makes the encoder throw; a js module below
    [hbsModule + '/j/'] has a relative path that does not climb, and
    resolving it against the directory of the virtual filename does not
    lead back to it. *)
Lemma paired_component_roundtrip_counterexample :
  (let hbsModule := lit "/app/a" ++ [10%N] ++ lit "b.hbs" in
   virtualPairComponent specCollaborators hbsModule None
   = Return (hbsModule ++ lit "//embroider-pair-component")
   /\ decodeVirtualPairComponent specCollaborators
        (hbsModule ++ lit "//embroider-pair-component")
      = Return None)
  /\ (virtualPairComponent specCollaborators (lit "/app/foo.hbs") (Some [])
      = Return (lit "/app/foo.hbs//embroider-pair-component")
      /\ decodeVirtualPairComponent specCollaborators
           (lit "/app/foo.hbs//embroider-pair-component")
         = Return (Some {| relativeHBSModule := lit "../foo.hbs";
                           relativeJSModule := None;
                           debugName := lit "foo" |}))
  /\ virtualPairComponent specCollaborators (lit "/app/foo.hbs")
        (Some (lit "/app/" ++ [55296%N] ++ lit ".js"))
     = Throw URIError
  /\ (let f := lit "/app/foo.hbs/.%2Fx.js/embroider-pair-component" in
      virtualPairComponent specCollaborators (lit "/app/foo.hbs")
                           (Some (lit "/app/foo.hbs/j/x.js"))
      = Return f
      /\ decodeVirtualPairComponent specCollaborators f
         = Return (Some {| relativeHBSModule := lit "../../foo.hbs";
                           relativeJSModule := Some (lit "./x.js");
                           debugName := lit "foo" |})
      /\ Path.resolve (lit "/") [Path.dirname f; lit "./x.js"]
         = lit "/app/foo.hbs/.%2Fx.js/x.js").
Proof. vm_compute. repeat split. Qed.

(** ** The theorems at concrete inputs *)

Lemma no_percent_In (s : jsstring) :
  forallb (fun c => negb (N.eqb c 37)) s = true -> ~ In 37%N s.
Proof.
  rewrite forallb_forall. intros H Hin.
  specialize (H _ Hin). rewrite N.eqb_refl in H. discriminate.
Qed.

Lemma dispatcher_contract_witness :
  virtualContent specCollaborators (lit "/a/b/foo") sampleResolver
  = Throw (notVirtualFile (lit "/a/b/foo")).
Proof.
  apply (proj1 (proj2 (proj2 (proj2 (proj2
           (dispatcher_contract specCollaborators sampleResolver
                                (lit "/a/b/foo"))))))).
  reflexivity.
Defined.

Lemma decoders_total_witness :
  exists r,
    decodeVirtualPairComponent specCollaborators
      (lit "/app/foo.hbs//embroider-pair-component") = Return r.
Proof.
  apply (proj1 (proj2 (proj2 (proj2
           (decoders_total_but_for_malformed_escapes
              specCollaborators
              (lit "/app/foo.hbs//embroider-pair-component")))))).
  apply no_percent_In. reflexivity.
Defined.

Lemma engine_boundary_witness :
  exists lazyModules,
    contribution specCollaborators ImplicitModules
                 (resolvableExtensions sampleResolver) sampleApp sampleEngine
    = Return (lazyModules, []).
Proof.
  destruct (contribution specCollaborators ImplicitModules
                         (resolvableExtensions sampleResolver)
                         sampleApp sampleEngine)
    as [[lazyModules eagerModules]|e] eqn:Hc.
  - exists lazyModules.
    rewrite (proj1 (proj2 (proj2
               (engine_boundary specCollaborators ImplicitModules
                                sampleResolver sampleApp sampleEngine)))
               lazyModules eagerModules Hc eq_refl).
    reflexivity.
  - vm_compute in Hc. discriminate.
Defined.

Lemma peer_dependencies_excluded_witness :
  contribution specCollaborators ImplicitModules
               (resolvableExtensions sampleResolver) samplePeerApp sampleEngine
  = Return ([], []).
Proof.
  apply (proj1 (proj2
           (peer_dependencies_excluded specCollaborators ImplicitModules
                                       sampleResolver samplePeerApp))).
  reflexivity.
Defined.

Lemma dependencies_sorted_stably_witness :
  (exists o1 o2 o3,
      sort orderAddons (dependencies sampleOrderedApp)
      = o1 ++ sampleAddon (lit "first") None
           :: o2 ++ sampleAddon (lit "second") (Some 0%Z) :: o3)
  /\ (exists o1 o2 o3,
         sort orderAddons [sampleAddon (lit "late") (Some 1%Z);
                           sampleAddon (lit "second") (Some 0%Z);
                           sampleAddon (lit "first") None]
         = o1 ++ sampleAddon (lit "second") (Some 0%Z)
              :: o2 ++ sampleAddon (lit "first") None :: o3).
Proof.
  apply (proj2 (proj2 (proj2 (proj2 (proj2 (proj2
           (dependencies_sorted_stably specCollaborators ImplicitModules
                                       sampleResolver sampleOrderedApp))))))
         (sampleAddon (lit "first") None)
         (sampleAddon (lit "second") (Some 0%Z))
         [sampleAddon (lit "late") (Some 1%Z)] [] []).
  reflexivity.
Defined.

Lemma implicit_modules_precondition_witness :
  renderImplicitModules specCollaborators
    {| type := ImplicitModules; fromFile := lit "/a/b" |} emptyResolver
  = Throw (implicitModulesBug (lit "/a/b")).
Proof.
  apply (proj1 (implicit_modules_precondition specCollaborators
                  {| type := ImplicitModules; fromFile := lit "/a/b" |}
                  emptyResolver)).
  left. reflexivity.
Defined.

(* ================================================================== *)
(** * Part III: further properties of the code *)
(* ================================================================== *)

(** ** Strings, objects and paths *)

Lemma str_eqb_refl (a : jsstring) : str_eqb a a = true.
Proof. apply str_eqb_eq. reflexivity. Qed.

Lemma str_eqb_false (a b : jsstring) : a <> b -> str_eqb a b = false.
Proof.
  intros H. destruct (str_eqb a b) eqn:E; [|reflexivity].
  apply str_eqb_eq in E. contradiction.
Qed.

Lemma absent_In (c : N) (s : jsstring) :
  forallb (fun d => negb (N.eqb d c)) s = true -> ~ In c s.
Proof.
  rewrite forallb_forall. intros H Hin. specialize (H _ Hin).
  rewrite N.eqb_refl in H. discriminate.
Qed.

Lemma last_In (A : Type) (l : list A) (d : A) : l <> [] -> In (last l d) l.
Proof.
  induction l as [|x l IH]; [congruence|]. intros _.
  destruct l as [|y l]; [left; reflexivity|].
  right. apply IH. discriminate.
Qed.

Lemma noLineTerminator_last (s : jsstring) :
  noLineTerminator s = true -> endsWithLineTerminator s = false.
Proof.
  unfold endsWithLineTerminator, noLineTerminator. intros H.
  destruct s as [|c s]; [reflexivity|].
  rewrite forallb_forall in H.
  apply negb_true_iff. apply H. apply last_In. discriminate.
Qed.

(** [s.split(c).join(c)] gives [s] back, and [s.split('\\').join('/')]
    turns every backslash of [s] into a slash. *)

Lemma join_split (c : N) (s : jsstring) : join [c] (split c s) = s.
Proof.
  induction s as [|d s IH]; [reflexivity|]. cbn [split].
  destruct (N.eqb_spec d c) as [->|Hd].
  - destruct (split c s) as [|x rest] eqn:Hs.
    + exfalso. exact (PathFacts.split_nonempty c s Hs).
    + change (join [c] ([] :: x :: rest)) with (c :: join [c] (x :: rest)).
      rewrite IH. reflexivity.
  - destruct (split c s) as [|x rest] eqn:Hs.
    + exfalso. exact (PathFacts.split_nonempty c s Hs).
    + destruct rest as [|y rest].
      * cbn [join] in *. rewrite IH. reflexivity.
      * change (join [c] ((d :: x) :: y :: rest))
          with (d :: join [c] (x :: y :: rest)).
        rewrite IH. reflexivity.
Qed.

Lemma join_split_slashed (s : jsstring) :
  join (lit "/") (split 92 s) = slashed s.
Proof.
  induction s as [|d s IH]; [reflexivity|]. cbn [split slashed List.map].
  fold (slashed s). rewrite <- IH.
  destruct (N.eqb_spec d 92) as [->|Hd].
  - destruct (split 92 s) as [|x rest] eqn:Hs.
    + exfalso. exact (PathFacts.split_nonempty _ s Hs).
    + reflexivity.
  - destruct (split 92 s) as [|x rest] eqn:Hs.
    + exfalso. exact (PathFacts.split_nonempty _ s Hs).
    + destruct rest as [|y rest]; reflexivity.
Qed.

(** The own properties of an object, the latest assignment first. *)
Lemma getOwnProperty_app (o1 o2 : list (jsstring * jsstring)) (k : jsstring) :
  getOwnProperty (o1 ++ o2) k
  = match getOwnProperty o1 k with
    | Some v => Some v
    | None => getOwnProperty o2 k
    end.
Proof.
  induction o1 as [|[k' v] o1 IH]; [reflexivity|]. cbn [app getOwnProperty].
  destruct (str_eqb k' k); [reflexivity | exact IH].
Qed.

Lemma getOwnProperty_none (o : list (jsstring * jsstring)) (k : jsstring) :
  (forall e, In e o -> fst e <> k) -> getOwnProperty o k = None.
Proof.
  induction o as [|[k' v] o IH]; intros H; [reflexivity|]. cbn [getOwnProperty].
  destruct (str_eqb k' k) eqn:Hk.
  - apply str_eqb_eq in Hk. exfalso. apply (H (k', v)); [left; reflexivity|].
    exact Hk.
  - apply IH. intros e He. apply H. right. exact He.
Qed.

Module JoinFacts.

Lemma fold_normalizeStep_plain (allow : bool) (segs : list jsstring) :
  forall stack,
    forallb plainSegment segs = true ->
    fold_left (Path.normalizeStep allow) segs stack = rev segs ++ stack.
Proof.
  induction segs as [|g segs IH]; intros stack H; [reflexivity|].
  cbn [forallb] in H. apply andb_true_iff in H as [Hg Hsegs].
  cbn [fold_left rev]. rewrite (IH _ Hsegs), <- app_assoc. cbn [app].
  do 2 f_equal. unfold plainSegment in Hg.
  apply andb_true_iff in Hg as [Hg _].
  apply andb_true_iff in Hg as [Hg Hdd].
  apply andb_true_iff in Hg as [Hne Hd].
  apply negb_true_iff in Hne, Hd, Hdd.
  unfold Path.normalizeStep. rewrite Hne, Hd, Hdd. reflexivity.
Qed.

Lemma normalizeString_plain (allow : bool) (p : jsstring) :
  plainPath p = true -> Path.normalizeString allow p = p.
Proof.
  intros H. unfold Path.normalizeString.
  rewrite (fold_normalizeStep_plain allow _ [] H), app_nil_r, rev_involutive.
  apply join_split.
Qed.

Lemma plainPath_cons (p : jsstring) :
  plainPath p = true -> exists c p', p = c :: p' /\ c <> Path.slash.
Proof.
  unfold plainPath. destruct p as [|c p]; [discriminate|].
  intros H. exists c, p. split; [reflexivity|]. intros ->.
  cbn [split] in H. unfold Path.slash in H. rewrite N.eqb_refl in H.
  discriminate.
Qed.

Lemma plainPath_end (p : jsstring) :
  plainPath p = true -> Path.hasTrailingSlash p = false.
Proof.
  intros H. unfold Path.hasTrailingSlash.
  destruct (rev p) as [|c r] eqn:Hr; [reflexivity|].
  destruct (N.eqb_spec c Path.slash) as [->|]; [|reflexivity].
  exfalso. apply (f_equal (@rev N)) in Hr. rewrite rev_involutive in Hr.
  cbn [rev] in Hr. subst p. unfold plainPath in H.
  rewrite (PathFacts.split_app Path.slash (rev r) []) in H.
  rewrite forallb_app in H. apply andb_true_iff in H as [_ H]. discriminate.
Qed.

Lemma normalize_plain (p : jsstring) :
  plainPath p = true -> Path.normalize p = p.
Proof.
  intros H. unfold Path.normalize.
  rewrite (normalizeString_plain _ p H), (plainPath_end p H).
  destruct (plainPath_cons p H) as [c [p' [-> Hc]]].
  cbn [isEmpty Path.isAbsolute].
  replace (N.eqb c Path.slash) with false
    by (symmetry; apply N.eqb_neq; exact Hc).
  reflexivity.
Qed.

Lemma plainPath_app (p q : jsstring) :
  plainPath p = true -> plainPath q = true ->
  plainPath (p ++ Path.slash :: q) = true.
Proof.
  unfold plainPath. intros Hp Hq.
  rewrite PathFacts.split_app, forallb_app, Hp, Hq. reflexivity.
Qed.

(** Joining paths that need no normalization puts a slash between them. *)
Lemma join_plain (p q : jsstring) :
  plainPath p = true -> plainPath q = true ->
  Path.join [p; q] = p ++ lit "/" ++ q.
Proof.
  intros Hp Hq. pose proof (plainPath_app p q Hp Hq) as Hpq.
  unfold Path.join.
  destruct (plainPath_cons p Hp) as [c [p' [-> _]]].
  destruct (plainPath_cons q Hq) as [d [q' [-> _]]].
  cbn [filter isEmpty negb join].
  change ((c :: p') ++ Path.sep ++ d :: q')
    with ((c :: p') ++ Path.slash :: d :: q').
  cbn [app isEmpty]. exact (normalize_plain _ Hpq).
Qed.

End JoinFacts.

Module BasenameFacts.
Import Path.

Lemma takeSegment_noSlash (l : jsstring) : noSlash (takeSegment l) = true.
Proof.
  induction l as [|c l IH]; [reflexivity|]. cbn [takeSegment].
  unfold slash. destruct (N.eqb c 47) eqn:Hc; [reflexivity|].
  cbn [noSlash forallb]. rewrite Hc. exact IH.
Qed.

Lemma noSlash_rev (s : jsstring) : noSlash (rev s) = noSlash s.
Proof.
  unfold noSlash. induction s as [|c s IH]; [reflexivity|].
  cbn [rev forallb]. rewrite forallb_app, IH. cbn [forallb].
  rewrite andb_true_r. apply andb_comm.
Qed.

Lemma basename_noSlash (p : jsstring) : noSlash (basename p) = true.
Proof. unfold basename. rewrite noSlash_rev. apply takeSegment_noSlash. Qed.

Lemma takeSegment_app (g rest : jsstring) :
  noSlash g = true -> takeSegment (g ++ slash :: rest) = g.
Proof.
  induction g as [|c g IH]; intros H; cbn [app takeSegment].
  - unfold slash. rewrite N.eqb_refl. reflexivity.
  - cbn [noSlash forallb] in H. apply andb_true_iff in H as [Hc Hg].
    apply negb_true_iff in Hc. unfold slash in *. rewrite Hc.
    rewrite IH by exact Hg. reflexivity.
Qed.

Lemma basename_last_segment (dir g : jsstring) :
  noSlash g = true -> g <> [] -> basename (dir ++ lit "/" ++ g) = g.
Proof.
  intros Hns Hne. unfold basename.
  change (dir ++ lit "/" ++ g) with (dir ++ [slash] ++ g).
  rewrite !rev_app_distr. cbn [rev app]. rewrite <- app_assoc. cbn [app].
  assert (Hr : noSlash (rev g) = true) by (rewrite noSlash_rev; exact Hns).
  destruct (rev g) as [|c r] eqn:Hg.
  { exfalso. apply Hne. apply (f_equal (@rev N)) in Hg.
    rewrite rev_involutive in Hg. exact Hg. }
  cbn [noSlash forallb] in Hr. apply andb_true_iff in Hr as [Hc Hr'].
  apply negb_true_iff in Hc.
  cbn [app dropSlashes]. unfold slash at 1. rewrite Hc.
  change (c :: r ++ slash :: rev dir) with ((c :: r) ++ slash :: rev dir).
  rewrite takeSegment_app.
  - rewrite <- Hg. apply rev_involutive.
  - cbn [noSlash forallb]. rewrite Hc. exact Hr'.
Qed.

End BasenameFacts.

(** ** The pattern that strips a script extension *)

Module MatcherFacts.
Import Regex.

(** A match somewhere ahead means that the search finds a match. *)
Lemma search_complete (r : regex) (before s : jsstring) : forall pos x,
  run r (pos + length before) s [] k0 = Some x ->
  search r pos (before ++ s) <> None.
Proof.
  induction before as [|c before IH]; intros pos x Hrun.
  - cbn [length app] in *. rewrite Nat.add_0_r in Hrun.
    destruct s as [|d s]; cbn [search]; fold k0; rewrite Hrun;
      destruct x; discriminate.
  - cbn [app search]. fold k0.
    destruct (run r pos (c :: before ++ s) [] k0) as [[e caps]|];
      [discriminate|].
    apply (IH (S pos) x). cbn [length] in Hrun.
    replace (S pos + length before) with (pos + S (length before)) by lia.
    exact Hrun.
Qed.

End MatcherFacts.

Module ExtensionPattern.
Import Regex RegexFacts MatcherFacts.

Lemma run_extension (pos : nat) (s : jsstring) (x : result) :
  run scriptExtensionPattern pos s [] k0 = Some x ->
  (s = lit ".js" /\ fst x = pos + 3) \/ (s = lit ".hbs" /\ fst x = pos + 4).
Proof.
  unfold scriptExtensionPattern. cbn [run].
  destruct (stripPrefix (lit ".") s) as [s1|] eqn:H1; [|discriminate].
  apply stripPrefix_spec in H1. subst s.
  destruct (stripPrefix (lit "js") s1) as [s2|] eqn:H2.
  - apply stripPrefix_spec in H2. subst s1.
    destruct s2 as [|c s2].
    + unfold k0. intros H. injection H as <-. left.
      split; [reflexivity|]. cbn [fst length lit]. simpl. lia.
    + destruct (stripPrefix (lit "hbs") (lit "js" ++ c :: s2)) eqn:H3;
        [|discriminate].
      apply stripPrefix_spec in H3. discriminate.
  - destruct (stripPrefix (lit "hbs") s1) as [s2|] eqn:H3; [|discriminate].
    apply stripPrefix_spec in H3. subst s1.
    destruct s2 as [|c s2]; [|discriminate].
    unfold k0. intros H. injection H as <-. right.
    split; [reflexivity|]. simpl. lia.
Qed.

Lemma run_js (pos : nat) :
  exists x, run scriptExtensionPattern pos (lit ".js") [] k0 = Some x.
Proof. eexists. reflexivity. Qed.

Lemma run_hbs (pos : nat) :
  exists x, run scriptExtensionPattern pos (lit ".hbs") [] k0 = Some x.
Proof. eexists. reflexivity. Qed.

(** What [replace] does with a match of the pattern: the match is an
    extension that ends the string, and it is cut off. *)
Lemma replace_some (s : jsstring) (m : rmatch) :
  exec scriptExtensionPattern s = Some m ->
  exists x, (s = x ++ lit ".js" \/ s = x ++ lit ".hbs")
            /\ replace scriptExtensionPattern s [] = x.
Proof.
  intros Hexec. unfold replace. rewrite Hexec. unfold exec in Hexec.
  apply search_some in Hexec as [before [s' [-> [Hi Hrun]]]].
  exists before. cbn [Nat.add] in Hi. rewrite Hi.
  rewrite firstn_length_app. cbn [app].
  apply run_extension in Hrun as [[-> Hf]|[-> Hf]]; cbn [fst] in Hf; rewrite Hf, Hi.
  - split; [left; reflexivity|].
    rewrite skipn_all2 by (rewrite length_app; simpl; lia). apply app_nil_r.
  - split; [right; reflexivity|].
    rewrite skipn_all2 by (rewrite length_app; simpl; lia). apply app_nil_r.
Qed.

Lemma js_not_hbs (x y : jsstring) : x ++ lit ".js" <> y ++ lit ".hbs".
Proof.
  intros H. apply (f_equal (@rev N)) in H. rewrite !rev_app_distr in H.
  discriminate.
Qed.

Lemma replace_js (x : jsstring) :
  replace scriptExtensionPattern (x ++ lit ".js") [] = x.
Proof.
  destruct (exec scriptExtensionPattern (x ++ lit ".js")) as [m|] eqn:Hexec.
  - apply replace_some in Hexec as [y [[H|H] ->]].
    + apply app_inv_tail in H. auto.
    + exfalso. exact (js_not_hbs _ _ H).
  - exfalso. destruct (run_js (0 + length x)) as [r Hr].
    exact (search_complete _ _ _ _ _ Hr Hexec).
Qed.

Lemma replace_hbs (x : jsstring) :
  replace scriptExtensionPattern (x ++ lit ".hbs") [] = x.
Proof.
  destruct (exec scriptExtensionPattern (x ++ lit ".hbs")) as [m|] eqn:Hexec.
  - apply replace_some in Hexec as [y [[H|H] ->]].
    + exfalso. symmetry in H. exact (js_not_hbs _ _ H).
    + apply app_inv_tail in H. auto.
  - exfalso. destruct (run_hbs (0 + length x)) as [r Hr].
    exact (search_complete _ _ _ _ _ Hr Hexec).
Qed.

Lemma replace_other (s : jsstring) :
  endsWith s (lit ".js") = false -> endsWith s (lit ".hbs") = false ->
  replace scriptExtensionPattern s [] = s.
Proof.
  intros Hjs Hhbs.
  destruct (exec scriptExtensionPattern s) as [m|] eqn:Hexec.
  - apply replace_some in Hexec as [y [[H|H] _]]; exfalso.
    + assert (Ht : endsWith s (lit ".js") = true)
        by (apply endsWith_spec; exists y; exact H).
      congruence.
    + assert (Ht : endsWith s (lit ".hbs") = true)
        by (apply endsWith_spec; exists y; exact H).
      congruence.
  - unfold replace. rewrite Hexec. reflexivity.
Qed.

Lemma replace_prefix (s : jsstring) :
  exists rest, s = replace scriptExtensionPattern s [] ++ rest.
Proof.
  destruct (exec scriptExtensionPattern s) as [m|] eqn:Hexec.
  - apply replace_some in Hexec as [y [[H|H] ->]]; eexists; exact H.
  - unfold replace. rewrite Hexec. exists []. symmetry. apply app_nil_r.
Qed.

End ExtensionPattern.

(** ** Paired components, end to end *)

Lemma virtualPairComponent_eq (env : Collaborators)
      (hbsModule : jsstring) (jsModule : option jsstring) :
  virtualPairComponent env hbsModule jsModule
  = (do e <- URI.encodeURIComponent (relativeJSPath env hbsModule jsModule) ;;
     Return (hbsModule ++ lit "/" ++ e ++ pairComponentMarker)).
Proof. reflexivity. Qed.

Lemma virtualPairComponent_encoded (env : Collaborators)
      (hbsModule : jsstring) (jsModule : option jsstring) (f : jsstring) :
  virtualPairComponent env hbsModule jsModule = Return f ->
  exists e,
    URI.encodeURIComponent (relativeJSPath env hbsModule jsModule) = Return e
    /\ noSlash e = true
    /\ f = hbsModule ++ lit "/" ++ e ++ pairComponentMarker.
Proof.
  rewrite virtualPairComponent_eq.
  destruct (URI.encodeURIComponent (relativeJSPath env hbsModule jsModule))
    as [e|x] eqn:He; unfold bind; [|discriminate].
  intros H. injection H as <-. exists e.
  split; [reflexivity|]. split; [|reflexivity].
  exact (URIFacts.encode_noSlash _ _ He).
Qed.

(** X1. For a non-empty hbs module path without a line terminator,
    [virtualContent] applied to the filename that [virtualPairComponent]
    returns renders the paired-component shim, unless the filename starts
    with the external prefix: the filename is the hbs module path, a slash,
    the percent-encoded relative js path and the marker; its directory is
    all of it but the marker; [relativeHBSModule] is the explicit relative
    path from that directory to the hbs module, and [relativeJSModule] is
    the relative js path that was encoded, null when that is empty. *)
Theorem paired_component_rendered :
  forall (env : Collaborators) (resolver : Resolver) (hbsModule : jsstring)
         (jsModule : option jsstring) (f : jsstring),
    let rel := relativeJSPath env hbsModule jsModule in
    hbsModule <> [] ->
    noLineTerminator hbsModule = true ->
    isString rel = true ->
    virtualPairComponent env hbsModule jsModule = Return f ->
    matchesExternal f = false ->
    exists e,
      URI.encodeURIComponent rel = Return e
      /\ f = hbsModule ++ lit "/" ++ e ++ pairComponentMarker
      /\ Path.dirname f = hbsModule ++ lit "/" ++ e
      /\ let relativeHBS :=
           explicitRelative env (hbsModule ++ lit "/" ++ e) hbsModule in
         virtualContent env f resolver
         = Return (pairedComponentShim env
             {| relativeHBSModule := relativeHBS;
                relativeJSModule := if isEmpty rel then None else Some rel;
                debugName :=
                  Regex.replace scriptExtensionPattern
                                (Path.basename relativeHBS) [] |}).
Proof.
  intros env resolver hbs js f rel Hne Hnl Hstr Hf Hext.
  apply virtualPairComponent_encoded in Hf as [e [He [Hns Hf]]].
  fold rel in He. exists e. split; [exact He|]. split; [exact Hf|].
  assert (Hdir : Path.dirname f = hbs ++ lit "/" ++ e).
  { rewrite Hf.
    replace (hbs ++ lit "/" ++ e ++ pairComponentMarker)
      with ((hbs ++ lit "/" ++ e) ++ pairComponentMarker)
      by (rewrite <- !app_assoc; reflexivity).
    apply PathFacts.dirname_marker. rewrite !length_app.
    destruct hbs; [congruence|]. simpl. lia. }
  split; [exact Hdir|]. intros relativeHBS.
  assert (Hshape : pairShaped f hbs e) by (split; [exact Hf | split; assumption]).
  unfold virtualContent. unfold matchesExternal in Hext. rewrite Hext.
  rewrite (decodeVirtualPairComponent_shaped env _ _ _ Hshape).
  rewrite (URIRoundTrip.decode_encode rel e Hstr He).
  unfold bind. rewrite Hdir. reflexivity.
Qed.

Lemma paired_component_rendered_witness :
  virtualContent specCollaborators
    (lit "/app/components/foo.hbs/..%2F..%2Ffoo.js/embroider-pair-component")
    sampleResolver
  = Return (lit "pairedComponentShim ../../foo.hbs ../../foo.js foo").
Proof.
  destruct (paired_component_rendered
              specCollaborators sampleResolver (lit "/app/components/foo.hbs")
              (Some (lit "/app/components/foo.js"))
              (lit "/app/components/foo.hbs/..%2F..%2Ffoo.js/embroider-pair-component"))
    as [e [He [_ [_ Hv]]]].
  - discriminate.
  - reflexivity.
  - reflexivity.
  - reflexivity.
  - reflexivity.
  - cbv zeta in Hv. rewrite Hv.
    vm_compute in He. injection He as <-. vm_compute. reflexivity.
Defined.

(** X2. [virtualPairComponent] is injective: two calls that return the
    same filename had the same hbs module path and the same relative js
    path. *)
Theorem virtualPairComponent_injective :
  forall (env : Collaborators) (hbs1 hbs2 : jsstring)
         (js1 js2 : option jsstring) (f : jsstring),
    isString (relativeJSPath env hbs1 js1) = true ->
    isString (relativeJSPath env hbs2 js2) = true ->
    virtualPairComponent env hbs1 js1 = Return f ->
    virtualPairComponent env hbs2 js2 = Return f ->
    hbs1 = hbs2 /\ relativeJSPath env hbs1 js1 = relativeJSPath env hbs2 js2.
Proof.
  intros env hbs1 hbs2 js1 js2 f Hs1 Hs2 H1 H2.
  apply virtualPairComponent_encoded in H1 as [e1 [He1 [Hn1 Hf1]]].
  apply virtualPairComponent_encoded in H2 as [e2 [He2 [Hn2 Hf2]]].
  rewrite Hf1 in Hf2.
  change (hbs1 ++ lit "/" ++ e1 ++ pairComponentMarker)
    with (hbs1 ++ (47%N :: e1) ++ pairComponentMarker) in Hf2.
  change (hbs2 ++ lit "/" ++ e2 ++ pairComponentMarker)
    with (hbs2 ++ (47%N :: e2) ++ pairComponentMarker) in Hf2.
  rewrite !app_assoc in Hf2. apply app_inv_tail in Hf2.
  apply PairPattern.noSlash_unique in Hf2 as [Hh He]; [|assumption|assumption].
  split; [exact Hh|]. subst e2.
  pose proof (URIRoundTrip.decode_encode _ _ Hs1 He1) as D1.
  pose proof (URIRoundTrip.decode_encode _ _ Hs2 He2) as D2.
  congruence.
Qed.

Lemma virtualPairComponent_injective_witness :
  lit "/app/a.hbs" = lit "/app/a.hbs"
  /\ relativeJSPath specCollaborators (lit "/app/a.hbs") (Some (lit "/app/a.js"))
     = relativeJSPath specCollaborators (lit "/app/a.hbs") (Some (lit "/app/a.js")).
Proof.
  apply (virtualPairComponent_injective
           specCollaborators (lit "/app/a.hbs") (lit "/app/a.hbs")
           (Some (lit "/app/a.js")) (Some (lit "/app/a.js"))
           (lit "/app/a.hbs/..%2F..%2Fa.js/embroider-pair-component"));
    reflexivity.
Defined.

(** X3. The [debugName] that the paired-component decoder returns is the
    base name of [relativeHBSModule] without one final [.hbs] or [.js]:
    either extension is cut off, a base name that ends in neither is left
    as it is, the base name is the last segment of the relative path, and
    the debug name never has a slash in it. *)
Theorem debug_name_strips_the_script_extension :
  forall (env : Collaborators) (f : jsstring) (p : PairedComponent),
    decodeVirtualPairComponent env f = Return (Some p) ->
    let base := Path.basename (relativeHBSModule p) in
    (forall x, base = x ++ lit ".hbs" -> debugName p = x)
    /\ (forall x, base = x ++ lit ".js" -> debugName p = x)
    /\ (endsWith base (lit ".js") = false ->
        endsWith base (lit ".hbs") = false -> debugName p = base)
    /\ (forall dir g, noSlash g = true -> g <> [] ->
                      relativeHBSModule p = dir ++ lit "/" ++ g -> base = g)
    /\ noSlash (debugName p) = true.
Proof.
  intros env f p Hdec base.
  assert (Hname : debugName p
                  = Regex.replace scriptExtensionPattern base []).
  { unfold decodeVirtualPairComponent in Hdec.
    destruct (Regex.exec pairComponentPattern f) as [m|]; [|discriminate].
    destruct (URI.decodeURIComponent (group "jsModule" m)) as [d|e];
      unfold bind in Hdec; [|discriminate].
    injection Hdec as <-. reflexivity. }
  rewrite Hname. split; [|split; [|split; [|split]]].
  - intros x ->. apply ExtensionPattern.replace_hbs.
  - intros x ->. apply ExtensionPattern.replace_js.
  - apply ExtensionPattern.replace_other.
  - intros dir g Hns Hne Hrel. subst base. rewrite Hrel.
    apply BasenameFacts.basename_last_segment; assumption.
  - destruct (ExtensionPattern.replace_prefix base) as [rest Hrest].
    pose proof (BasenameFacts.basename_noSlash (relativeHBSModule p)) as Hb.
    fold base in Hb. rewrite Hrest in Hb. unfold noSlash in *.
    rewrite forallb_app in Hb. apply andb_true_iff in Hb as [Hb _]. exact Hb.
Qed.

Lemma debug_name_witness :
  exists p,
    decodeVirtualPairComponent specCollaborators
      (lit "/app/components/foo.hbs//embroider-pair-component")
    = Return (Some p)
    /\ debugName p = lit "foo".
Proof.
  eexists. split; [vm_compute; reflexivity|].
  apply (proj1 (debug_name_strips_the_script_extension
                  specCollaborators
                  (lit "/app/components/foo.hbs//embroider-pair-component")
                  _ eq_refl)).
  reflexivity.
Defined.

(** ** The fastboot switch, end to end *)

(** The filename of [fastbootSwitch]: the resolved path, a slash, and a
    last segment that starts with the suffix's name. *)
Lemma fastbootSwitch_shape (cwd specifier fromFile : jsstring)
      (exported : list jsstring) :
  forallb plainName exported = true ->
  exists rest,
    fastbootSwitch cwd specifier fromFile exported
    = Path.resolve cwd [Path.dirname fromFile; specifier]
      ++ 47%N :: (lit "embroider_fastboot_switch" ++ rest)
    /\ noSlash rest = true
    /\ rest = match exported with
              | [] => []
              | _ :: _ => lit "?names=" ++ join (lit ",") exported
              end.
Proof.
  intros Hplain. unfold fastbootSwitch. destruct exported as [|n0 more] eqn:Hexp.
  - exists []. repeat split; reflexivity.
  - rewrite <- Hexp in *.
    replace (Nat.ltb 0 (length exported)) with true
      by (rewrite Hexp; reflexivity).
    exists (lit "?names=" ++ join (lit ",") exported).
    split; [rewrite <- app_assoc; reflexivity|]. split; [|reflexivity].
    unfold noSlash. rewrite forallb_app. apply andb_true_iff.
    split; [reflexivity|].
    apply forallb_join; [reflexivity|].
    apply plainName_all; [|exact Hplain].
    intros c Hc. apply andb_true_iff in Hc as [Hc _].
    apply andb_true_iff in Hc as [_ Hc]. exact Hc.
Qed.

(** The filename of [fastbootSwitch] never ends in the marker of a paired
    component. *)
Lemma fastbootSwitch_not_pair (cwd specifier fromFile : jsstring)
      (exported : list jsstring) :
  forallb plainName exported = true ->
  matchesPair (fastbootSwitch cwd specifier fromFile exported) = false.
Proof.
  intros Hplain.
  destruct (matchesPair (fastbootSwitch cwd specifier fromFile exported))
    eqn:Hp; [|reflexivity].
  exfalso. apply matchesPair_endsWith, endsWith_spec in Hp as [r Hr].
  destruct (fastbootSwitch_shape cwd specifier fromFile exported Hplain)
    as [rest [Hf [Hns _]]].
  rewrite Hf in Hr.
  change (r ++ pairComponentMarker)
    with (r ++ 47%N :: lit "embroider-pair-component") in Hr.
  apply PairPattern.noSlash_unique in Hr as [_ Hr].
  - discriminate.
  - unfold noSlash. rewrite forallb_app. apply andb_true_iff.
    split; [reflexivity | exact Hns].
  - reflexivity.
Qed.

(** What decoding the filename of [fastbootSwitch] gives for plain names
    and a resolved path on one line. *)
Lemma decode_fastbootSwitch (cwd specifier fromFile : jsstring)
      (exported : list jsstring) :
  noLineTerminator (Path.resolve cwd [Path.dirname fromFile; specifier]) = true ->
  forallb plainName exported = true ->
  exported <> [[]] ->
  decodeFastbootSwitch (fastbootSwitch cwd specifier fromFile exported)
  = Some {| names := filter notDefault exported;
            hasDefaultExport := includes exported (lit "default");
            filename := Path.resolve cwd [Path.dirname fromFile; specifier] |}.
Proof.
  intros Hnl Hplain Hnot.
  rewrite (decodeFastbootSwitch_encoded cwd specifier fromFile exported
             (noLineTerminator_last _ Hnl) (plainName_carriable _ Hplain) Hnot).
  rewrite (FastbootPattern.lastLine_id _ Hnl). reflexivity.
Qed.

(** X4. When the resolved original path has no line terminator, no name
    has a comma, a slash or a line terminator in it and the set is not just
    the empty name, the filename of [fastbootSwitch] is never taken for a
    paired component, and [virtualContent] renders the fastboot-switch
    template for it with the names in their order without [default], the
    flag set exactly when [default] was among them, and the resolved path,
    unless the filename starts with the external prefix. *)
Theorem fastboot_switch_rendered :
  forall (env : Collaborators) (resolver : Resolver)
         (cwd specifier fromFile : jsstring) (exported : list jsstring),
    let original := Path.resolve cwd [Path.dirname fromFile; specifier] in
    let f := fastbootSwitch cwd specifier fromFile exported in
    noLineTerminator original = true ->
    forallb plainName exported = true ->
    exported <> [[]] ->
    matchesExternal f = false ->
    matchesPair f = false
    /\ virtualContent env f resolver
       = Return (fastbootSwitchTemplate env
           {| names := filter notDefault exported;
              hasDefaultExport := includes exported (lit "default");
              filename := original |}).
Proof.
  intros env resolver cwd specifier fromFile exported original f
         Hnl Hplain Hnot Hext.
  pose proof (fastbootSwitch_not_pair cwd specifier fromFile exported Hplain)
    as Hpair.
  fold f in Hpair. split; [exact Hpair|].
  unfold virtualContent. unfold matchesExternal in Hext. rewrite Hext.
  rewrite decodeVirtualPairComponent_none.
  - unfold bind. subst f.
    rewrite (decode_fastbootSwitch cwd specifier fromFile exported Hnl Hplain Hnot).
    reflexivity.
  - unfold matchesPair in Hpair.
    destruct (Regex.exec pairComponentPattern f); [discriminate | reflexivity].
Qed.

Lemma fastboot_switch_rendered_witness :
  virtualContent specCollaborators
    (lit "/pkg/thing/embroider_fastboot_switch?names=default,a") sampleResolver
  = Return (lit "fastbootSwitchTemplate a default").
Proof.
  apply (fastboot_switch_rendered
           specCollaborators sampleResolver (lit "/cwd") (lit "./thing")
           (lit "/pkg/index.js") [lit "default"; lit "a"]).
  - reflexivity.
  - reflexivity.
  - discriminate.
  - reflexivity.
Defined.

(** X5. For names without a comma, a slash or a line terminator,
    [fastbootSwitch] is injective in the resolved original path and in the
    names: equal filenames come from the same resolved path and the same
    names in the same order. *)
Theorem fastboot_switch_injective :
  forall (cwd1 specifier1 fromFile1 cwd2 specifier2 fromFile2 : jsstring)
         (exported1 exported2 : list jsstring),
    forallb plainName exported1 = true ->
    forallb plainName exported2 = true ->
    fastbootSwitch cwd1 specifier1 fromFile1 exported1
    = fastbootSwitch cwd2 specifier2 fromFile2 exported2 ->
    Path.resolve cwd1 [Path.dirname fromFile1; specifier1]
    = Path.resolve cwd2 [Path.dirname fromFile2; specifier2]
    /\ exported1 = exported2.
Proof.
  intros cwd1 specifier1 fromFile1 cwd2 specifier2 fromFile2
         exported1 exported2 Hp1 Hp2 Heq.
  destruct (fastbootSwitch_shape cwd1 specifier1 fromFile1 exported1 Hp1)
    as [rest1 [Hf1 [Hn1 Hr1]]].
  destruct (fastbootSwitch_shape cwd2 specifier2 fromFile2 exported2 Hp2)
    as [rest2 [Hf2 [Hn2 Hr2]]].
  rewrite Hf1, Hf2 in Heq.
  assert (Hseg : forall rest, noSlash rest = true ->
             noSlash (lit "embroider_fastboot_switch" ++ rest) = true).
  { intros rest Hn. unfold noSlash. rewrite forallb_app.
    apply andb_true_iff. split; [reflexivity | exact Hn]. }
  destruct (PairPattern.noSlash_unique _ _ _ _ (Hseg _ Hn1) (Hseg _ Hn2) Heq)
    as [Ho Hrest].
  split; [exact Ho|]. apply app_inv_head in Hrest.
  assert (Hcomma : forall l, forallb plainName l = true ->
             forallb (fun x => forallb (fun c => negb (N.eqb c 44)) x) l = true).
  { intros l Hl. apply plainName_all; [|exact Hl].
    intros c Hc. apply andb_true_iff in Hc as [Hc _].
    apply andb_true_iff in Hc as [Hc _]. exact Hc. }
  destruct exported1 as [|a1 l1], exported2 as [|a2 l2]; subst rest1 rest2;
    try reflexivity; try discriminate.
  apply app_inv_head in Hrest.
  rewrite <- (split_join 44 (a1 :: l1)) by (discriminate || exact (Hcomma _ Hp1)).
  rewrite <- (split_join 44 (a2 :: l2)) by (discriminate || exact (Hcomma _ Hp2)).
  change [44%N] with (lit ","). rewrite Hrest. reflexivity.
Qed.

Lemma fastboot_switch_injective_witness :
  Path.resolve (lit "/cwd") [Path.dirname (lit "/pkg/index.js"); lit "./thing"]
  = Path.resolve (lit "/") [Path.dirname (lit "/pkg/other.js"); lit "thing"]
  /\ [lit "a"] = [lit "a"].
Proof.
  apply (fastboot_switch_injective
           (lit "/cwd") (lit "./thing") (lit "/pkg/index.js")
           (lit "/") (lit "thing") (lit "/pkg/other.js")
           [lit "a"] [lit "a"]); reflexivity.
Defined.

Module FastbootRecogniser.
Import Regex RegexFacts.

(** The pattern matches wherever a string of its shape starts. *)
Lemma run_shaped (pos : nat) (s original : jsstring) (query : option jsstring) :
  fastbootShaped s original query ->
  run fastbootSwitchPattern pos s [] k0 <> None.
Proof.
  intros [Hne [Hnl Hshape]].
  destruct original as [|c0 R]; [congruence|].
  apply FastbootPattern.noLT_cons in Hnl as [Hc0 HR].
  assert (Hs : exists rest,
             s = c0 :: (R ++ rest)
             /\ (rest = fastbootSwitchSuffix
                 \/ exists d q, rest = fastbootSwitchSuffix ++ lit "?names="
                                       ++ d :: q
                                /\ negb (isLineTerminator d) = true
                                /\ noLineTerminator q = true)).
  { destruct query as [q|].
    - destruct Hshape as [-> [Hq Hqnl]]. destruct q as [|d q]; [congruence|].
      apply FastbootPattern.noLT_cons in Hqnl as [Hd Hqnl].
      eexists. split; [reflexivity|]. right. exists d, q. auto.
    - subst s. eexists. split; [reflexivity|]. left. reflexivity. }
  destruct Hs as [rest [-> Hrest]].
  unfold fastbootSwitchPattern. cbn [run]. rewrite Hc0.
  destruct Hrest as [->|[d [q [-> [Hd Hq]]]]].
  - eapply (star_complete Dot _ (S pos) [] _ R fastbootSwitchSuffix);
      [reflexivity | exact HR |].
    cbv beta. fold fastbootSwitchSuffix.
    change (stripPrefix fastbootSwitchSuffix fastbootSwitchSuffix)
      with (Some (@nil N)).
    reflexivity.
  - assert (Hopt : exists r,
               star Dot (S (S pos + length R + 26 + 7)) q
                    [("original"%string,
                      firstn (S pos + length R - pos)
                             (c0 :: R ++ fastbootSwitchSuffix ++ lit "?names="
                                  ++ d :: q))]
                    (fun pos' s' caps' =>
                       if Nat.eqb pos' (S pos + length R + 26) then None
                       else match s' with
                            | [] =>
                                k0 pos' []
                                   (("names"%string,
                                     firstn (pos' - (S pos + length R + 26 + 7))
                                            (d :: q)) :: caps')
                            | _ :: _ => None
                            end)
               = Some r).
    { eexists. apply FastbootPattern.star_all; [exact Hq|].
      cbv beta.
      replace (Nat.eqb (S (S pos + length R + 26 + 7) + length q)
                       (S pos + length R + 26)) with false
        by (symmetry; apply Nat.eqb_neq; lia).
      reflexivity. }
    destruct Hopt as [r Hr].
    apply (star_complete Dot _ (S pos) [] _ R
             (fastbootSwitchSuffix ++ lit "?names=" ++ d :: q) r);
      [reflexivity | exact HR |].
    cbv beta. fold fastbootSwitchSuffix.
    rewrite stripPrefix_app. change (length fastbootSwitchSuffix) with 26.
    rewrite stripPrefix_app. change (length (lit "?names=")) with 7.
    change (cmatch Dot d) with (negb (isLineTerminator d)).
    rewrite Hd. cbv iota.
    match goal with
    | |- match ?X with _ => _ end = _ =>
        replace X with (Some r) by (symmetry; exact Hr)
    end.
    reflexivity.
Qed.

End FastbootRecogniser.

(** X6. [decodeFastbootSwitch] recognises exactly the filenames that, from
    some index on, are a non-empty original path on one line, the
    fastboot-switch suffix and, possibly, [?names=] with a non-empty query
    on one line. *)
Theorem fastboot_switch_recognised :
  forall f : jsstring,
    matchesFastboot f = true
    <-> exists before s original query,
          f = before ++ s /\ fastbootShaped s original query.
Proof.
  intros f. unfold matchesFastboot. split.
  - destruct (decodeFastbootSwitch f) as [fb|] eqn:Hfb; [|discriminate].
    intros _. apply decodeFastbootSwitch_some in Hfb
      as [before [s [query [Hf [Hshape _]]]]].
    exists before, s, (filename fb), query. auto.
  - intros [before [s [original [query [-> Hshape]]]]].
    pose proof (FastbootRecogniser.run_shaped (0 + length before) _ _ _ Hshape)
      as Hrun.
    destruct (Regex.run fastbootSwitchPattern (0 + length before) s [] k0)
      as [x|] eqn:Hx; [|congruence].
    pose proof (MatcherFacts.search_complete _ _ _ _ _ Hx) as Hsearch.
    unfold decodeFastbootSwitch, Regex.exec.
    destruct (Regex.search fastbootSwitchPattern 0 (before ++ s));
      [reflexivity | congruence].
Qed.

(** ** Implicit-modules files, end to end *)

(** A filename that ends in an implicit-modules suffix and has no question
    mark before it is not a fastboot-switch filename. *)
Lemma implicit_not_fastboot (t : ImplicitType) (fromFile : jsstring) :
  ~ In 63%N fromFile ->
  decodeFastbootSwitch (fromFile ++ implicitSuffix t) = None.
Proof.
  intros Hq.
  destruct (decodeFastbootSwitch (fromFile ++ implicitSuffix t)) as [fb|] eqn:Hfb;
    [|reflexivity].
  exfalso.
  apply decodeFastbootSwitch_some in Hfb
    as [before [s [query [Hf [[_ [_ Hshape]] _]]]]].
  destruct query as [q|].
  - destruct Hshape as [-> _].
    assert (Hin : In 63%N (fromFile ++ implicitSuffix t)).
    { rewrite Hf. apply in_or_app. right. apply in_or_app. right.
      apply in_or_app. right. left. reflexivity. }
    apply in_app_or in Hin as [Hin|Hin]; [exact (Hq Hin)|].
    destruct t; vm_compute in Hin; intuition discriminate.
  - subst s.
    assert (H1 : endsWith (fromFile ++ implicitSuffix t) fastbootSwitchSuffix
                 = true).
    { apply endsWith_spec. exists (before ++ filename fb).
      rewrite Hf, app_assoc. reflexivity. }
    assert (H2 : endsWith (fromFile ++ implicitSuffix t) (implicitSuffix t)
                 = true)
      by (apply endsWith_spec; exists fromFile; reflexivity).
    pose proof (endsWith_both _ _ _ H1 H2) as H.
    destruct t; vm_compute in H;
      (assert (Hf' : false = true) by (apply H; lia)); discriminate.
Qed.

(** X7. A path without a question mark followed by one of the two
    implicit-modules suffixes is recognised by neither the paired-component
    decoder nor the fastboot-switch decoder; [decodeImplicitModules] gives
    the kind of the suffix and the path back, and [virtualContent] is the
    implicit-modules generator applied to them, unless the filename starts
    with the external prefix. *)
Theorem implicit_modules_file_rendered :
  forall (env : Collaborators) (resolver : Resolver) (t : ImplicitType)
         (fromFile : jsstring),
    let f := fromFile ++ implicitSuffix t in
    matchesExternal f = false ->
    ~ In 63%N fromFile ->
    matchesPair f = false
    /\ matchesFastboot f = false
    /\ decodeImplicitModules f = Some {| type := t; fromFile := fromFile |}
    /\ virtualContent env f resolver
       = renderImplicitModules env {| type := t; fromFile := fromFile |} resolver.
Proof.
  intros env resolver t fromFile f Hext Hq.
  assert (Him : decodeImplicitModules f
                = Some {| type := t; fromFile := fromFile |})
    by (apply decodeImplicitModules_spec; reflexivity).
  assert (Hpair : matchesPair f = false).
  { pose proof (pair_excludes_implicit f) as H.
    unfold matchesImplicit in H. rewrite Him in H.
    rewrite andb_true_r in H. exact H. }
  pose proof (implicit_not_fastboot t fromFile Hq) as Hfb. fold f in Hfb.
  split; [exact Hpair|]. split; [unfold matchesFastboot; rewrite Hfb; reflexivity|].
  split; [exact Him|].
  unfold virtualContent. unfold matchesExternal in Hext. rewrite Hext.
  rewrite decodeVirtualPairComponent_none.
  - unfold bind. rewrite Hfb, Him. reflexivity.
  - unfold matchesPair in Hpair.
    destruct (Regex.exec pairComponentPattern f); [discriminate | reflexivity].
Qed.

Lemma implicit_modules_file_rendered_witness :
  virtualContent specCollaborators
    (lit "/app/index.js/#embroider-implicit-modules") sampleResolver
  = Return (lit "implicitModulesTemplate my-engine/foo=my-engine/foo.js ").
Proof.
  destruct (implicit_modules_file_rendered
              specCollaborators sampleResolver ImplicitModules
              (lit "/app/index.js")) as [_ [_ [_ Hv]]].
  - reflexivity.
  - apply absent_In. reflexivity.
  - exact (eq_trans Hv eq_refl).
Defined.

(** X8. [virtualContent] consults the resolver for implicit-modules
    filenames only, and there only for the owner of the decoded file and
    the resolvable extensions: two resolvers that agree on these give the
    same outcome, and for a filename that [decodeImplicitModules] does not
    recognise any two resolvers do. *)
Theorem resolver_consulted_for_implicit_modules_only :
  forall (env : Collaborators) (filename : jsstring) (r1 r2 : Resolver),
    (forall im, decodeImplicitModules filename = Some im ->
                ownerOfFile r1 (fromFile im) = ownerOfFile r2 (fromFile im)
                /\ resolvableExtensions r1 = resolvableExtensions r2) ->
    virtualContent env filename r1 = virtualContent env filename r2.
Proof.
  intros env f r1 r2 Hagree. unfold virtualContent.
  destruct (startsWith f externalPrefix); [reflexivity|].
  destruct (decodeVirtualPairComponent env f) as [[p|]|e]; unfold bind;
    try reflexivity.
  destruct (decodeFastbootSwitch f); [reflexivity|].
  destruct (decodeImplicitModules f) as [im|]; [|reflexivity].
  destruct (Hagree im eq_refl) as [Howner Hexts].
  unfold renderImplicitModules. rewrite Howner.
  destruct (ownerOfFile r2 (fromFile im)) as [pkg|]; [|reflexivity].
  destruct (isV2Ember pkg); [|reflexivity].
  unfold implicitModulesManifest. rewrite Hexts. reflexivity.
Qed.

Lemma resolver_consulted_witness :
  virtualContent specCollaborators
    (lit "/pkg/thing/embroider_fastboot_switch") sampleResolver
  = virtualContent specCollaborators
      (lit "/pkg/thing/embroider_fastboot_switch") emptyResolver.
Proof.
  apply (resolver_consulted_for_implicit_modules_only
           specCollaborators (lit "/pkg/thing/embroider_fastboot_switch")
           sampleResolver emptyResolver).
  intros im H. vm_compute in H. discriminate.
Defined.

(** X9. For a dependency whose name is a path of plain segments, the
    eager entry is the name followed by the implicit-modules suffix of the
    requested kind: a filename that [decodeImplicitModules] decodes to that
    kind and the dependency's name, and that does not start with the
    external prefix. *)
Theorem eager_entry_names_the_dependency :
  forall (t : ImplicitType) (dep : Package),
    plainPath (name dep) = true ->
    eagerEntry t dep = name dep ++ implicitSuffix t
    /\ decodeImplicitModules (eagerEntry t dep)
       = Some {| type := t; fromFile := name dep |}
    /\ matchesExternal (eagerEntry t dep) = false.
Proof.
  intros t dep Hplain.
  assert (He : eagerEntry t dep = name dep ++ implicitSuffix t).
  { unfold eagerEntry. rewrite JoinFacts.join_plain.
    - destruct t; reflexivity.
    - exact Hplain.
    - destruct t; reflexivity. }
  split; [exact He|]. rewrite He. split.
  - apply decodeImplicitModules_spec. reflexivity.
  - destruct (JoinFacts.plainPath_cons _ Hplain) as [c [p' [-> Hc]]].
    unfold matchesExternal. cbn [app]. change externalPrefix
      with (Path.slash :: lit "@embroider/external/").
    cbn [startsWith]. rewrite N.eqb_sym.
    replace (N.eqb c Path.slash) with false
      by (symmetry; apply N.eqb_neq; exact Hc).
    reflexivity.
Qed.

Lemma eager_entry_witness :
  eagerEntry ImplicitTestModules sampleEngine
  = lit "my-engine/#embroider-implicit-test-modules"
  /\ decodeImplicitModules (eagerEntry ImplicitTestModules sampleEngine)
     = Some {| type := ImplicitTestModules; fromFile := lit "my-engine" |}
  /\ matchesExternal (eagerEntry ImplicitTestModules sampleEngine) = false.
Proof.
  apply (eager_entry_names_the_dependency ImplicitTestModules sampleEngine).
  reflexivity.
Defined.

(** ** The manifests of the aggregator *)

Section LazyEntries.
Variable env : Collaborators.
Variable extensions : list jsstring.

Lemma renamed_package_keep (entries : list (jsstring * jsstring))
      (n start : jsstring) :
  (forall e, In e entries -> snd e <> n) ->
  fold_left (fun packageName entry =>
               if str_eqb (snd entry) n then fst entry else packageName)
            entries start
  = start.
Proof.
  revert start. induction entries as [|e entries IH]; intros start H;
    [reflexivity|].
  cbn [fold_left]. rewrite str_eqb_false by (apply H; left; reflexivity).
  apply IH. intros e' He'. apply H. right. exact He'.
Qed.

Lemma packageNameOf_last (dep : Package) (meta : AddonMeta)
      (before after : list (jsstring * jsstring)) (key : jsstring) :
  renamed_packages meta = Some (before ++ (key, name dep) :: after) ->
  (forall e, In e after -> snd e <> name dep) ->
  packageNameOf dep meta = key.
Proof.
  intros Hrp H. unfold packageNameOf. rewrite Hrp, fold_left_app.
  cbn [fold_left fst snd]. rewrite str_eqb_refl.
  apply renamed_package_keep. exact H.
Qed.

Lemma packageNameOf_notRenamed (dep : Package) (meta : AddonMeta) :
  notRenamed meta dep -> packageNameOf dep meta = name dep.
Proof.
  unfold notRenamed, packageNameOf. intros H.
  destruct (renamed_packages meta) as [entries|]; [|reflexivity].
  apply renamed_package_keep. apply H. reflexivity.
Qed.

Lemma contribution_active (t : ImplicitType) (pkg dep : Package)
      (meta : AddonMeta) :
  addonMeta dep = Some meta -> isPeer pkg dep = false ->
  contribution env t extensions pkg dep
  = (do lazyModules <-
       match implicitModulesOf meta t with
       | Some modules =>
           forOf (pushLazyModule env extensions dep meta
                    (inverseRenamedModules env meta extensions))
                 modules []
       | None => Return []
       end ;;
     Return (lazyModules, if isEngine dep then [] else [eagerEntry t dep])).
Proof.
  unfold contribution, visitDependency, isPeer. intros -> Hp.
  destruct (categorizeDependency pkg (name dep)) as [[| |]|];
    try discriminate;
    (destruct (implicitModulesOf meta t) as [modules|];
     [destruct (forOf _ modules []) as [l|e]|]; unfold bind;
     try reflexivity; destruct (isEngine dep); reflexivity).
Qed.

Lemma pushLazyModule_plain (dep : Package) (meta : AddonMeta)
      (acc : list LazyModule) (m : jsstring) :
  notRenamed meta dep ->
  pushLazyModule env extensions dep meta None acc m
  = Return
      (acc ++ [{| runtime := stripExtensions env extensions
                               (Path.join [name dep; m]);
                  buildtime := Path.join [name dep; m] |}]).
Proof.
  intros H. unfold pushLazyModule. rewrite (packageNameOf_notRenamed _ _ H).
  unfold splitJoin, bind. change (lit "/") with [47%N].
  rewrite join_split. reflexivity.
Qed.

(** The own properties of the inverted object: one for each entry whose
    stripped real name is not [__proto__], the latest first. *)
Lemma inverted_own (renamed : list (jsstring * jsstring)) :
  forall acc,
    fold_left
      (fun inverted entry =>
         setProperty inverted (stripExtensions env extensions (snd entry))
                     (stripExtensions env extensions (fst entry)))
      renamed acc
    = rev (filter (fun p => negb (str_eqb (fst p) (lit "__proto__")))
                  (List.map
                     (fun entry =>
                        (stripExtensions env extensions (snd entry),
                         stripExtensions env extensions (fst entry)))
                     renamed))
      ++ acc.
Proof.
  induction renamed as [|e renamed IH]; intros acc; [reflexivity|].
  cbn [fold_left List.map filter fst]. rewrite IH. unfold setProperty.
  destruct (str_eqb (stripExtensions env extensions (snd e)) (lit "__proto__"));
    cbn [negb rev]; [reflexivity|].
  rewrite <- app_assoc. reflexivity.
Qed.

Lemma inverted_last (meta : AddonMeta)
      (before after : list (jsstring * jsstring)) (classic real : jsstring) :
  renamed_modules meta = Some (before ++ (classic, real) :: after) ->
  (forall e, In e after ->
             stripExtensions env extensions (snd e)
             <> stripExtensions env extensions real) ->
  stripExtensions env extensions real <> lit "__proto__" ->
  exists inverted,
    inverseRenamedModules env meta extensions = Some inverted
    /\ getProperty inverted (stripExtensions env extensions real)
       = Str (stripExtensions env extensions classic).
Proof.
  intros Hm Hafter Hproto. unfold inverseRenamedModules. rewrite Hm.
  eexists. split; [reflexivity|].
  rewrite inverted_own, app_nil_r, map_app, filter_app, rev_app_distr.
  cbn [List.map filter fst snd]. rewrite (str_eqb_false _ _ Hproto).
  cbn [negb rev]. rewrite <- !app_assoc. unfold getProperty.
  rewrite getOwnProperty_app, getOwnProperty_none.
  - cbn [app getOwnProperty]. rewrite str_eqb_refl. reflexivity.
  - intros e He. apply in_rev, filter_In in He as [He _].
    apply in_map_iff in He as [x [<- Hx]]. cbn [fst]. apply Hafter. exact Hx.
Qed.

Lemma inverted_absent (meta : AddonMeta)
      (renamed : list (jsstring * jsstring)) (k : jsstring) :
  renamed_modules meta = Some renamed ->
  k = lit "__proto__"
  \/ (forall e, In e renamed -> stripExtensions env extensions (snd e) <> k) ->
  exists inverted,
    inverseRenamedModules env meta extensions = Some inverted
    /\ getProperty inverted k
       = if includes objectPrototypeKeys k then Obj else Undefined.
Proof.
  intros Hm Hno. unfold inverseRenamedModules. rewrite Hm.
  eexists. split; [reflexivity|].
  rewrite inverted_own, app_nil_r. unfold getProperty.
  rewrite getOwnProperty_none; [reflexivity|].
  intros e He. apply in_rev, filter_In in He as [He Hp].
  apply in_map_iff in He as [x [<- Hx]]. cbn [fst] in *.
  destruct Hno as [->|Hno]; [|apply Hno; exact Hx].
  intros Heq. rewrite Heq, str_eqb_refl in Hp. discriminate.
Qed.

End LazyEntries.

Lemma forOf_snoc (A B : Type) (f : A -> B) (g : list B -> A -> outcome (list B))
      (l : list A) : forall acc,
  (forall acc x, g acc x = Return (acc ++ [f x])) ->
  forOf g l acc = Return (acc ++ List.map f l).
Proof.
  induction l as [|x l IH]; intros acc H; cbn [forOf List.map].
  - rewrite app_nil_r. reflexivity.
  - rewrite H. unfold bind. rewrite IH by exact H. rewrite <- app_assoc.
    reflexivity.
Qed.

(** X10. Of a run of the aggregator that returns, the eager manifest has
    one entry for each dependency that is a v2 addon, not a peer dependency
    and not an engine, in the sorted order of the dependencies, and nothing
    else.  The run returns exactly when no visit throws; what it throws
    otherwise is a [TypeError], and there is no manifest then.  A
    dependency that is not a v2 addon adds nothing to either manifest. *)
Theorem eager_manifest_lists_active_addons :
  forall (env : Collaborators) (t : ImplicitType) (resolver : Resolver)
         (pkg : Package),
    (forall lazyModules eagerModules,
        implicitModulesManifest env t resolver pkg
        = Return (lazyModules, eagerModules) ->
        eagerModules
        = List.map (eagerEntry t)
                   (filter (importsEagerly pkg)
                           (sort orderAddons (dependencies pkg))))
    /\ ((exists manifest,
            implicitModulesManifest env t resolver pkg = Return manifest)
        <-> existsb (visitThrows env t (resolvableExtensions resolver) pkg)
                    (dependencies pkg) = false)
    /\ (forall e, implicitModulesManifest env t resolver pkg = Throw e ->
                  e = TypeError)
    /\ (forall dep, isV2Addon dep = false ->
                    contribution env t (resolvableExtensions resolver) pkg dep
                    = Return ([], [])).
Proof.
  intros env t resolver pkg.
  destruct (manifest_cases env t resolver pkg) as [[Hv ->]|[Hv [l ->]]];
    rewrite Hv.
  - split; [discriminate|]. split; [|split].
    + split; [intros [m H]; discriminate | discriminate].
    + intros e H. injection H as <-. reflexivity.
    + intros dep Hv2. unfold isV2Addon in Hv2.
      unfold contribution, visitDependency.
      destruct (addonMeta dep); [discriminate | reflexivity].
  - split; [|split; [|split]].
    + intros lazyModules eagerModules H. injection H as _ <-. reflexivity.
    + split; [reflexivity|]. intros _. eexists. reflexivity.
    + discriminate.
    + intros dep Hv2. unfold isV2Addon in Hv2.
      unfold contribution, visitDependency.
      destruct (addonMeta dep); [discriminate | reflexivity].
Qed.

(** X11. The visit of a v2-addon dependency that is not a peer dependency,
    under whose name no package was renamed and that has no renamed
    modules, returns; it contributes one lazy entry for each module that
    the dependency declares for the requested kind, in their order:
    [buildtime] is the module joined to the name of the dependency and
    [runtime] is that path without its resolvable extension; it contributes
    none when it declares no modules of that kind.  When the name and the
    modules are paths of plain segments the joined path is the name, a
    slash and the module. *)
Theorem lazy_entries_without_renames :
  forall (env : Collaborators) (t : ImplicitType) (extensions : list jsstring)
         (pkg dep : Package) (meta : AddonMeta),
    addonMeta dep = Some meta -> isPeer pkg dep = false ->
    notRenamed meta dep -> renamed_modules meta = None ->
    contribution env t extensions pkg dep
    = Return
        (match implicitModulesOf meta t with
         | Some modules =>
             List.map (fun m =>
                    {| runtime := stripExtensions env extensions
                                    (Path.join [name dep; m]);
                       buildtime := Path.join [name dep; m] |})
                 modules
         | None => []
         end,
         if isEngine dep then [] else [eagerEntry t dep])
    /\ (forall modules,
           implicitModulesOf meta t = Some modules ->
           plainPath (name dep) = true ->
           forallb plainPath modules = true ->
           contribution env t extensions pkg dep
           = Return
               (List.map (fun m =>
                      {| runtime := stripExtensions env extensions
                                      (name dep ++ lit "/" ++ m);
                         buildtime := name dep ++ lit "/" ++ m |})
                   modules,
                if isEngine dep then [] else [eagerEntry t dep])).
Proof.
  intros env t extensions pkg dep meta Hmeta Hpeer Hrp Hrm.
  assert (Hlazy :
    contribution env t extensions pkg dep
    = Return
        (match implicitModulesOf meta t with
         | Some modules =>
             List.map (fun m =>
                    {| runtime := stripExtensions env extensions
                                    (Path.join [name dep; m]);
                       buildtime := Path.join [name dep; m] |})
                 modules
         | None => []
         end,
         if isEngine dep then [] else [eagerEntry t dep])).
  { rewrite (contribution_active env extensions t pkg dep meta Hmeta Hpeer).
    destruct (implicitModulesOf meta t) as [modules|]; [|reflexivity].
    unfold inverseRenamedModules. rewrite Hrm.
    rewrite (forOf_snoc _ _
               (fun m => {| runtime := stripExtensions env extensions
                                         (Path.join [name dep; m]);
                            buildtime := Path.join [name dep; m] |})).
    - reflexivity.
    - intros acc m. apply pushLazyModule_plain. exact Hrp. }
  split; [exact Hlazy|].
  intros modules Hmods Hname Hplain. rewrite Hlazy, Hmods.
  do 2 f_equal. apply map_ext_in. intros m Hm.
  rewrite forallb_forall in Hplain.
  rewrite (JoinFacts.join_plain _ _ Hname (Hplain m Hm)). reflexivity.
Qed.

Lemma lazy_entries_without_renames_witness :
  contribution specCollaborators ImplicitModules
               (resolvableExtensions sampleResolver) sampleApp sampleEngine
  = Return ([{| runtime := lit "my-engine/foo";
                buildtime := lit "my-engine/foo.js" |}], []).
Proof.
  destruct (lazy_entries_without_renames
              specCollaborators ImplicitModules
              (resolvableExtensions sampleResolver) sampleApp sampleEngine
              sampleMeta) as [_ Hplain].
  - reflexivity.
  - reflexivity.
  - intros entries H. discriminate.
  - reflexivity.
  - apply (Hplain [lit "foo.js"]); reflexivity.
Defined.

(** X12. Of a visit that returns, for a v2-addon dependency that is not a
    peer dependency: there is exactly one lazy entry for each module that
    the dependency declares for the requested kind, and the [buildtime] of
    each is the module joined to a package name: the key of the last entry
    of [renamed-packages] whose value is the name of the dependency, and
    the name of the dependency when there is no such entry. *)
Theorem renamed_packages_name_the_buildtime :
  forall (env : Collaborators) (t : ImplicitType) (extensions : list jsstring)
         (pkg dep : Package) (meta : AddonMeta) (modules : list jsstring)
         (lazyModules : list LazyModule) (eagerModules : list jsstring),
    addonMeta dep = Some meta -> isPeer pkg dep = false ->
    implicitModulesOf meta t = Some modules ->
    contribution env t extensions pkg dep = Return (lazyModules, eagerModules) ->
    length lazyModules = length modules
    /\ (forall before key after,
           renamed_packages meta = Some (before ++ (key, name dep) :: after) ->
           (forall e, In e after -> snd e <> name dep) ->
           List.map buildtime lazyModules
           = List.map (fun m => Path.join [key; m]) modules)
    /\ (notRenamed meta dep ->
        List.map buildtime lazyModules
        = List.map (fun m => Path.join [name dep; m]) modules).
Proof.
  intros env t extensions pkg dep meta modules lazyModules eagerModules
         Hmeta Hpeer Hmods Hc.
  rewrite (contribution_active env extensions t pkg dep meta Hmeta Hpeer) in Hc.
  rewrite Hmods in Hc.
  destruct (forOf_pushLazyModule_cases env extensions dep meta modules [])
    as [[_ Hf]|[_ [entries [Hf Hb]]]]; rewrite Hf in Hc; unfold bind in Hc;
    [discriminate|].
  injection Hc as <- _. cbn [app]. split; [|split].
  - rewrite <- (length_map buildtime entries), Hb, length_map. reflexivity.
  - intros before key after Hrp Hafter.
    rewrite Hb, (packageNameOf_last dep meta before after key Hrp Hafter).
    reflexivity.
  - intros Hnr. rewrite Hb, (packageNameOf_notRenamed _ _ Hnr). reflexivity.
Qed.

Lemma renamed_packages_witness :
  contribution specCollaborators ImplicitModules
               (resolvableExtensions sampleResolver) sampleApp
               sampleRenamedPackage
  = Return ([{| runtime := lit "old-name/index";
                buildtime := lit "old-name/index.js" |}],
            [lit "new-name/#embroider-implicit-modules"])
  /\ List.map buildtime
              [{| runtime := lit "old-name/index";
                  buildtime := lit "old-name/index.js" |}]
     = List.map (fun m => Path.join [lit "old-name"; m]) [lit "index.js"].
Proof.
  split; [reflexivity|].
  destruct (renamed_packages_name_the_buildtime
              specCollaborators ImplicitModules
              (resolvableExtensions sampleResolver) sampleApp
              sampleRenamedPackage sampleRenamedPackageMeta [lit "index.js"]
              [{| runtime := lit "old-name/index";
                  buildtime := lit "old-name/index.js" |}]
              [lit "new-name/#embroider-implicit-modules"])
    as [_ [Hrenamed _]].
  - reflexivity.
  - reflexivity.
  - reflexivity.
  - reflexivity.
  - apply (Hrenamed [] (lit "old-name") []).
    + reflexivity.
    + intros e H. destruct H.
Defined.


(** X14. For a dependency under whose name no package was renamed, the
    aggregator looks a module up under its stripped import path,
    backslashes turned into slashes.  When that key is not [__proto__] and
    is the stripped real name of an entry of [renamed-modules], later
    entries aside, the lazy entry is registered under the stripped classic
    name of that entry, or under the stripped import path when that classic
    name is empty.  When the key is the stripped real name of no entry and
    not the name of a property of [Object.prototype], the entry is
    registered under the stripped import path.  When the key is
    [__proto__], or the stripped real name of no entry, and the name of a
    property of [Object.prototype], the round throws a [TypeError]. *)
Theorem renamed_module_runtime :
  forall (env : Collaborators) (extensions : list jsstring) (dep : Package)
         (meta : AddonMeta) (renamed : list (jsstring * jsstring))
         (acc : list LazyModule) (m : jsstring),
    notRenamed meta dep ->
    renamed_modules meta = Some renamed ->
    let strip := stripExtensions env extensions in
    let buildtimePath := Path.join [name dep; m] in
    let lookup := slashed (strip buildtimePath) in
    let pushed :=
      pushLazyModule env extensions dep meta
                     (inverseRenamedModules env meta extensions) acc m in
    (forall before classic real after,
        renamed = before ++ (classic, real) :: after ->
        (forall e, In e after -> strip (snd e) <> strip real) ->
        strip real = lookup ->
        lookup <> lit "__proto__" ->
        pushed
        = Return (acc ++ [{| runtime := if isEmpty (strip classic)
                                        then strip buildtimePath
                                        else strip classic;
                             buildtime := buildtimePath |}]))
    /\ ((forall e, In e renamed -> strip (snd e) <> lookup) ->
        includes objectPrototypeKeys lookup = false ->
        pushed = Return (acc ++ [{| runtime := strip buildtimePath;
                                    buildtime := buildtimePath |}]))
    /\ (lookup = lit "__proto__"
        \/ (forall e, In e renamed -> strip (snd e) <> lookup) ->
        includes objectPrototypeKeys lookup = true ->
        pushed = Throw TypeError).
Proof.
  intros env extensions dep meta renamed acc m Hnr Hm strip buildtimePath
         lookup pushed.
  subst pushed. unfold pushLazyModule.
  rewrite (packageNameOf_notRenamed _ _ Hnr). fold buildtimePath.
  rewrite join_split_slashed. fold strip. fold lookup.
  split; [|split].
  - intros before classic real after -> Hafter Hreal Hproto.
    rewrite <- Hreal in Hproto.
    destruct (inverted_last env extensions meta before after
                classic real Hm Hafter Hproto) as [inverted [-> Hg]].
    fold strip in Hg. rewrite <- Hreal, Hg. cbn [truthy].
    destruct (strip classic) as [|c s] eqn:Hc; cbn [isEmpty negb];
      unfold splitJoin, bind; change (lit "/") with [47%N];
      rewrite join_split; reflexivity.
  - intros Hno Hinh.
    destruct (inverted_absent env extensions meta renamed lookup
                Hm (or_intror Hno)) as [inverted [-> Hg]].
    rewrite Hg, Hinh. cbn [truthy]. unfold splitJoin, bind.
    change (lit "/") with [47%N]. rewrite join_split. reflexivity.
  - intros Hno Hinh.
    destruct (inverted_absent env extensions meta renamed lookup
                Hm Hno) as [inverted [-> Hg]].
    rewrite Hg, Hinh. reflexivity.
Qed.

Lemma renamed_module_runtime_witness :
  pushLazyModule specCollaborators (resolvableExtensions sampleResolver)
    (sampleAddon (lit "my-addon") None) sampleRenamedModulesMeta
    (inverseRenamedModules specCollaborators sampleRenamedModulesMeta
                           (resolvableExtensions sampleResolver))
    [] (lit "index.js")
  = Return
      [{| runtime := lit "classic/index"; buildtime := lit "my-addon/index.js" |}].
Proof.
  destruct (renamed_module_runtime
              specCollaborators (resolvableExtensions sampleResolver)
              (sampleAddon (lit "my-addon") None) sampleRenamedModulesMeta
              [(lit "classic/index.js", lit "my-addon/index.js")]
              [] (lit "index.js")) as [Hrenamed _].
  - intros entries H. discriminate.
  - reflexivity.
  - apply (Hrenamed [] (lit "classic/index.js") (lit "my-addon/index.js") []).
    + reflexivity.
    + intros e H. destruct H.
    + reflexivity.
    + discriminate.
Defined.

(** ** The order of the dependencies *)

Section SortOrder.
Variable A : Type.
Variable cmp : A -> A -> Z.
Variable key : A -> Z.
Hypothesis cmp_key : forall a b, cmp a b = (key a - key b)%Z.

Lemma sort_sorted_id (l : list A) :
  StronglySorted (fun a b => (key a <= key b)%Z) l -> sort cmp l = l.
Proof.
  induction 1 as [|x l Hs IH Hall]; [reflexivity|].
  simpl. rewrite IH. apply (insert_head A cmp key cmp_key). exact Hall.
Qed.

Lemma sorted_perm_eq (l1 : list A) : forall l2,
  StronglySorted (fun a b => (key a <= key b)%Z) l1 ->
  StronglySorted (fun a b => (key a <= key b)%Z) l2 ->
  Permutation l1 l2 ->
  NoDup (List.map key l1) ->
  l1 = l2.
Proof.
  induction l1 as [|a l1 IH]; intros l2 H1 H2 Hp Hnd.
  - apply Permutation_nil in Hp. congruence.
  - destruct l2 as [|b l2];
      [apply Permutation_sym, Permutation_nil in Hp; discriminate|].
    inversion H1 as [|? ? Hs1 Hall1]; subst.
    inversion H2 as [|? ? Hs2 Hall2]; subst.
    inversion Hnd as [|? ? Hnot Hnd']; subst.
    assert (Hab : a = b).
    { assert (Hb : In b (a :: l1)).
      { apply (Permutation_in b (Permutation_sym Hp)). left. reflexivity. }
      destruct Hb as [Hb|Hb]; [exact Hb|].
      assert (Ha : In a (b :: l2)).
      { apply (Permutation_in a Hp). left. reflexivity. }
      destruct Ha as [Ha|Ha]; [congruence|].
      rewrite Forall_forall in Hall1, Hall2.
      pose proof (Hall1 b Hb). pose proof (Hall2 a Ha).
      exfalso. apply Hnot.
      replace (key a) with (key b) by lia.
      apply in_map. exact Hb. }
    subst b. f_equal. apply IH; try assumption.
    apply (Permutation_cons_inv Hp).
Qed.

Lemma sort_perm_eq (l1 l2 : list A) :
  Permutation l1 l2 -> NoDup (List.map key l1) -> sort cmp l1 = sort cmp l2.
Proof.
  intros Hp Hnd. apply sorted_perm_eq.
  - apply (sort_sorted A cmp key cmp_key).
  - apply (sort_sorted A cmp key cmp_key).
  - rewrite <- (sort_perm A cmp l1), <- (sort_perm A cmp l2). exact Hp.
  - eapply Permutation_NoDup; [|exact Hnd].
    apply Permutation_map. apply sort_perm.
Qed.

End SortOrder.

(** X15. Dependencies that are listed in ascending order-index, as they
    are when none declares an order-index, are visited in the order in
    which they are listed: sorting leaves the list as it is. *)
Theorem ordered_dependencies_keep_their_order :
  forall (env : Collaborators) (t : ImplicitType) (resolver : Resolver)
         (pkg : Package),
    orderedByIndex (dependencies pkg) ->
    sort orderAddons (dependencies pkg) = dependencies pkg
    /\ implicitModulesManifest env t resolver pkg
       = forOf (visitDependency env t (resolvableExtensions resolver) pkg)
               (dependencies pkg) ([], []).
Proof.
  intros env t resolver pkg Hsorted.
  assert (Hid : sort orderAddons (dependencies pkg) = dependencies pkg)
    by exact (sort_sorted_id Package orderAddons orderIndex orderAddons_key
                             _ Hsorted).
  split; [exact Hid|]. unfold implicitModulesManifest. rewrite Hid.
  reflexivity.
Qed.

Lemma ordered_dependencies_witness :
  sort orderAddons (dependencies sampleSortedApp) = dependencies sampleSortedApp.
Proof.
  apply (ordered_dependencies_keep_their_order
           specCollaborators ImplicitModules sampleResolver sampleSortedApp).
  repeat constructor; vm_compute; discriminate.
Defined.

(** X16. When no two dependencies have the same order-index, the order in
    which the package lists them does not matter: every rearrangement of
    the list sorts to the same list and gives the same two manifests. *)
Theorem manifest_independent_of_listing_order :
  forall (env : Collaborators) (t : ImplicitType) (resolver : Resolver)
         (pkg : Package) (deps' : list Package),
    Permutation (dependencies pkg) deps' ->
    NoDup (List.map orderIndex (dependencies pkg)) ->
    sort orderAddons deps' = sort orderAddons (dependencies pkg)
    /\ implicitModulesManifest env t resolver (withDependencies pkg deps')
       = implicitModulesManifest env t resolver pkg.
Proof.
  intros env t resolver pkg deps' Hperm Hnd.
  assert (Hs : sort orderAddons deps' = sort orderAddons (dependencies pkg)).
  { symmetry.
    exact (sort_perm_eq Package orderAddons orderIndex orderAddons_key
                        _ _ Hperm Hnd). }
  split; [exact Hs|]. unfold implicitModulesManifest.
  cbn [dependencies withDependencies]. rewrite Hs. reflexivity.
Qed.

Lemma listing_order_witness :
  implicitModulesManifest specCollaborators ImplicitModules sampleResolver
    (withDependencies sampleDistinctApp
       [sampleAddon (lit "early") None; sampleAddon (lit "late") (Some 1%Z)])
  = implicitModulesManifest specCollaborators ImplicitModules sampleResolver
      sampleDistinctApp.
Proof.
  apply (manifest_independent_of_listing_order
           specCollaborators ImplicitModules sampleResolver sampleDistinctApp
           [sampleAddon (lit "early") None;
            sampleAddon (lit "late") (Some 1%Z)]).
  - apply perm_swap.
  - vm_compute. repeat constructor; simpl; intuition discriminate.
Defined.
